(** * Astro Scheduler (Assignment 2): the schedule manager, its conflict
      validator and its event bus, embedded from the TypeScript sources.

    Conventions of the embedding.
    - A JavaScript string is a [string]: a sequence of code units, here the
      code units 0..255.
    - A JavaScript number that the code computes from times is an integer or
      [NaN] ([Num]); integers are exact.
    - A call that may throw returns a [Res]; a method that reads or writes the
      manager, the clock or the listeners is a function of the [World]
      (state passing, the state surviving a throw as it does in JavaScript).
    - What the platform provides ([new Date()], [Date.prototype.toISOString],
      [new Date(string)], [JSON.stringify], [JSON.parse]) is the [Host]
      of the world.
    - What a caller passes to a method has the type its signature declares.
      The items of an imported array have no type the code checks: they are
      values of any shape ([JSON.any]), and [Untyped] says what the code
      does with those that are not task records.
    - A listener is called with [update] and answers by returning or by
      throwing an [Error] object; its [getName] returns. In the operations
      on the schedule a listener leaves the manager alone while it is
      called ([IObserver.t]); [Live] is the dispatch with listeners that
      attach and detach listeners from inside [update]. *)

From Stdlib Require Import ZArith List String Ascii Bool Lia Permutation Arith Sorted.
Import ListNotations.
Local Open Scope string_scope.
Local Open Scope list_scope.
Local Open Scope Z_scope.

(** String concatenation, as in a template literal. *)
Infix "+++" := String.append (right associativity, at level 60).

(** ** JavaScript primitives *)

(** The double quote, for the template literals of the source. *)
Definition dq : string := String (ascii_of_nat 34) EmptyString.

(** The quoted text of a template literal: ["${s}"]. *)
Definition quoted (s : string) : string := dq +++ s +++ dq.

Definition code (c : ascii) : Z := Z.of_nat (nat_of_ascii c).

(** WhiteSpace and LineTerminator code units below 256: TAB, LF, VT, FF, CR,
    SP and NBSP. *)
Definition isWhiteSpace (c : ascii) : bool :=
  let n := code c in
  ((9 <=? n) && (n <=? 13)) || (n =? 32) || (n =? 160).

Fixpoint trimStart (s : string) : string :=
  match s with
  | EmptyString => EmptyString
  | String c rest => if isWhiteSpace c then trimStart rest else s
  end.

(** [trimEnd]: a character stays when it is not white space or when something
    stays after it. *)
Fixpoint trimEnd (s : string) : string :=
  match s with
  | EmptyString => EmptyString
  | String c rest =>
      match trimEnd rest with
      | EmptyString => if isWhiteSpace c then EmptyString else String c EmptyString
      | kept => String c kept
      end
  end.

(** [String.prototype.trim]. *)
Definition trim (s : string) : string := trimEnd (trimStart s).

(** Lower case of one code unit: A-Z, and the Latin-1 capitals (0xC0-0xDE
    without the multiplication sign 0xD7). *)
Definition lowerChar (c : ascii) : ascii :=
  let n := code c in
  if ((65 <=? n) && (n <=? 90)) || ((192 <=? n) && (n <=? 222) && negb (n =? 215))
  then ascii_of_nat (nat_of_ascii c + 32)
  else c.

(** [String.prototype.toLowerCase]. *)
Fixpoint toLowerCase (s : string) : string :=
  match s with
  | EmptyString => EmptyString
  | String c rest => String (lowerChar c) (toLowerCase rest)
  end.

(** [String.prototype.split] with a one-character separator. *)
Fixpoint split (sep : ascii) (s : string) : list string :=
  match s with
  | EmptyString => [EmptyString]
  | String c rest =>
      if Ascii.eqb c sep then EmptyString :: split sep rest
      else match split sep rest with
           | [] => [String c EmptyString]
           | part :: parts => String c part :: parts
           end
  end.

(** A number as the time code meets it: an integer or [NaN]. *)
Inductive Num : Type :=
  | Int (z : Z)
  | NaN.

Definition isNaN (n : Num) : bool :=
  match n with NaN => true | Int _ => false end.

(** Value of a digit character in radix up to 36. *)
Definition digitValue (c : ascii) : option Z :=
  let n := code c in
  if (48 <=? n) && (n <=? 57) then Some (n - 48)
  else if (97 <=? n) && (n <=? 122) then Some (n - 87)
  else if (65 <=? n) && (n <=? 90) then Some (n - 55)
  else None.

(** The longest prefix of digits of radix [R], as a value; [acc] is what has
    been read so far ([None]: no digit yet). *)
Fixpoint readDigits (R : Z) (s : string) (acc : option Z) : option Z :=
  match s with
  | EmptyString => acc
  | String c rest =>
      match digitValue c with
      | Some d =>
          if d <? R
          then readDigits R rest (Some (R * match acc with Some a => a | None => 0 end + d))
          else acc
      | None => acc
      end
  end.

(** A leading sign of [parseInt]: the sign and the rest. *)
Definition readSign (s : string) : Z * string :=
  match s with
  | String "-" rest => (-1, rest)
  | String "+" rest => (1, rest)
  | _ => (1, s)
  end.

(** A leading [0x] or [0X], stripped. *)
Definition stripHexPrefix (s : string) : option string :=
  match s with
  | String "0" (String "x" rest) => Some rest
  | String "0" (String "X" rest) => Some rest
  | _ => None
  end.

(** [parseInt(string, radix)]; [radix = None] is the call without a radix. *)
Definition parseInt (s : string) (radix : option Z) : Num :=
  let '(sign, body) := readSign (trimStart s) in
  let '(R, digits) :=
    match radix with
    | Some r =>
        if (r =? 16) || (r =? 0)
        then match stripHexPrefix body with
             | Some rest => (16, rest)
             | None => (if r =? 0 then 10 else 16, body)
             end
        else (r, body)
    | None =>
        match stripHexPrefix body with
        | Some rest => (16, rest)
        | None => (10, body)
        end
    end in
  if (R <? 2) || (36 <? R) then NaN
  else match readDigits R digits None with
       | Some v => Int (sign * v)
       | None => NaN
       end.

(** [ToString] of a possibly undefined string, as [parseInt] applies it to its
    argument. *)
Definition ToString (x : option string) : string :=
  match x with
  | Some s => s
  | None => "undefined"
  end.

(** Decimal text of a natural number, for the template literals. *)
Fixpoint decimalDigits (fuel : nat) (n : nat) (acc : string) : string :=
  match fuel with
  | O => acc
  | S fuel' =>
      let acc' := String (ascii_of_nat (48 + Nat.modulo n 10)) acc in
      match Nat.div n 10 with
      | O => acc'
      | q => decimalDigits fuel' q acc'
      end
  end.

Definition showNat (n : nat) : string := decimalDigits (S n) n EmptyString.

(** The first [n] characters of [fill] repeated; [cur] is what is left of the
    copy being read. *)
Fixpoint takeCyclic (n : nat) (fill cur : string) : string :=
  match n with
  | O => EmptyString
  | S n' =>
      match cur with
      | String c rest => String c (takeCyclic n' fill rest)
      | EmptyString =>
          match fill with
          | String c rest => String c (takeCyclic n' fill rest)
          | EmptyString => EmptyString
          end
      end
  end.

(** [String.prototype.padStart]. *)
Definition padStart (maxLength : nat) (fillString : string) (s : string) : string :=
  if Nat.leb maxLength (String.length s) then s
  else if String.eqb fillString EmptyString then s
  else takeCyclic (maxLength - String.length s) fillString fillString +++ s.

(** [a < b] on strings: the order of the code units, a proper prefix first. *)
Fixpoint string_ltb (a b : string) : bool :=
  match a, b with
  | _, EmptyString => false
  | EmptyString, String _ _ => true
  | String x a', String y b' =>
      if code x <? code y then true
      else if code y <? code x then false
      else string_ltb a' b'
  end.

(** [a >= b] and [a <= b] on strings. *)
Definition string_geb (a b : string) : bool := negb (string_ltb a b).
Definition string_leb (a b : string) : bool := negb (string_ltb b a).

(** [Array.prototype.join] on strings. *)
Fixpoint join (sep : string) (parts : list string) : string :=
  match parts with
  | [] => EmptyString
  | [part] => part
  | part :: rest => part +++ sep +++ join sep rest
  end.

(** ** Errors (utils/ErrorHandler.ts) and results *)

(** An [Error] object: its [name] and [message]. *)
Module Err.
Record t : Type := mk { name : string; message : string }.
End Err.
Definition Error : Type := Err.t.

(** Every subclass of [AppError] sets [this.name] to its class name. *)
Definition TaskConflictError (m : string) : Error := Err.mk "TaskConflictError" m.
Definition TaskNotFoundError (m : string) : Error := Err.mk "TaskNotFoundError" m.
Definition InvalidTimeFormatError (m : string) : Error := Err.mk "InvalidTimeFormatError" m.
Definition InvalidTimeRangeError (m : string) : Error := Err.mk "InvalidTimeRangeError" m.
Definition InvalidTaskDescriptionError (m : string) : Error :=
  Err.mk "InvalidTaskDescriptionError" m.
(** [new Error(message)]. *)
Definition PlainError (m : string) : Error := Err.mk "Error" m.
(** The [RangeError] of [toISOString] on an invalid date. *)
Definition RangeError (m : string) : Error := Err.mk "RangeError" m.

(** The outcome of a call: a value, or a thrown error. *)
Inductive Res (A : Type) : Type :=
  | Ok (a : A)
  | Throw (e : Error).
Arguments Ok {A} a.
Arguments Throw {A} e.

Definition res_bind {A B : Type} (r : Res A) (k : A -> Res B) : Res B :=
  match r with
  | Ok a => k a
  | Throw e => Throw e
  end.

Declare Scope res_scope.
Delimit Scope res_scope with res.
Notation "'let?' x ':=' r 'in' k" := (res_bind r (fun x => k))
  (at level 10, x name, r at level 100, k at level 200) : res_scope.

(** [xs.filter(f)] for an [f] that may throw. *)
Fixpoint filterRes {A : Type} (f : A -> Res bool) (xs : list A) : Res (list A) :=
  match xs with
  | [] => Ok []
  | x :: rest =>
      (let? keep := f x in
       let? kept := filterRes f rest in
       Ok (if keep then x :: kept else kept))%res
  end.

(** [try { r } catch (error) { throw new E(error.message) }] *)
Definition rethrowAs {A : Type} (E : string -> Error) (r : Res A) : Res A :=
  match r with
  | Ok a => Ok a
  | Throw error => Throw (E (Err.message error))
  end.

(** The [TypeError] of a property read on [undefined]. *)
Definition TypeError (m : string) : Error := Err.mk "TypeError" m.

(** ** utils/TimeUtils.ts *)

Module TimeUtils.
Local Open Scope res_scope.

Definition isDigit (c : ascii) : bool := (48 <=? code c) && (code c <=? 57).
Definition inRange (lo hi : Z) (c : ascii) : bool := (lo <=? code c) && (code c <=? hi).

(** [TIME_REGEX.test(time)] for [/^([01]\d|2[0-3]):([0-5]\d)$/]. *)
Definition TIME_REGEX_test (time : string) : bool :=
  match time with
  | String h1 (String h2 (String c (String m1 (String m2 EmptyString)))) =>
      ((inRange 48 49 h1 && isDigit h2) || ((code h1 =? 50) && inRange 48 51 h2))
      && (code c =? 58)
      && inRange 48 53 m1 && isDigit m2
  | _ => false
  end.

Definition validateTimeFormat (time : string) : Res unit :=
  if negb (TIME_REGEX_test time)
  then Throw (InvalidTimeFormatError
                ("Invalid time format " +++ quoted time +++ ". Must be HH:MM (24-hour format)."))
  else Ok tt.

Definition timeToMinutes (time : string) : Res Z :=
  let parts := split ":" time in
  let hourStr := nth_error parts 0 in
  let minuteStr := nth_error parts 1 in
  let hours := parseInt (ToString hourStr) (Some 10) in
  let minutes := parseInt (ToString minuteStr) (Some 10) in
  match hours, minutes with
  | Int h, Int m => Ok (h * 60 + m)
  | _, _ => Throw (InvalidTimeFormatError
                     ("Internal error converting time " +++ quoted time +++ "."))
  end.

Definition validateTimeRange (startTime endTime : string) : Res unit :=
  let? startMinutes := timeToMinutes startTime in
  let? endMinutes := timeToMinutes endTime in
  if startMinutes >=? endMinutes
  then Throw (InvalidTimeRangeError
                ("Invalid time range: Start time (" +++ startTime
                 +++ ") must be strictly before end time (" +++ endTime +++ ")."))
  else Ok tt.

Definition compareTimeStrings (time1 time2 : string) : Res Z :=
  let? minutes1 := timeToMinutes time1 in
  let? minutes2 := timeToMinutes time2 in
  Ok (minutes1 - minutes2).

Definition formatTime (time : string) : Res string :=
  let? _ := validateTimeFormat time in
  let parts := split ":" time in
  match nth_error parts 0, nth_error parts 1 with
  | Some hours, Some minutes =>
      Ok (padStart 2 "0" hours +++ ":" +++ padStart 2 "0" minutes)
  | _, _ => Throw (TypeError "Cannot read properties of undefined (reading 'padStart')")
  end.

Definition doTimeRangesOverlap (start1 end1 start2 end2 : string) : Res bool :=
  let? s1 := timeToMinutes start1 in
  let? e1 := timeToMinutes end1 in
  let? s2 := timeToMinutes start2 in
  let? e2 := timeToMinutes end2 in
  Ok ((s1 <? e2) && (s2 <? e1)).
End TimeUtils.

(** ** The data model *)

(** A [Date] object: a time value in milliseconds, or the invalid date. *)
Inductive Date : Type :=
  | DateOf (ms : Z)
  | InvalidDate.

(** models/TaskPriority.ts *)
Inductive TaskPriority : Type := LOW | MEDIUM | HIGH.

(** The string an enum member is: [TaskPriority.LOW = 'Low'], ... *)
Definition priorityValue (p : TaskPriority) : string :=
  match p with
  | LOW => "Low"
  | MEDIUM => "Medium"
  | HIGH => "High"
  end.

(** [a === b] on priorities. *)
Definition samePriority (a b : TaskPriority) : bool :=
  String.eqb (priorityValue a) (priorityValue b).

Definition parseTaskPriority (priority : string) : Res TaskPriority :=
  let normalizedPriority := trim (toLowerCase priority) in
  if String.eqb normalizedPriority "low" then Ok LOW
  else if String.eqb normalizedPriority "medium" then Ok MEDIUM
  else if String.eqb normalizedPriority "high" then Ok HIGH
  else Throw (PlainError ("Invalid priority: " +++ quoted priority
                          +++ ". Valid options are: Low, Medium, High")).

(** [Object.values(TaskPriority)] *)
Definition getAllPriorities : list TaskPriority := [LOW; MEDIUM; HIGH].

Definition getPriorityWeight (priority : TaskPriority) : Z :=
  match priority with
  | LOW => 1
  | MEDIUM => 2
  | HIGH => 3
  end.


(** models/Task.ts: the fields of a [Task]. *)
Record Task : Type := mkTask {
  id : string;
  description : string;
  startTime : string;
  endTime : string;
  priority : TaskPriority;
  completed : bool;
  createdAt : Date;
  updatedAt : option Date
}.

(** The plain object [Task.toJSON] builds and [Task.fromJSON] reads, and
    the values [JSON.parse] returns. [task] is an object whose properties
    have the types [Task] declares; [completed] and [updatedAt] may be
    missing. [any] is a value of any shape: [JNumber] is a number that is an
    integer of absolute value below 2^53, [JOther] a number or a string
    that the model does not describe (another number, a string with a code
    unit above 255). A parsed text is an array of objects of the declared
    types ([Array]), an array with an item of another shape ([Loose]), or a
    value that is not an array. *)
Module JSON.
Record task : Type := mkTask {
  id : string;
  description : string;
  startTime : string;
  endTime : string;
  priority : TaskPriority;
  completed : option bool;
  createdAt : string;
  updatedAt : option string;
  durationMinutes : Num
}.

#[local] Unset Elimination Schemes.
Inductive any : Type :=
  | JNull
  | JBool (b : bool)
  | JNumber (n : Z)
  | JString (s : string)
  | JArray (items : list any)
  | JObject (members : list (string * any))
  | JOther.
#[local] Set Elimination Schemes.

Inductive value : Type :=
  | Array (items : list task)
  | NotArray
  | Loose (items : list any).

(** [object.key] on the members as they are written: the last member of the
    name. *)
Fixpoint member (key : string) (members : list (string * any)) : option any :=
  match members with
  | [] => None
  | (k, v) :: rest =>
      match member key rest with
      | Some later => Some later
      | None => if String.eqb k key then Some v else None
      end
  end.

Definition priorityOf (s : string) : option TaskPriority :=
  if String.eqb s "Low" then Some LOW
  else if String.eqb s "Medium" then Some MEDIUM
  else if String.eqb s "High" then Some HIGH
  else None.

(** [completed] of the declared type: a boolean, or a value for which
    [obj.completed || false] is false. *)
Definition completedOf (v : option any) : option (option bool) :=
  match v with
  | None | Some JNull | Some (JNumber 0) | Some (JString EmptyString) => Some None
  | Some (JBool b) => Some (Some b)
  | Some _ => None
  end.

(** [updatedAt] of the declared type: a string, or a value for which
    [if (obj.updatedAt)] fails. *)
Definition updatedOf (v : option any) : option (option string) :=
  match v with
  | None | Some JNull | Some (JBool false) | Some (JNumber 0) => Some None
  | Some (JString s) => Some (Some s)
  | Some _ => None
  end.

(** A value read as an object of the declared types, when it is one.
    [durationMinutes] is read by nobody. *)
Definition record (v : any) : option task :=
  match v with
  | JObject members =>
      match member "id" members, member "description" members,
            member "startTime" members, member "endTime" members,
            member "priority" members, member "createdAt" members with
      | Some (JString i), Some (JString d), Some (JString s), Some (JString e),
        Some (JString p), Some (JString c) =>
          match priorityOf p, completedOf (member "completed" members),
                updatedOf (member "updatedAt" members) with
          | Some p', Some done, Some u =>
              Some (mkTask i d s e p' done c u
                      (match member "durationMinutes" members with
                       | Some (JNumber n) => Int n
                       | _ => NaN
                       end))
          | _, _, _ => None
          end
      | _, _, _, _, _, _ => None
      end
  | _ => None
  end.

End JSON.

(** [Partial<Omit<Task, 'id' | 'createdAt'>>], by the properties
    [Task.update] reads. *)
Module Partial.
Record t : Type := mk {
  description : option string;
  startTime : option string;
  endTime : option string;
  priority : option TaskPriority;
  completed : option bool
}.
End Partial.

(** A property value of an event payload. [VTask] is the [Task] object itself
    as it is when the event is built, [VPlain] the result of [toJSON],
    [VStack e] the [stack] of the error [e]. *)
Inductive Value : Type :=
  | VString (s : string)
  | VNumber (n : nat)
  | VTask (t : Task)
  | VPlain (j : JSON.task)
  | VPartial (u : Partial.t)
  | VStack (e : Error).

(** A payload object: its properties in the order they are written. *)
Definition Payload : Type := list (string * Value).

Fixpoint property (key : string) (p : Payload) : option Value :=
  match p with
  | [] => None
  | (k, v) :: rest => if String.eqb k key then Some v else property key rest
  end.

(** interfaces/IObserver.ts: [IEventData]. *)
Module IEventData.
Record t : Type := mk {
  timestamp : Date;
  message : option string;
  data : option Payload;
  error : option Error;
  context : option Payload;
  isError : option bool
}.
End IEventData.

(** interfaces/IObserver.ts: [ScheduleEvent], a string enum. *)
Module ScheduleEvent.
Definition TASK_ADDED : string := "TASK_ADDED".
Definition TASK_REMOVED : string := "TASK_REMOVED".
Definition TASK_UPDATED : string := "TASK_UPDATED".
Definition TASK_COMPLETED : string := "TASK_COMPLETED".
Definition TASK_CONFLICT : string := "TASK_CONFLICT".
Definition TASK_ADD_FAILED : string := "TASK_ADD_FAILED".
Definition TASK_UPDATE_FAILED : string := "TASK_UPDATE_FAILED".
Definition TASK_VALIDATION_FAILED : string := "TASK_VALIDATION_FAILED".
Definition SCHEDULE_CLEARED : string := "SCHEDULE_CLEARED".
Definition SCHEDULE_IMPORTED : string := "SCHEDULE_IMPORTED".
Definition SCHEDULE_EXPORTED : string := "SCHEDULE_EXPORTED".
End ScheduleEvent.

(** One call of a listener's [update]: which listener, with what, and whether
    it returned or threw. *)
Record Delivery : Type := mkDelivery {
  receiver : nat;
  sent_event : string;
  sent_data : IEventData.t;
  outcome : Res unit
}.

(** interfaces/IObserver.ts: [IObserver]. A listener is an object: [identity]
    stands for its reference ([includes] and [indexOf] compare references).
    What a listener does may depend on everything delivered so far.
    [getName] and [isInterestedIn] are optional members. The record covers
    the listeners that answer a call by returning or by throwing an [Error]
    object, whose [getName] returns a string, and that do not call the
    manager from inside [update] or [isInterestedIn]; the calls of [attach]
    and [detach] a listener makes from inside [update] are added by a
    [Live.Behaviour]. A listener that throws a value with a [stack] that is
    not a string, or whose [getName] throws, makes the [catch] block of
    [notify] throw: such listeners are not in the model. *)
Module IObserver.
Record t : Type := mk {
  identity : nat;
  getName : option string;
  isInterestedIn : option (list Delivery -> string -> Res bool);
  update : list Delivery -> string -> IEventData.t -> Res unit
}.
End IObserver.

(** What the platform provides. [now n] is the time the [n]-th reading of the
    clock returns. *)
Record Host : Type := mkHost {
  now : nat -> Z;
  toISOString : Z -> string;
  parseDate : string -> Date;
  JSON_stringify : list JSON.task -> string;
  JSON_parse : string -> Res JSON.value
}.

(** A [Map<string, V>]: its entries in insertion order. *)
Module JSMap.
Section Ops.
Context {V : Type}.

Definition t : Type := list (string * V).

Fixpoint get (k : string) (m : t) : option V :=
  match m with
  | [] => None
  | (k', v) :: rest => if String.eqb k' k then Some v else get k rest
  end.

Definition has (k : string) (m : t) : bool :=
  match get k m with Some _ => true | None => false end.

(** [set]: an existing key keeps its place. *)
Fixpoint set (k : string) (v : V) (m : t) : t :=
  match m with
  | [] => [(k, v)]
  | (k', v') :: rest =>
      if String.eqb k' k then (k, v) :: rest else (k', v') :: set k v rest
  end.

Fixpoint remove (k : string) (m : t) : t :=
  match m with
  | [] => []
  | (k', v') :: rest =>
      if String.eqb k' k then rest else (k', v') :: remove k rest
  end.

(** [delete]: whether the key was there, and the map without it. *)
Definition delete (k : string) (m : t) : bool * t := (has k m, remove k m).

Definition values (m : t) : list V := map snd m.

Definition keys (m : t) : list string := map fst m.

Definition size (m : t) : nat := List.length m.
End Ops.
Arguments t V : clear implicits.
End JSMap.

(** A line of the log file: level and message (utils/Logger.ts; the [meta]
    and error arguments are left out). *)
Definition LogEntry : Type := (string * string)%type.

(** The manager and what surrounds it: the platform, the [tasks] map and the
    [observers] array of the [ScheduleManager] instance, the number of clock
    readings so far, and three traces: the events passed to [notify], the
    calls made to listeners, and the log. *)
Record World : Type := mkWorld {
  host : Host;
  tasks : JSMap.t Task;
  observers : list IObserver.t;
  ticks : nat;
  published : list (string * IEventData.t);
  delivered : list Delivery;
  logged : list LogEntry
}.

Definition with_tasks (m : JSMap.t Task) (w : World) : World :=
  mkWorld (host w) m (observers w) (ticks w) (published w) (delivered w) (logged w).
Definition with_observers (l : list IObserver.t) (w : World) : World :=
  mkWorld (host w) (tasks w) l (ticks w) (published w) (delivered w) (logged w).
Definition with_ticks (n : nat) (w : World) : World :=
  mkWorld (host w) (tasks w) (observers w) n (published w) (delivered w) (logged w).
Definition with_published (l : list (string * IEventData.t)) (w : World) : World :=
  mkWorld (host w) (tasks w) (observers w) (ticks w) l (delivered w) (logged w).
Definition with_delivered (l : list Delivery) (w : World) : World :=
  mkWorld (host w) (tasks w) (observers w) (ticks w) (published w) l (logged w).
Definition with_logged (l : list LogEntry) (w : World) : World :=
  mkWorld (host w) (tasks w) (observers w) (ticks w) (published w) (delivered w) l.

(** ** Methods: state passing with exceptions *)

Definition M (A : Type) : Type := World -> Res A * World.

Definition ret {A : Type} (a : A) : M A := fun w => (Ok a, w).

Definition throw {A : Type} (e : Error) : M A := fun w => (Throw e, w).

Definition bind {A B : Type} (m : M A) (k : A -> M B) : M B :=
  fun w =>
    match m w with
    | (Ok a, w') => k a w'
    | (Throw e, w') => (Throw e, w')
    end.

(** [try { m } catch (error) { handler error }] *)
Definition tryCatch {A : Type} (m : M A) (handler : Error -> M A) : M A :=
  fun w =>
    match m w with
    | (Ok a, w') => (Ok a, w')
    | (Throw e, w') => handler e w'
    end.

(** A call that does not touch the world. *)
Definition lift {A : Type} (r : Res A) : M A := fun w => (r, w).

Definition reads {A : Type} (f : World -> A) : M A := fun w => (Ok (f w), w).

Definition writes (f : World -> World) : M unit := fun w => (Ok tt, f w).

Declare Scope method_scope.
Delimit Scope method_scope with method.
Notation "x <- m ;; k" := (bind m (fun x => k))
  (at level 61, m at next level, right associativity) : method_scope.
Notation "m ;; k" := (bind m (fun _ => k))
  (at level 61, right associativity) : method_scope.
Local Open Scope method_scope.

(** [for (const x of xs) { body x }] *)
Fixpoint forEach {A : Type} (xs : list A) (body : A -> M unit) : M unit :=
  match xs with
  | [] => ret tt
  | x :: rest => body x ;; forEach rest body
  end.

(** [xs.map(f)] for an [f] that may throw. *)
Fixpoint mapM {A B : Type} (f : A -> M B) (xs : list A) : M (list B) :=
  match xs with
  | [] => ret []
  | x :: rest => y <- f x ;; ys <- mapM f rest ;; ret (y :: ys)
  end.

(** [new Date()] *)
Definition newDate : M Date :=
  fun w => (Ok (DateOf (now (host w) (ticks w))), with_ticks (S (ticks w)) w).

(** [Logger.info], [Logger.warn], [Logger.error], [Logger.debug]: a line in
    the log; a failure to write the file is caught inside the logger. The
    errors the manager logs are [Error] objects, whose [stack] is a string,
    and the [meta] objects it passes hold strings and numbers: with these
    [error.stack.split] and [JSON.stringify(meta)], which the logger runs
    outside its [try], do not throw. *)
Definition Logger (level message : string) : M unit :=
  writes (fun w => with_logged (logged w ++ [(level, message)]) w).

(** A call that reads the platform only. *)
Definition hosted {A : Type} (f : Host -> Res A) : M A := fun w => (f (host w), w).

(** ** models/Task.ts *)

Definition orElse {A : Type} (o : option A) (d : A) : A :=
  match o with Some a => a | None => d end.

(** [clone]: a new object with the same property values. *)
Definition clone (this : Task) : Task :=
  mkTask (id this) (description this) (startTime this) (endTime this)
         (priority this) (completed this) (createdAt this) (updatedAt this).

(** The assignments of [update], property by property. *)
Definition assign (updates : Partial.t) (this : Task) : Task :=
  mkTask (id this)
         (orElse (Partial.description updates) (description this))
         (orElse (Partial.startTime updates) (startTime this))
         (orElse (Partial.endTime updates) (endTime this))
         (orElse (Partial.priority updates) (priority this))
         (orElse (Partial.completed updates) (completed this))
         (createdAt this) (updatedAt this).

(** [this.updatedAt = d] *)
Definition stamp (d : Date) (this : Task) : Task :=
  mkTask (id this) (description this) (startTime this) (endTime this)
         (priority this) (completed this) (createdAt this) (Some d).

(** [update]: the object after the call. *)
Definition update (updates : Partial.t) (this : Task) : M Task :=
  d <- newDate ;; ret (stamp d (assign updates this)).

Definition setCompleted (b : bool) (this : Task) : Task :=
  mkTask (id this) (description this) (startTime this) (endTime this)
         (priority this) b (createdAt this) (updatedAt this).

Definition markCompleted (this : Task) : M Task :=
  d <- newDate ;; ret (stamp d (setCompleted true this)).

Definition markIncomplete (this : Task) : M Task :=
  d <- newDate ;; ret (stamp d (setCompleted false this)).

Definition num_add (a b : Num) : Num :=
  match a, b with Int x, Int y => Int (x + y) | _, _ => NaN end.
Definition num_sub (a b : Num) : Num :=
  match a, b with Int x, Int y => Int (x - y) | _, _ => NaN end.
Definition num_mul (a b : Num) : Num :=
  match a, b with Int x, Int y => Int (x * y) | _, _ => NaN end.

Definition getDurationInMinutes (this : Task) : Num :=
  let startParts := split ":" (startTime this) in
  let endParts := split ":" (endTime this) in
  let startMinutes :=
    num_add (num_mul (parseInt (ToString (nth_error startParts 0)) None) (Int 60))
            (parseInt (ToString (nth_error startParts 1)) None) in
  let endMinutes :=
    num_add (num_mul (parseInt (ToString (nth_error endParts 0)) None) (Int 60))
            (parseInt (ToString (nth_error endParts 1)) None) in
  num_sub endMinutes startMinutes.

(** [isActive(currentTime)]; [systemTime] is what
    [new Date().toTimeString().slice(0, 5)] gives when it is read. *)
Definition isActive (this : Task) (currentTime : option string) (systemTime : string) : bool :=
  let now :=
    match currentTime with
    | Some s => if String.eqb s EmptyString then systemTime else s
    | None => systemTime
    end in
  string_geb now (startTime this) && string_leb now (endTime this).

(** [timeRegex.test(time)] for [/^([0-1]?[0-9]|2[0-3]):[0-5][0-9]$/], the
    expression of [validate]. *)
Definition timeRegex_test (time : string) : bool :=
  match time with
  | String h (String c (String m1 (String m2 EmptyString))) =>
      TimeUtils.isDigit h && (code c =? 58)
      && TimeUtils.inRange 48 53 m1 && TimeUtils.isDigit m2
  | String h1 (String h2 (String c (String m1 (String m2 EmptyString)))) =>
      ((TimeUtils.inRange 48 49 h1 && TimeUtils.isDigit h2)
       || ((code h1 =? 50) && TimeUtils.inRange 48 51 h2))
      && (code c =? 58)
      && TimeUtils.inRange 48 53 m1 && TimeUtils.isDigit m2
  | _ => false
  end.

(** [validate]: the errors, in the order they are pushed. *)
Definition validate (this : Task) : list string :=
  (if String.eqb (description this) EmptyString
      || Nat.eqb (String.length (trim (description this))) 0
   then ["Task description cannot be empty"] else [])
  ++ (if negb (timeRegex_test (startTime this))
      then ["Invalid start time format: " +++ startTime this] else [])
  ++ (if negb (timeRegex_test (endTime this))
      then ["Invalid end time format: " +++ endTime this] else [])
  ++ (if string_geb (startTime this) (endTime this)
      then ["End time must be after start time"] else [])
  ++ (if negb (existsb (samePriority (priority this)) getAllPriorities)
      then ["Invalid priority: " +++ priorityValue (priority this)] else []).

(** [date.toISOString()] *)
Definition Date_toISOString (h : Host) (d : Date) : Res string :=
  match d with
  | DateOf ms => Ok (toISOString h ms)
  | InvalidDate => Throw (RangeError "Invalid time value")
  end.

(** [s || null] *)
Definition orNull (s : string) : option string :=
  if String.eqb s "" then None else Some s.

Definition toJSON (h : Host) (this : Task) : Res JSON.task :=
  (let? created := Date_toISOString h (createdAt this) in
   let? updated :=
     match updatedAt this with
     | Some d => let? s := Date_toISOString h d in Ok (orNull s)
     | None => Ok None
     end in
   Ok (JSON.mkTask (id this) (description this) (startTime this) (endTime this)
                   (priority this) (Some (completed this)) created updated
                   (getDurationInMinutes this)))%res.

Definition fromJSON (h : Host) (obj : JSON.task) : Task :=
  let task :=
    mkTask (JSON.id obj) (JSON.description obj) (JSON.startTime obj) (JSON.endTime obj)
           (JSON.priority obj) (orElse (JSON.completed obj) false)
           (parseDate h (JSON.createdAt obj)) None in
  match JSON.updatedAt obj with
  | Some s => if String.eqb s "" then task else stamp (parseDate h s) task
  | None => task
  end.

(** ** services/ValidationService.ts *)

Module ValidationService.
Local Open Scope res_scope.

Definition validateTask (task : Task) : Res unit :=
  if String.eqb (description task) "" || String.eqb (trim (description task)) ""
  then Throw (InvalidTaskDescriptionError "Task description cannot be empty.")
  else
    let? _ := TimeUtils.validateTimeFormat (startTime task) in
    let? _ := TimeUtils.validateTimeFormat (endTime task) in
    TimeUtils.validateTimeRange (startTime task) (endTime task).

Fixpoint checkTaskOverlap (newTask : Task) (existingTasks : list Task) : Res (option Task) :=
  match existingTasks with
  | [] => Ok None
  | existingTask :: rest =>
      if String.eqb (id existingTask) (id newTask)
      then checkTaskOverlap newTask rest
      else
        let? isOverlapping :=
          TimeUtils.doTimeRangesOverlap (startTime newTask) (endTime newTask)
                                        (startTime existingTask) (endTime existingTask) in
        if isOverlapping then Ok (Some existingTask)
        else checkTaskOverlap newTask rest
  end.

Definition validateDescription (description' : string) : Res unit :=
  if String.eqb description' EmptyString || String.eqb (trim description') EmptyString
  then Throw (InvalidTaskDescriptionError "Task description cannot be empty.")
  else Ok tt.
End ValidationService.

(** ** [Task.fromJSON] and [validateTask] on values of other types

    [importFromJSON] hands every item of the parsed array to
    [Task.fromJSON] and the task to [validateTask], whatever the item is:
    the types are not checked at run time. On an object of the declared
    types these are [fromJSON] and [ValidationService.validateTask] above.
    On another value they run as JavaScript has it: a property of [null]
    cannot be read, a property that an object does not have, and any
    property of a boolean, a number, a string or an array that is named
    like a property of a task, is [undefined]; [!v], [String(v)] and the
    call of a method a value does not have are those of the language. *)
Module Untyped.

(** Decimal text of an integer. *)
Fixpoint digitsOf (fuel : nat) (z : Z) (acc : string) : string :=
  match fuel with
  | O => acc
  | S fuel' =>
      let acc' := String (ascii_of_nat (48 + Z.to_nat (z mod 10))) acc in
      if z / 10 =? 0 then acc' else digitsOf fuel' (z / 10) acc'
  end.

Definition showInt (z : Z) : string :=
  if z <? 0 then "-" +++ digitsOf (S (Z.to_nat (Z.log2 (- z)))) (- z) ""
  else digitsOf (S (Z.to_nat (Z.log2 z))) z "".

(** [obj.key] of a value that is not [null]; [None] is [undefined]. *)
Definition property (key : string) (obj : JSON.any) : option JSON.any :=
  match obj with
  | JSON.JObject members => JSON.member key members
  | _ => None
  end.

(** [String(v)], as [RegExp.test] and a template literal apply it. An array
    is its elements joined by commas, [null] among them being empty. [None]
    when the model does not describe the value. *)
Fixpoint ToString (v : JSON.any) : option string :=
  match v with
  | JSON.JNull => Some "null"
  | JSON.JBool true => Some "true"
  | JSON.JBool false => Some "false"
  | JSON.JNumber n => Some (showInt n)
  | JSON.JString s => Some s
  | JSON.JArray items =>
      (fix join (l : list JSON.any) : option string :=
         match l with
         | [] => Some EmptyString
         | x :: rest =>
             match (match x with JSON.JNull => Some EmptyString | _ => ToString x end),
                   join rest with
             | Some t, Some ts =>
                 Some (match rest with [] => t | _ => t +++ "," +++ ts end)
             | _, _ => None
             end
         end) items
  | JSON.JObject _ => Some "[object Object]"
  | JSON.JOther => None
  end.

Definition text (v : option JSON.any) : option string :=
  match v with
  | None => Some "undefined"
  | Some v' => ToString v'
  end.

(** [if (!task.description || task.description.trim() === '') throw ...];
    [None] when the model does not describe the value. *)
Definition checkDescription (description' : option JSON.any) : option (Res unit) :=
  match description' with
  | None | Some JSON.JNull | Some (JSON.JBool false) | Some (JSON.JNumber 0) =>
      Some (Throw (InvalidTaskDescriptionError "Task description cannot be empty."))
  | Some (JSON.JString s) =>
      Some (if String.eqb s EmptyString || String.eqb (trim s) EmptyString
            then Throw (InvalidTaskDescriptionError "Task description cannot be empty.")
            else Ok tt)
  | Some (JSON.JBool true) | Some (JSON.JNumber _) | Some (JSON.JArray _)
  | Some (JSON.JObject _) =>
      Some (Throw (TypeError "task.description.trim is not a function"))
  | Some JSON.JOther => None
  end.

(** [TimeUtils.validateTimeFormat(time)]: the test and the message take the
    text of the value. *)
Definition validateTimeFormat (time : option JSON.any) : option (Res unit) :=
  match text time with
  | Some t => Some (TimeUtils.validateTimeFormat t)
  | None => None
  end.

(** [time.split(':')] of [timeToMinutes], on a value that is not a string. *)
Definition splitOf (time : option JSON.any) : Error :=
  match time with
  | None => TypeError "Cannot read properties of undefined (reading 'split')"
  | Some JSON.JNull => TypeError "Cannot read properties of null (reading 'split')"
  | Some _ => TypeError "time.split is not a function"
  end.

(** [TimeUtils.validateTimeRange(startTime, endTime)] *)
Definition validateTimeRange (startTime' endTime' : option JSON.any) : Res unit :=
  match startTime' with
  | Some (JSON.JString s) =>
      match endTime' with
      | Some (JSON.JString e) => TimeUtils.validateTimeRange s e
      | _ => (let? _ := TimeUtils.timeToMinutes s in Throw (splitOf endTime'))%res
      end
  | _ => Throw (splitOf startTime')
  end.

(** What [Task.fromJSON(taskData)] and then [validateTask(task)] throw on
    an item, if they throw. [None] when they return, and when the model
    does not describe a value they look at. *)
Definition refusal (taskData : JSON.any) : option Error :=
  match taskData with
  | JSON.JNull => Some (TypeError "Cannot read properties of null (reading 'id')")
  | _ =>
      let description' := property "description" taskData in
      let startTime' := property "startTime" taskData in
      let endTime' := property "endTime" taskData in
      match checkDescription description' with
      | Some (Throw error) => Some error
      | Some (Ok _) =>
          match validateTimeFormat startTime' with
          | Some (Throw error) => Some error
          | Some (Ok _) =>
              match validateTimeFormat endTime' with
              | Some (Throw error) => Some error
              | Some (Ok _) =>
                  match validateTimeRange startTime' endTime' with
                  | Throw error => Some error
                  | Ok _ => None
                  end
              | None => None
              end
          | None => None
          end
      | None => None
      end
  end.

(** The error the model throws where it has nothing to say: at an item that
    the code stores with an identifier, a priority, a flag or a date of
    another type than [Task] declares (it passes [validateTask], which
    looks at the description and the times only), and at a value it does
    not describe. A text with such an item is outside the statements about
    [importFromJSON]. *)
Definition undescribed : Error :=
  Err.mk "Undescribed" "an item outside the values of the model".
End Untyped.

(** ** interfaces/ISubject.ts: [EventDataFactory] *)

Module EventDataFactory.

Definition create (message : option string) (data : option Payload) (error : option Error)
  : M IEventData.t :=
  timestamp <- newDate ;;
  ret (IEventData.mk timestamp message data error None None).

(** [message || error.message] *)
Definition messageOr (message : option string) (error : Error) : string :=
  match message with
  | Some m => if String.eqb m "" then Err.message error else m
  | None => Err.message error
  end.

Definition createError (error : Error) (message : option string) : M IEventData.t :=
  timestamp <- newDate ;;
  ret (IEventData.mk timestamp (Some (messageOr message error))
         (Some [("errorName", VString (Err.name error)); ("errorStack", VStack error)])
         (Some error) None None).

Definition createSuccess (message : string) (data : option Payload) : M IEventData.t :=
  timestamp <- newDate ;;
  ret (IEventData.mk timestamp (Some message) data None None None).
End EventDataFactory.

(** ** [Array.prototype.sort] with a comparator *)

(** A stable sort that asks the comparator, and throws what the comparator
    throws: [x] goes in front of the first element it does not come after. *)
Section Sort.
Context {A : Type} (compareFn : A -> A -> Res Z).

Fixpoint insertSorted (x : A) (sorted : list A) : Res (list A) :=
  match sorted with
  | [] => Ok [x]
  | y :: rest =>
      (let? c := compareFn x y in
       if c <=? 0 then Ok (x :: y :: rest)
       else let? placed := insertSorted x rest in Ok (y :: placed))%res
  end.

Fixpoint Array_sort (xs : list A) : Res (list A) :=
  match xs with
  | [] => Ok []
  | x :: rest => (let? sorted := Array_sort rest in insertSorted x sorted)%res
  end.
End Sort.

(** ** services/TaskService.ts *)

Module TaskService.
Local Open Scope res_scope.

Definition getTaskDuration (task : Task) : Res Z :=
  let? startMinutes := TimeUtils.timeToMinutes (startTime task) in
  let? endMinutes := TimeUtils.timeToMinutes (endTime task) in
  Ok (endMinutes - startMinutes).

Definition getTasksByTimeRange (tasks : list Task) (start end' : string) : Res (list Task) :=
  let? startMins := TimeUtils.timeToMinutes start in
  let? endMins := TimeUtils.timeToMinutes end' in
  filterRes (fun task =>
    let? taskStartMins := TimeUtils.timeToMinutes (startTime task) in
    let? taskEndMins := TimeUtils.timeToMinutes (endTime task) in
    Ok ((taskStartMins >=? startMins) && (taskEndMins <=? endMins))) tasks.

(** [priorityOrder[priority] || 0] *)
Definition priorityOrder (priority' : TaskPriority) : Z :=
  match priority' with
  | HIGH => 3
  | MEDIUM => 2
  | LOW => 1
  end.

(** The comparator of [sortTasksByPriority]. *)
Definition byPriorityThenTime (a b : Task) : Res Z :=
  let priorityA := priorityOrder (priority a) in
  let priorityB := priorityOrder (priority b) in
  if negb (priorityB =? priorityA) then Ok (priorityB - priorityA)
  else TimeUtils.compareTimeStrings (startTime a) (startTime b).

Definition sortTasksByPriority (tasks : list Task) : Res (list Task) :=
  Array_sort byPriorityThenTime tasks.
End TaskService.

(** ** patterns/singleton/ScheduleManager.ts *)

Module ScheduleManager.

(** [new ScheduleManager()] on a platform. *)
Definition create (h : Host) : World :=
  mkWorld h [] [] 0%nat [] [] [("INFO", "ScheduleManager singleton instance created")].

Definition sameObserver (a b : IObserver.t) : bool :=
  Nat.eqb (IObserver.identity a) (IObserver.identity b).

(** [this.observers.splice(this.observers.indexOf(observer), 1)] *)
Fixpoint spliceFirst (observer : IObserver.t) (l : list IObserver.t) : list IObserver.t :=
  match l with
  | [] => []
  | o :: rest => if sameObserver o observer then rest else o :: spliceFirst observer rest
  end.

Definition attach (observer : IObserver.t) : M bool :=
  current <- reads observers ;;
  if existsb (sameObserver observer) current
  then Logger "WARN" "Observer already attached" ;; ret false
  else
    writes (fun w => with_observers (observers w ++ [observer]) w) ;;
    Logger "INFO" "Observer attached" ;;
    ret true.

Definition detach (observer : IObserver.t) : M bool :=
  current <- reads observers ;;
  if negb (existsb (sameObserver observer) current)
  then Logger "WARN" "Observer not found for detachment" ;; ret false
  else
    writes (fun w => with_observers (spliceFirst observer (observers w)) w) ;;
    Logger "INFO" "Observer detached" ;;
    ret true.

(** [observer.isInterestedIn && !observer.isInterestedIn(event)] *)
Definition declines (observer : IObserver.t) (event : string) : M bool :=
  match IObserver.isInterestedIn observer with
  | None => ret false
  | Some interested =>
      fun w => (res_bind (interested (delivered w) event) (fun b => Ok (negb b)), w)
  end.

(** [observer.update(event, data)]: the call is recorded, with its outcome. *)
Definition callUpdate (observer : IObserver.t) (event : string) (data : IEventData.t)
  : M unit :=
  fun w =>
    let r := IObserver.update observer (delivered w) event data in
    (r, with_delivered
          (delivered w ++ [mkDelivery (IObserver.identity observer) event data r]) w).

(** The body of the loop of [notify], with its [try] and [catch]. *)
Definition notifyOne (event : string) (data : IEventData.t) (observer : IObserver.t)
  : M unit :=
  tryCatch
    (skip <- declines observer event ;;
     if skip then ret tt else callUpdate observer event data)
    (fun error => Logger "ERROR" "Observer notification failed").

(** [notify], with listeners that leave the array of listeners alone: the
    loop over the array the manager holds then visits the listeners the
    array has at the start, each once ([Live.notify] is the loop for
    listeners that attach and detach meanwhile; [Live_notify_still]). *)
Definition notify (event : string) (data : IEventData.t) : M unit :=
  writes (fun w => with_published (published w ++ [(event, data)]) w) ;;
  current <- reads observers ;;
  Logger "DEBUG" ("Notifying " +++ showNat (List.length current)
                  +++ " observers of event: " +++ event) ;;
  forEach current (notifyOne event data).

Definition getObserverCount : M nat := reads (fun w => List.length (observers w)).

Definition detachAll : M unit :=
  writes (with_observers []) ;; Logger "INFO" "All observers detached".

Definition logTaskOperation (operation taskDescription : string) : M unit :=
  Logger "INFO" (operation +++ " operation successful for task: "
                 +++ quoted taskDescription +++ ".").

Definition getTaskByDescription (description' : string) : M (option Task) :=
  reads (fun w =>
    find (fun task => String.eqb (toLowerCase (description task)) (toLowerCase description'))
         (JSMap.values (tasks w))).

Definition checkForConflict (task : Task) : M (option Task) :=
  existingTasks <- reads (fun w => JSMap.values (tasks w)) ;;
  lift (ValidationService.checkTaskOverlap task existingTasks).

Definition addTask (task : Task) : M unit :=
  tryCatch
    (lift (ValidationService.validateTask task) ;;
     conflict <- checkForConflict task ;;
     match conflict with
     | Some conflictingTask =>
         eventData <- EventDataFactory.create
           (Some ("Task " +++ quoted (description task) +++ " conflicts with "
                  +++ quoted (description conflictingTask)))
           (Some [("newTask", VTask task); ("existingTask", VTask conflictingTask)])
           None ;;
         notify ScheduleEvent.TASK_CONFLICT eventData ;;
         throw (TaskConflictError
                  ("Task conflicts with existing task " +++ quoted (description conflictingTask)
                   +++ " (" +++ startTime conflictingTask +++ "-"
                   +++ endTime conflictingTask +++ ")"))
     | None =>
         writes (fun w => with_tasks (JSMap.set (id task) task (tasks w)) w) ;;
         plain <- hosted (fun h => toJSON h task) ;;
         eventData <- EventDataFactory.createSuccess
           ("Task " +++ quoted (description task) +++ " added successfully")
           (Some [("task", VPlain plain)]) ;;
         notify ScheduleEvent.TASK_ADDED eventData ;;
         logTaskOperation "ADD" (description task)
     end)
    (fun error =>
       eventData <- EventDataFactory.createError error
         (Some ("Failed to add task " +++ quoted (description task))) ;;
       notify ScheduleEvent.TASK_ADD_FAILED eventData ;;
       throw error).

Definition removeTask (description' : string) : M bool :=
  found <- getTaskByDescription description' ;;
  match found with
  | None => Logger "WARN" "Task not found for removal" ;; ret false
  | Some task =>
      deleted <- (fun w => let '(d, m) := JSMap.delete (id task) (tasks w) in
                           (Ok d, with_tasks m w)) ;;
      (if deleted : bool
       then
         plain <- hosted (fun h => toJSON h task) ;;
         eventData <- EventDataFactory.createSuccess
           ("Task " +++ quoted description' +++ " removed successfully")
           (Some [("taskId", VString (id task)); ("task", VPlain plain)]) ;;
         notify ScheduleEvent.TASK_REMOVED eventData ;;
         logTaskOperation "REMOVE" description'
       else ret tt) ;;
      ret deleted
  end.

Definition byStartTime (a b : Task) : Res Z :=
  TimeUtils.compareTimeStrings (startTime a) (startTime b).

Definition getAllTasks : M (list Task) :=
  tasksArray <- reads (fun w => JSMap.values (tasks w)) ;;
  lift (Array_sort byStartTime tasksArray).

(** The stored [Task] object under key [k], after a method changed it. *)
Fixpoint store (k : string) (changed : Task) (m : JSMap.t Task) : JSMap.t Task :=
  match m with
  | [] => []
  | (k', v) :: rest =>
      if String.eqb k' k then (k', changed) :: rest else (k', v) :: store k changed rest
  end.

(** The first stored [Task] object with the description, after a method
    changed it: the object [getTaskByDescription] returns. *)
Fixpoint storeFound (description' : string) (changed : Task) (m : JSMap.t Task)
  : JSMap.t Task :=
  match m with
  | [] => []
  | (k', v) :: rest =>
      if String.eqb (toLowerCase (description v)) (toLowerCase description')
      then (k', changed) :: rest
      else (k', v) :: storeFound description' changed rest
  end.

Definition updateTask (taskId : string) (updatedTask : Partial.t) : M unit :=
  found <- reads (fun w => JSMap.get taskId (tasks w)) ;;
  match found with
  | None => throw (TaskNotFoundError ("Task with ID " +++ quoted taskId +++ " not found"))
  | Some task =>
      tempTask <- update updatedTask (clone task) ;;
      lift (ValidationService.validateTask tempTask) ;;
      otherTasks <- reads (fun w =>
        filter (fun t => negb (String.eqb (id t) taskId)) (JSMap.values (tasks w))) ;;
      conflict <- lift (ValidationService.checkTaskOverlap tempTask otherTasks) ;;
      match conflict with
      | Some conflictingTask =>
          plain <- hosted (fun h => toJSON h conflictingTask) ;;
          eventData <- EventDataFactory.create
            (Some ("Task update would conflict with " +++ quoted (description conflictingTask)))
            (Some [("taskId", VString taskId); ("updatedTask", VPartial updatedTask);
                   ("conflictingTask", VPlain plain)])
            None ;;
          notify ScheduleEvent.TASK_UPDATE_FAILED eventData ;;
          throw (TaskConflictError
                   ("Update would conflict with task " +++ quoted (description conflictingTask)))
      | None =>
          changed <- update updatedTask task ;;
          writes (fun w => with_tasks (store taskId changed (tasks w)) w) ;;
          plain <- hosted (fun h => toJSON h changed) ;;
          eventData <- EventDataFactory.createSuccess
            ("Task " +++ quoted (description changed) +++ " updated successfully")
            (Some [("taskId", VString taskId); ("task", VPlain plain);
                   ("updates", VPartial updatedTask)]) ;;
          notify ScheduleEvent.TASK_UPDATED eventData ;;
          logTaskOperation "UPDATE" (description changed)
      end
  end.

Definition markTaskCompleted (description' : string) : M unit :=
  found <- getTaskByDescription description' ;;
  match found with
  | None => throw (TaskNotFoundError ("Task " +++ quoted description' +++ " not found"))
  | Some task =>
      changed <- markCompleted task ;;
      writes (fun w => with_tasks (storeFound description' changed (tasks w)) w) ;;
      plain <- hosted (fun h => toJSON h changed) ;;
      eventData <- EventDataFactory.createSuccess
        ("Task " +++ quoted description' +++ " marked as completed")
        (Some [("task", VPlain plain)]) ;;
      notify ScheduleEvent.TASK_COMPLETED eventData ;;
      logTaskOperation "COMPLETE" description'
  end.

Definition clearAllTasks : M unit :=
  taskCount <- reads (fun w => JSMap.size (tasks w)) ;;
  writes (with_tasks []) ;;
  eventData <- EventDataFactory.createSuccess
    ("Schedule cleared. " +++ showNat taskCount +++ " tasks removed.")
    (Some [("removedCount", VNumber taskCount)]) ;;
  notify ScheduleEvent.SCHEDULE_CLEARED eventData ;;
  Logger "INFO" "All tasks cleared".

Definition getTasksByPriority (priority' : TaskPriority) : M (list Task) :=
  tasksArray <- reads (fun w => JSMap.values (tasks w)) ;;
  lift (Array_sort byStartTime
          (filter (fun task => samePriority (priority task) priority') tasksArray)).

Definition getTasksByTimeRange (startTime' endTime' : string) : M (list Task) :=
  lift (TimeUtils.validateTimeRange startTime' endTime') ;;
  tasksArray <- reads (fun w => JSMap.values (tasks w)) ;;
  inRange <- lift (filterRes (fun task =>
               TimeUtils.doTimeRangesOverlap (startTime task) (endTime task)
                                             startTime' endTime') tasksArray) ;;
  lift (Array_sort byStartTime inRange).

Definition getCompletedTasks : M (list Task) :=
  tasksArray <- reads (fun w => JSMap.values (tasks w)) ;;
  lift (Array_sort byStartTime (filter (fun task => completed task) tasksArray)).

Definition getPendingTasks : M (list Task) :=
  tasksArray <- reads (fun w => JSMap.values (tasks w)) ;;
  lift (Array_sort byStartTime (filter (fun task => negb (completed task)) tasksArray)).

Definition getTaskCount : M nat := reads (fun w => JSMap.size (tasks w)).

Definition exportToJSON : M string :=
  sorted <- getAllTasks ;;
  tasksArray <- mapM (fun task => hosted (fun h => toJSON h task)) sorted ;;
  hosted (fun h => Ok (JSON_stringify h tasksArray)).

(** The body of the loop of [importFromJSON], on an item of any shape:
    [Task.fromJSON(taskData)], [validateTask(task)] and
    [this.tasks.set(task.id, task)]. An object of the declared types goes
    the way it goes in the loop over such objects. On another value the two
    calls throw what [Untyped.refusal] says; where they return, the code
    stores a task whose properties are not of the declared types: the model
    has no [Task] for it and stops there, with [Untyped.undescribed]. *)
Definition importItem (taskData : JSON.any) : M unit :=
  match JSON.record taskData with
  | Some obj =>
      task <- hosted (fun h => Ok (fromJSON h obj)) ;;
      lift (ValidationService.validateTask task) ;;
      writes (fun w => with_tasks (JSMap.set (id task) task (tasks w)) w)
  | None =>
      match Untyped.refusal taskData with
      | Some error => throw error
      | None => throw Untyped.undescribed
      end
  end.

Definition importFromJSON (jsonString : string) : M unit :=
  tryCatch
    (tasksData <- hosted (fun h => JSON_parse h jsonString) ;;
     match tasksData with
     | JSON.NotArray => throw (PlainError "JSON must contain an array of tasks")
     | JSON.Array items =>
         writes (with_tasks []) ;;
         forEach items (fun taskData =>
           task <- hosted (fun h => Ok (fromJSON h taskData)) ;;
           lift (ValidationService.validateTask task) ;;
           writes (fun w => with_tasks (JSMap.set (id task) task (tasks w)) w)) ;;
         eventData <- EventDataFactory.createSuccess
           ("Imported " +++ showNat (List.length items) +++ " tasks successfully")
           (Some [("importedCount", VNumber (List.length items))]) ;;
         notify ScheduleEvent.SCHEDULE_IMPORTED eventData ;;
         Logger "INFO" "Tasks imported from JSON"
     | JSON.Loose items =>
         writes (with_tasks []) ;;
         forEach items importItem ;;
         eventData <- EventDataFactory.createSuccess
           ("Imported " +++ showNat (List.length items) +++ " tasks successfully")
           (Some [("importedCount", VNumber (List.length items))]) ;;
         notify ScheduleEvent.SCHEDULE_IMPORTED eventData ;;
         Logger "INFO" "Tasks imported from JSON"
     end)
    (fun error =>
       Logger "ERROR" "Failed to import tasks from JSON" ;;
       throw error).
End ScheduleManager.

(** ** Listeners that attach and detach during a dispatch

    [notify] runs [for (const observer of this.observers)] on the array the
    manager holds, and [attach] and [detach] change that same array, with
    [push] and [splice]. The iterator of an array keeps the index of the
    next element and compares it with the length the array has at that
    moment: an element that moves in front of the index is not visited, one
    that is pushed behind it is. A listener of [IObserver.t] leaves the
    array alone, and for such listeners [ScheduleManager.notify] reads the
    array once. In this module the [update] of a listener first calls
    [attach] and [detach] of the manager, as its [Behaviour] says, and then
    returns or throws as [IObserver.update] says. *)
Module Live.

Inductive Call : Type :=
  | Attach (observer : IObserver.t)
  | Detach (observer : IObserver.t).

(** What the [update] of a listener calls on the manager, by the event. *)
Definition Behaviour : Type := IObserver.t -> string -> list Call.

Definition call (c : Call) : M unit :=
  match c with
  | Attach observer => ScheduleManager.attach observer ;; ret tt
  | Detach observer => ScheduleManager.detach observer ;; ret tt
  end.

(** [observer.update(event, data)] *)
Definition callUpdate (calls : Behaviour) (observer : IObserver.t) (event : string)
  (data : IEventData.t) : M unit :=
  forEach (calls observer event) call ;;
  ScheduleManager.callUpdate observer event data.

(** The body of the loop of [notify], with its [try] and [catch]. *)
Definition notifyOne (calls : Behaviour) (event : string) (data : IEventData.t)
  (observer : IObserver.t) : M unit :=
  tryCatch
    (skip <- ScheduleManager.declines observer event ;;
     if skip then ret tt else callUpdate calls observer event data)
    (fun error => Logger "ERROR" "Observer notification failed").

(** The loop of [notify], from the index the iterator holds. A listener
    that attaches another at each call keeps the loop running for ever;
    [steps] bounds the number of turns, and the result tells whether the
    iterator came to the end of the array within them. *)
Fixpoint loop (steps : nat) (calls : Behaviour) (event : string) (data : IEventData.t)
  (index : nat) : M bool :=
  current <- reads observers ;;
  match nth_error current index with
  | None => ret true
  | Some observer =>
      match steps with
      | O => ret false
      | S steps' =>
          notifyOne calls event data observer ;;
          loop steps' calls event data (S index)
      end
  end.

Definition notify (steps : nat) (calls : Behaviour) (event : string) (data : IEventData.t)
  : M bool :=
  writes (fun w => with_published (published w ++ [(event, data)]) w) ;;
  current <- reads observers ;;
  Logger "DEBUG" ("Notifying " +++ showNat (List.length current)
                  +++ " observers of event: " +++ event) ;;
  loop steps calls event data 0.

(** The listeners that leave the array alone. *)
Definition still : Behaviour := fun _ _ => [].
End Live.

(** ** patterns/factory/TaskFactory.ts *)

Module TaskFactory.

Definition validateInputs (description' startTime' endTime' : string) : Res unit :=
  (let? _ := rethrowAs InvalidTaskDescriptionError
               (ValidationService.validateDescription description') in
   let? _ := rethrowAs InvalidTimeFormatError
               (let? _ := TimeUtils.validateTimeFormat startTime' in
                TimeUtils.validateTimeFormat endTime') in
   rethrowAs InvalidTimeRangeError (TimeUtils.validateTimeRange startTime' endTime'))%res.

(** [parsePriority]; the argument is the string it is at run time. *)
Definition parsePriority (priority' : string) : M TaskPriority :=
  match find (fun p => String.eqb (priorityValue p) priority') getAllPriorities with
  | Some p => ret p
  | None =>
      tryCatch (lift (parseTaskPriority priority'))
               (fun error => Logger "ERROR" "Invalid priority value" ;; throw error)
  end.

Definition createTaskWithId (id' description' startTime' endTime' priority' : string)
  : M Task :=
  lift (validateInputs description' startTime' endTime') ;;
  taskPriority <- parsePriority priority' ;;
  formattedStart <- lift (TimeUtils.formatTime startTime') ;;
  formattedEnd <- lift (TimeUtils.formatTime endTime') ;;
  created <- newDate ;;
  let task := mkTask id' (trim description') formattedStart formattedEnd taskPriority
                     false created None in
  let validationErrors := validate task in
  if (0 <? List.length validationErrors)%nat
  then throw (PlainError ("Task validation failed: " +++ join ", " validationErrors))
  else Logger "INFO" "Task created with specific ID" ;; ret task.
End TaskFactory.

(** ** The public operations on the schedule *)

(** A call of one of the operations that change the schedule. *)
Inductive Operation : Type :=
  | AddTask (task : Task)
  | RemoveTask (description' : string)
  | UpdateTask (taskId : string) (updatedTask : Partial.t)
  | MarkTaskCompleted (description' : string)
  | ClearAllTasks
  | ImportFromJSON (jsonString : string).

(** The call; what it returns is [Some b] for [removeTask], [None] for the
    operations that return nothing. *)
Definition perform (op : Operation) : M (option bool) :=
  match op with
  | AddTask task => ScheduleManager.addTask task ;; ret None
  | RemoveTask description' => b <- ScheduleManager.removeTask description' ;; ret (Some b)
  | UpdateTask taskId updatedTask => ScheduleManager.updateTask taskId updatedTask ;; ret None
  | MarkTaskCompleted description' => ScheduleManager.markTaskCompleted description' ;; ret None
  | ClearAllTasks => ScheduleManager.clearAllTasks ;; ret None
  | ImportFromJSON jsonString => ScheduleManager.importFromJSON jsonString ;; ret None
  end.

(** The world after a call, returned or thrown. *)
Definition after {A : Type} (m : M A) (w : World) : World := snd (m w).

(** The states of a manager created on a platform and driven through its
    public methods. [allowed] says which operations on the schedule are
    used. *)
Inductive reachable (allowed : Operation -> Prop) (h : Host) : World -> Prop :=
  | reachable_create : reachable allowed h (ScheduleManager.create h)
  | reachable_perform (op : Operation) (w : World) :
      allowed op -> reachable allowed h w -> reachable allowed h (after (perform op) w)
  | reachable_notify (event : string) (data : IEventData.t) (w : World) :
      reachable allowed h w -> reachable allowed h (after (ScheduleManager.notify event data) w)
  | reachable_attach (observer : IObserver.t) (w : World) :
      reachable allowed h w -> reachable allowed h (after (ScheduleManager.attach observer) w)
  | reachable_detach (observer : IObserver.t) (w : World) :
      reachable allowed h w -> reachable allowed h (after (ScheduleManager.detach observer) w).

(** Whether a listener handles an event: it has no [isInterestedIn], or its
    [isInterestedIn] returns true. *)
Definition invites (o : IObserver.t) (history : list Delivery) (event : string) : bool :=
  match IObserver.isInterestedIn o with
  | None => true
  | Some interested =>
      match interested history event with
      | Ok true => true
      | _ => false
      end
  end.

(** The call of [update] a listener gets for an event, if it handles it. *)
Definition handed (o : IObserver.t) (history : list Delivery) (event : string)
  (data : IEventData.t) : list Delivery :=
  if invites o history event
  then [mkDelivery (IObserver.identity o) event data (IObserver.update o history event data)]
  else [].

(** The calls of [update] a list of listeners gets, in order. *)
Fixpoint dispatched (l : list IObserver.t) (history : list Delivery) (event : string)
  (data : IEventData.t) : list Delivery :=
  match l with
  | [] => []
  | o :: rest =>
      handed o history event data
      ++ dispatched rest (history ++ handed o history event data) event data
  end.

(** The payload [EventDataFactory.createError] gives an event for an error:
    the error itself, and its name and stack. *)
Definition reports (e : Error) (d : IEventData.t) : Prop :=
  IEventData.data d = Some [("errorName", VString (Err.name e)); ("errorStack", VStack e)] /\
  IEventData.error d = Some e /\
  IEventData.context d = None.

(** What the loop of [importFromJSON] stores, record by record, and how it
    ends. *)
Fixpoint imported (h : Host) (items : list JSON.task) (m : JSMap.t Task)
  : Res unit * JSMap.t Task :=
  match items with
  | [] => (Ok tt, m)
  | taskData :: rest =>
      match ValidationService.validateTask (fromJSON h taskData) with
      | Ok _ => imported h rest (JSMap.set (id (fromJSON h taskData)) (fromJSON h taskData) m)
      | Throw e => (Throw e, m)
      end
  end.



(** What the loop of [importFromJSON] stores from items of any shape, and
    how it ends. *)
Fixpoint importedLoose (h : Host) (items : list JSON.any) (m : JSMap.t Task)
  : Res unit * JSMap.t Task :=
  match items with
  | [] => (Ok tt, m)
  | taskData :: rest =>
      match JSON.record taskData with
      | Some obj =>
          match ValidationService.validateTask (fromJSON h obj) with
          | Ok _ => importedLoose h rest (JSMap.set (id (fromJSON h obj)) (fromJSON h obj) m)
          | Throw e => (Throw e, m)
          end
      | None =>
          match Untyped.refusal taskData with
          | Some e => (Throw e, m)
          | None => (Throw Untyped.undescribed, m)
          end
      end
  end.

(** ** The invariants of the schedule *)

(** The overlap test on the times of two tasks. *)
Definition overlapOf (a b : Task) : Res bool :=
  TimeUtils.doTimeRangesOverlap (startTime a) (endTime a) (startTime b) (endTime b).

(** The map holds each task under its own identifier, once. *)
Definition keyed (m : JSMap.t Task) : Prop :=
  NoDup (JSMap.keys m) /\ forall k t, In (k, t) m -> id t = k.

(** Every stored task passes [validateTask]. *)
Definition allValid (m : JSMap.t Task) : Prop :=
  forall t, In t (JSMap.values m) -> ValidationService.validateTask t = Ok tt.

(** No two distinct stored tasks overlap. *)
Definition nonOverlapping (m : JSMap.t Task) : Prop :=
  forall a b, In a (JSMap.values m) -> In b (JSMap.values m) -> id a <> id b ->
              overlapOf a b = Ok false.

(** The operations other than [importFromJSON]. *)
Definition notImport (op : Operation) : Prop :=
  match op with
  | ImportFromJSON _ => False
  | _ => True
  end.

(** Any operation. *)
Definition anyOperation (op : Operation) : Prop := True.

(** The timestamps of a task are valid dates. *)
Definition dated (t : Task) : Prop :=
  createdAt t <> InvalidDate /\ updatedAt t <> Some InvalidDate.

(** [xs.map(f)] for an [f] that may throw and touches nothing. *)
Fixpoint mapRes {A B : Type} (f : A -> Res B) (xs : list A) : Res (list B) :=
  match xs with
  | [] => Ok []
  | x :: rest =>
      (let? y := f x in let? ys := mapRes f rest in Ok (y :: ys))%res
  end.

(** The array [exportToJSON] hands to [JSON.stringify]. *)
Definition exported (w : World) : Res (list JSON.task) :=
  (let? sorted := Array_sort ScheduleManager.byStartTime (JSMap.values (tasks w)) in
   mapRes (toJSON (host w)) sorted)%res.

(** What the round trip through JSON is to keep of a task. *)
Definition core (t : Task) : string * string * string * string * TaskPriority * bool :=
  (id t, description t, startTime t, endTime t, priority t, completed t).

(** [data.context?.key], as the listeners of the repository read an event
    (patterns/observer/ConflictNotifier.ts, TaskLogger.ts). *)
Definition contextProperty (key : string) (d : IEventData.t) : option Value :=
  match IEventData.context d with
  | Some p => property key p
  | None => None
  end.

(** [data.data?.key]: the payload the factory fills. *)
Definition dataProperty (key : string) (d : IEventData.t) : option Value :=
  match IEventData.data d with
  | Some p => property key p
  | None => None
  end.

(** The name of the error a call threw, if it threw. *)
Definition thrown {A : Type} (r : Res A) : option string :=
  match r with
  | Throw e => Some (Err.name e)
  | Ok _ => None
  end.

(** The events passed to [notify] during a call: those of [w'] after those
    of [w]. *)
Definition publishedSince (w w' : World) : list (string * IEventData.t) :=
  skipn (List.length (published w)) (published w').

(** ** Notions used in the proofs *)

(** The digits. *)
Definition digitChars : list ascii :=
  ["0"; "1"; "2"; "3"; "4"; "5"; "6"; "7"; "8"; "9"]%char.

(** Two worlds with the same platform, schedule and clock. *)
Definition agree (w1 w2 : World) : Prop :=
  host w1 = host w2 /\ tasks w1 = tasks w2 /\ ticks w1 = ticks w2.

(** A method whose outcome and whose effect on the schedule and the clock are
    the same in worlds that agree. *)
Definition blind {A : Type} (m : M A) : Prop :=
  forall w1 w2, agree w1 w2 ->
    fst (m w1) = fst (m w2) /\ agree (after m w1) (after m w2).

(** The tasks [updateTask] compares the trial copy with. *)
Definition othersThan (taskId : string) (w : World) : list Task :=
  filter (fun t => negb (String.eqb (id t) taskId)) (JSMap.values (tasks w)).

(** The task a description finds. *)
Definition foundBy (description' : string) (w : World) : option Task :=
  find (fun task => String.eqb (toLowerCase (description task)) (toLowerCase description'))
       (JSMap.values (tasks w)).

(** Two tasks with the same identifier, description and times. *)
Definition sameSlot (a b : Task) : Prop :=
  id a = id b /\ description a = description b /\
  startTime a = startTime b /\ endTime a = endTime b.

(** The same keys in the same order, holding tasks of the same slots. *)
Definition sameSlots (m m' : JSMap.t Task) : Prop :=
  Forall2 (fun x y => fst x = fst y /\ sameSlot (snd x) (snd y)) m m'.

(** The schedule made of records stored one after the other. *)
Definition storedFrom (h : Host) (items : list JSON.task) (m : JSMap.t Task) : JSMap.t Task :=
  fold_left (fun m j => JSMap.set (JSON.id j) (fromJSON h j) m) items m.

(** The character of a decimal digit. *)
Definition digitChar (k : Z) : ascii := ascii_of_nat (Z.to_nat (48 + k)).

(** A number below 100 in two digits. *)
Definition twoDigits (n : Z) : string :=
  String (digitChar (n / 10)) (String (digitChar (n mod 10)) EmptyString).

(** The text HH:MM of an hour and a minute. *)
Definition timeText (h m : Z) : string := twoDigits h +++ ":" +++ twoDigits m.

(** A string of white space only. *)
Definition blank (s : string) : bool := forallb isWhiteSpace (list_ascii_of_string s).

(** The minute of the day a time string stands for, 0 when it stands for
    none. *)
Definition minutesOf (time : string) : Z :=
  match TimeUtils.timeToMinutes time with
  | Ok m => m
  | Throw _ => 0
  end.

(** Insertion by a rank: [x] goes in front of the first element whose rank
    is not below its own. *)
Fixpoint insertByRank {A : Type} (rank : A -> Z) (x : A) (sorted : list A) : list A :=
  match sorted with
  | [] => [x]
  | y :: rest =>
      if rank x <=? rank y then x :: y :: rest else y :: insertByRank rank x rest
  end.

(** The stable sort by a rank. *)
Fixpoint sortByRank {A : Type} (rank : A -> Z) (xs : list A) : list A :=
  match xs with
  | [] => []
  | x :: rest => insertByRank rank x (sortByRank rank rest)
  end.

(** The minute a task starts and the minute it ends. *)
Definition startMinute (t : Task) : Z := minutesOf (startTime t).
Definition endMinute (t : Task) : Z := minutesOf (endTime t).

(** The rank of [sortTasksByPriority]: the higher priority first, then the
    earlier start. *)
Definition priorityRank (t : Task) : Z :=
  (3 - TaskService.priorityOrder (priority t)) * 1440 + startMinute t.

(** A date that the platform writes as a text that is not empty and reads
    back from that text. *)
Definition survives (h : Host) (d : Date) : Prop :=
  match d with
  | DateOf ms => toISOString h ms <> EmptyString /\ parseDate h (toISOString h ms) = DateOf ms
  | InvalidDate => False
  end.

(** The calls of [update] a method made: the deliveries since a state. *)
Definition deliveredSince {A : Type} (m : M A) (w : World) : list Delivery :=
  skipn (List.length (delivered w)) (delivered (after m w)).

(** A behaviour in which no [update] attaches a listener of identity [n]. *)
Definition neverAttaches (n : nat) (calls : Live.Behaviour) : Prop :=
  forall (observer attached : IObserver.t) (event : string),
    In (Live.Attach attached) (calls observer event) -> IObserver.identity attached <> n.

(** A method that keeps a listener of identity [n] out of the array and
    calls none of that identity, when none is in the array. *)
Definition excludes (n : nat) {A : Type} (m : M A) : Prop :=
  forall w,
    ~ In n (map IObserver.identity (observers w)) ->
    ~ In n (map IObserver.identity (observers (after m w))) /\
    exists sent, delivered (after m w) = delivered w ++ sent /\
                 Forall (fun d => receiver d <> n) sent.

(** A method that leaves the array of listeners as it is and calls none of
    identity [n], when none of that identity is in the array. *)
Definition avoids (n : nat) {A : Type} (m : M A) : Prop :=
  forall w,
    ~ In n (map IObserver.identity (observers w)) ->
    observers (after m w) = observers w /\
    exists sent, delivered (after m w) = delivered w ++ sent /\
                 Forall (fun d => receiver d <> n) sent.


(** ** A platform and a few schedules to run the manager on *)

Module Demo.

(** JSON text of a string: quotes and backslashes escaped. *)
Fixpoint escape (s : string) : string :=
  match s with
  | EmptyString => EmptyString
  | String c rest =>
      if Ascii.eqb c (ascii_of_nat 34) || Ascii.eqb c (ascii_of_nat 92)
      then String (ascii_of_nat 92) (String c (escape rest))
      else String c (escape rest)
  end.

Definition jsonString (s : string) : string := dq +++ escape s +++ dq.

(** Decimal text of an integer. *)
Fixpoint zDigits (fuel : nat) (z : Z) (acc : string) : string :=
  match fuel with
  | O => acc
  | S fuel' =>
      let acc' := String (ascii_of_nat (48 + Z.to_nat (z mod 10))) acc in
      if z / 10 =? 0 then acc' else zDigits fuel' (z / 10) acc'
  end.

Definition showZ (z : Z) : string :=
  if z <? 0 then "-" +++ zDigits (S (Z.to_nat (Z.log2 (- z)))) (- z) ""
  else zDigits (S (Z.to_nat (Z.log2 z))) z "".

Definition jsonNum (n : Num) : string :=
  match n with
  | Int z => showZ z
  | NaN => "null"
  end.

Definition priorityText (p : TaskPriority) : string :=
  match p with LOW => "Low" | MEDIUM => "Medium" | HIGH => "High" end.

Definition member (key value : string) : string := dq +++ key +++ dq +++ ":" +++ value.

Definition jsonTask (j : JSON.task) : string :=
  "{" +++ member "id" (jsonString (JSON.id j))
  +++ "," +++ member "description" (jsonString (JSON.description j))
  +++ "," +++ member "startTime" (jsonString (JSON.startTime j))
  +++ "," +++ member "endTime" (jsonString (JSON.endTime j))
  +++ "," +++ member "priority" (jsonString (priorityText (JSON.priority j)))
  +++ match JSON.completed j with
      | Some b => "," +++ member "completed" (if b then "true" else "false")
      | None => ""
      end
  +++ "," +++ member "createdAt" (jsonString (JSON.createdAt j))
  +++ "," +++ member "updatedAt"
                (match JSON.updatedAt j with Some s => jsonString s | None => "null" end)
  +++ "," +++ member "durationMinutes" (jsonNum (JSON.durationMinutes j))
  +++ "}".

Fixpoint jsonItems (items : list JSON.task) : string :=
  match items with
  | [] => ""
  | [j] => jsonTask j
  | j :: rest => jsonTask j +++ "," +++ jsonItems rest
  end.

(** The text of an array of task objects. *)
Definition stringify (items : list JSON.task) : string := "[" +++ jsonItems items +++ "]".

Fixpoint skipSpace (s : string) : string :=
  match s with
  | String c rest =>
      if (code c =? 32) || (code c =? 9) || (code c =? 10) || (code c =? 13)
      then skipSpace rest else s
  | EmptyString => s
  end.

Definition hexDigit (c : ascii) : option Z :=
  let n := code c in
  if (48 <=? n) && (n <=? 57) then Some (n - 48)
  else if (65 <=? n) && (n <=? 70) then Some (n - 55)
  else if (97 <=? n) && (n <=? 102) then Some (n - 87)
  else None.

(** The text of a string after its opening quote: the string and what
    follows the closing quote. The string is [None] when an escape stands
    for a code unit above 255. A control character, or a backslash in front
    of anything that is not an escape, is an error. *)
Fixpoint readString (s : string) : option (option string * string) :=
  match s with
  | EmptyString => None
  | String c rest =>
      let more (c' : option ascii) (rest' : option (option string * string)) :=
        match rest' with
        | Some (Some t, after) =>
            Some (match c' with Some a => Some (String a t) | None => None end, after)
        | Some (None, after) => Some (None, after)
        | None => None
        end in
      if code c =? 34 then Some (Some EmptyString, rest)
      else if code c <? 32 then None
      else if code c =? 92 then
        match rest with
        | String e rest' =>
            if (code e =? 34) || (code e =? 92) || (code e =? 47)
            then more (Some e) (readString rest')
            else if code e =? 98 then more (Some (ascii_of_nat 8)) (readString rest')
            else if code e =? 102 then more (Some (ascii_of_nat 12)) (readString rest')
            else if code e =? 110 then more (Some (ascii_of_nat 10)) (readString rest')
            else if code e =? 114 then more (Some (ascii_of_nat 13)) (readString rest')
            else if code e =? 116 then more (Some (ascii_of_nat 9)) (readString rest')
            else if code e =? 117 then
              match rest' with
              | String h1 (String h2 (String h3 (String h4 rest''))) =>
                  match hexDigit h1, hexDigit h2, hexDigit h3, hexDigit h4 with
                  | Some a, Some b, Some c', Some d =>
                      let unit := ((a * 16 + b) * 16 + c') * 16 + d in
                      more (if unit <? 256 then Some (ascii_of_nat (Z.to_nat unit)) else None)
                           (readString rest'')
                  | _, _, _, _ => None
                  end
              | _ => None
              end
            else None
        | EmptyString => None
        end
      else more (Some c) (readString rest)
  end.

(** The digits in front of a text, their number, and what follows them. *)
Fixpoint digitsAhead (s : string) (acc : Z) (count : nat) : Z * nat * string :=
  match s with
  | String c rest =>
      if TimeUtils.isDigit c then digitsAhead rest (10 * acc + (code c - 48)) (S count)
      else (acc, count, s)
  | EmptyString => (acc, count, s)
  end.

(** A number after its sign: an integer part without a zero in front, then
    a fraction and an exponent if there are any. An integer below 2^53 is
    itself; the model does not describe the other numbers. *)
Definition readNumber (negative : bool) (s : string) : option (JSON.any * string) :=
  let whole :=
    match s with
    | String "0" rest => Some (0, rest)
    | _ =>
        match digitsAhead s 0 0 with
        | (_, O, _) => None
        | (z, _, rest) => Some (z, rest)
        end
    end in
  match whole with
  | None => None
  | Some (z, rest) =>
      let fraction :=
        match rest with
        | String "." digits =>
            match digitsAhead digits 0 0 with
            | (_, O, _) => None
            | (_, _, rest') => Some (true, rest')
            end
        | _ => Some (false, rest)
        end in
      match fraction with
      | None => None
      | Some (fractional, rest') =>
          let exponent :=
            match rest' with
            | String e digits =>
                if (code e =? 101) || (code e =? 69) then
                  let digits' :=
                    match digits with
                    | String sign more =>
                        if (code sign =? 43) || (code sign =? 45) then more else digits
                    | EmptyString => digits
                    end in
                  match digitsAhead digits' 0 0 with
                  | (_, O, _) => None
                  | (_, _, rest'') => Some (true, rest'')
                  end
                else Some (false, rest')
            | EmptyString => Some (false, rest')
            end in
          match exponent with
          | None => None
          | Some (exponential, rest'') =>
              Some (if fractional || exponential || (9007199254740992 <=? z)
                    then JSON.JOther
                    else JSON.JNumber (if negative then - z else z),
                    rest'')
          end
      end
  end.

Definition literal (word rest : string) : option string :=
  if String.prefix word rest
  then Some (String.substring (String.length word)
               (String.length rest - String.length word) rest)
  else None.

(** A value in front of a text, and what follows it. *)
Fixpoint readValue (fuel : nat) (s : string) : option (JSON.any * string) :=
  match fuel with
  | O => None
  | S fuel' =>
      match skipSpace s with
      | EmptyString => None
      | String c rest =>
          if code c =? 34 then
            match readString rest with
            | Some (Some t, after) => Some (JSON.JString t, after)
            | Some (None, after) => Some (JSON.JOther, after)
            | None => None
            end
          else if code c =? 91 then
            match skipSpace rest with
            | String "]" after => Some (JSON.JArray [], after)
            | _ =>
                match readItems fuel' rest with
                | Some (items, after) => Some (JSON.JArray items, after)
                | None => None
                end
            end
          else if code c =? 123 then
            match skipSpace rest with
            | String "}" after => Some (JSON.JObject [], after)
            | _ =>
                match readMembers fuel' rest with
                | Some (members, after) => Some (JSON.JObject members, after)
                | None => None
                end
            end
          else if code c =? 45 then readNumber true rest
          else if TimeUtils.isDigit c then readNumber false (String c rest)
          else
            match literal "null" (String c rest), literal "true" (String c rest),
                  literal "false" (String c rest) with
            | Some after, _, _ => Some (JSON.JNull, after)
            | _, Some after, _ => Some (JSON.JBool true, after)
            | _, _, Some after => Some (JSON.JBool false, after)
            | _, _, _ => None
            end
      end
  end

with readItems (fuel : nat) (s : string) : option (list JSON.any * string) :=
  match fuel with
  | O => None
  | S fuel' =>
      match readValue fuel' s with
      | Some (item, after) =>
          match skipSpace after with
          | String "," more =>
              match readItems fuel' more with
              | Some (items, rest) => Some (item :: items, rest)
              | None => None
              end
          | String "]" rest => Some ([item], rest)
          | _ => None
          end
      | None => None
      end
  end

(** A member whose name has a code unit above 255 is left out: no property
    the code reads has such a name. *)
with readMembers (fuel : nat) (s : string) : option (list (string * JSON.any) * string) :=
  match fuel with
  | O => None
  | S fuel' =>
      match skipSpace s with
      | String q keyText =>
          if code q =? 34 then
            match readString keyText with
            | Some (key, afterKey) =>
                let named (v : JSON.any) (members : list (string * JSON.any)) :=
                  match key with
                  | Some k => (k, v) :: members
                  | None => members
                  end in
                match skipSpace afterKey with
                | String ":" valueText =>
                    match readValue fuel' valueText with
                    | Some (v, after) =>
                        match skipSpace after with
                        | String "," more =>
                            match readMembers fuel' more with
                            | Some (members, rest) => Some (named v members, rest)
                            | None => None
                            end
                        | String "}" rest => Some (named v [], rest)
                        | _ => None
                        end
                    | None => None
                    end
                | _ => None
                end
            | None => None
            end
          else None
      | EmptyString => None
      end
  end.

Fixpoint tasksOf (items : list JSON.any) : option (list JSON.task) :=
  match items with
  | [] => Some []
  | j :: rest =>
      match JSON.record j, tasksOf rest with
      | Some t, Some ts => Some (t :: ts)
      | _, _ => None
      end
  end.

(** [JSON.parse]. An array whose items are all objects of the declared
    types is the array of these objects. *)
Definition parse (text : string) : Res JSON.value :=
  match readValue (S (String.length text)) text with
  | Some (v, rest) =>
      match skipSpace rest with
      | EmptyString =>
          match v with
          | JSON.JArray items =>
              match tasksOf items with
              | Some ts => Ok (JSON.Array ts)
              | None => Ok (JSON.Loose items)
              end
          | _ => Ok JSON.NotArray
          end
      | _ => Throw (Err.mk "SyntaxError" "Unexpected token")
      end
  | None => Throw (Err.mk "SyntaxError" "Unexpected token")
  end.

(** [z] in decimal, with zeros in front up to a width. *)
Fixpoint zeros (n : nat) : string :=
  match n with
  | O => ""
  | S n' => "0" +++ zeros n'
  end.

Definition pad (width : nat) (z : Z) : string :=
  zeros (width - String.length (showZ z)) +++ showZ z.

(** The year, month and day of a count of days since 1970-01-01. *)
Definition civil (days : Z) : Z * Z * Z :=
  let z := days + 719468 in
  let era := z / 146097 in
  let doe := z - era * 146097 in
  let yoe := (doe - doe / 1460 + doe / 36524 - doe / 146096) / 365 in
  let doy := doe - (365 * yoe + yoe / 4 - yoe / 100) in
  let mp := (5 * doy + 2) / 153 in
  let d := doy - (153 * mp + 2) / 5 + 1 in
  let m := if mp <? 10 then mp + 3 else mp - 9 in
  (yoe + era * 400 + (if m <=? 2 then 1 else 0), m, d).

(** The count of days since 1970-01-01 of a year, month and day. *)
Definition daysFromCivil (y m d : Z) : Z :=
  let y' := if m <=? 2 then y - 1 else y in
  let era := y' / 400 in
  let yoe := y' - era * 400 in
  let doy := (153 * (if 2 <? m then m - 3 else m + 9) + 2) / 5 + d - 1 in
  let doe := yoe * 365 + yoe / 4 - yoe / 100 + doy in
  era * 146097 + doe - 719468.

Definition yearText (y : Z) : string :=
  if (0 <=? y) && (y <=? 9999) then pad 4 y
  else (if y <? 0 then "-" else "+") +++ pad 6 (Z.abs y).

(** [toISOString]: YYYY-MM-DDTHH:mm:ss.sssZ. *)
Definition iso (ms : Z) : string :=
  let '(y, m, d) := civil (ms / 86400000) in
  let rest := ms mod 86400000 in
  yearText y +++ "-" +++ pad 2 m +++ "-" +++ pad 2 d
  +++ "T" +++ pad 2 (rest / 3600000) +++ ":" +++ pad 2 (rest / 60000 mod 60)
  +++ ":" +++ pad 2 (rest / 1000 mod 60) +++ "." +++ pad 3 (rest mod 1000) +++ "Z".

(** The number a run of digits writes. *)
Definition number (s : string) : option Z :=
  if forallb TimeUtils.isDigit (list_ascii_of_string s) then readDigits 10 s None else None.

(** [new Date(s)] for a text of the format of [toISOString], years 0000 to
    9999; any other text gives the invalid date. *)
Definition unIso (s : string) : Date :=
  let piece (from len : nat) := number (String.substring from len s) in
  let mark (at' : nat) (c : string) := String.eqb (String.substring at' 1 s) c in
  if Nat.eqb (String.length s) 24
     && mark 4%nat "-" && mark 7%nat "-" && mark 10%nat "T" && mark 13%nat ":"
     && mark 16%nat ":" && mark 19%nat "." && mark 23%nat "Z"
  then
    match piece 0%nat 4%nat, piece 5%nat 2%nat, piece 8%nat 2%nat, piece 11%nat 2%nat,
          piece 14%nat 2%nat, piece 17%nat 2%nat, piece 20%nat 3%nat with
    | Some y, Some m, Some d, Some hh, Some mi, Some ss, Some ms =>
        let days := daysFromCivil y m d in
        if (hh <=? 23) && (mi <=? 59) && (ss <=? 59)
           && (let '(y', m', d') := civil days in (y' =? y) && (m' =? m) && (d' =? d))
        then DateOf (days * 86400000 + hh * 3600000 + mi * 60000 + ss * 1000 + ms)
        else InvalidDate
    | _, _, _, _, _, _, _ => InvalidDate
    end
  else InvalidDate.

(** The platform: a clock that advances by a millisecond at each reading. *)
Definition host0 : Host :=
  mkHost (fun n => 1700000000000 + Z.of_nat n) iso unIso stringify parse.

Definition exercise : Task :=
  mkTask "TASK-1" "Morning Exercise" "09:00" "10:00" MEDIUM false (DateOf 1000) None.

Definition briefing : Task :=
  mkTask "TASK-2" "Team Briefing" "10:00" "11:00" LOW false (DateOf 2000) None.

(** Overlaps [exercise]. *)
Definition repair : Task :=
  mkTask "TASK-3" "Antenna Repair" "09:30" "10:30" HIGH false (DateOf 3000) None.

(** Overlaps [exercise], and has a blank description. *)
Definition blank : Task :=
  mkTask "TASK-4" "   " "09:30" "10:30" HIGH false (DateOf 4000) None.

(** Overlaps [exercise], and has its identifier. *)
Definition exerciseAgain : Task :=
  mkTask "TASK-1" "Evening Exercise" "09:15" "09:45" MEDIUM false (DateOf 5000) None.

Definition plain (t : Task) (created : string) (duration : Z) : JSON.task :=
  JSON.mkTask (id t) (description t) (startTime t) (endTime t) (priority t)
              (Some (completed t)) created None (Int duration).

(** Two records whose times overlap. *)
Definition overlapping : list JSON.task :=
  [plain exercise "1970-01-01T00:00:01.000Z" 60; plain repair "1970-01-01T00:00:03.000Z" 60].

(** A record whose end is before its start. *)
Definition nightShift : JSON.task :=
  JSON.mkTask "TASK-9" "Night Shift" "23:00" "06:00" LOW (Some false) "1970-01-01T00:00:09.000Z" None (Int (-1020)).

Definition backwards : list JSON.task := [nightShift].

(** A good record and then a bad one. *)
Definition halfGood : list JSON.task :=
  plain briefing "1970-01-01T00:00:02.000Z" 60 :: backwards.

(** The text of an array of two items: the record of [briefing], and an
    object without properties. *)
Definition withEmptyObject : string :=
  "[" +++ jsonTask (plain briefing "1970-01-01T00:00:02.000Z" 60) +++ ",{}]".

(** The two items. *)
Definition recordAndEmptyObject : list JSON.any :=
  [JSON.JObject
     [("id", JSON.JString "TASK-2"); ("description", JSON.JString "Team Briefing");
      ("startTime", JSON.JString "10:00"); ("endTime", JSON.JString "11:00");
      ("priority", JSON.JString "Low"); ("completed", JSON.JBool false);
      ("createdAt", JSON.JString "1970-01-01T00:00:02.000Z"); ("updatedAt", JSON.JNull);
      ("durationMinutes", JSON.JNumber 60)];
   JSON.JObject []].

(** The records [exportToJSON] writes for [exercise] and [briefing]. *)
Definition twoRecords : list JSON.task :=
  [plain exercise "1970-01-01T00:00:01.000Z" 60; plain briefing "1970-01-01T00:00:02.000Z" 60].


(** A manager after [addTask(exercise)] and [addTask(briefing)]. *)
Definition twoTasks (h : Host) : World :=
  after (perform (AddTask briefing))
        (after (perform (AddTask exercise)) (ScheduleManager.create h)).

(** A task whose creation date is the invalid date; it does not overlap the
    others. *)
Definition undated : Task :=
  mkTask "TASK-5" "Sleep" "22:00" "23:00" LOW false InvalidDate None.

(** A manager after [addTask(exercise)], [addTask(briefing)] and
    [addTask(undated)]. *)
Definition threeTasks (h : Host) : World :=
  after (perform (AddTask undated)) (twoTasks h).

(** [briefing] moved onto [exercise]. *)
Definition moveOnto : Partial.t :=
  Partial.mk None (Some "09:30") (Some "10:30") None None.



(** A new manager after [importFromJSON] of the text of [overlapping]. *)
Definition afterImport : World :=
  after (perform (ImportFromJSON (stringify overlapping))) (ScheduleManager.create host0).

(** A record whose creation date is not the text of a date. *)
Definition unreadable : list JSON.task :=
  [JSON.mkTask "TASK-5" "Sleep" "22:00" "23:00" LOW (Some false) "yesterday" None (Int 60)].

(** A new manager after [importFromJSON] of that record. *)
Definition afterUnreadable : World :=
  after (perform (ImportFromJSON (stringify unreadable))) (ScheduleManager.create host0).

(** A listener that throws whatever it is told. *)
Definition faulty : IObserver.t :=
  IObserver.mk 1 (Some "Faulty") None (fun _ _ _ => Throw (PlainError "listener failed")).

(** A listener that accepts everything. *)
Definition quiet : IObserver.t :=
  IObserver.mk 2 (Some "TaskLogger") None (fun _ _ _ => Ok tt).

Definition ping : IEventData.t :=
  IEventData.mk (DateOf 0) (Some "ping") None None None None.

(** A manager with two listeners, [faulty] attached first, and its two
    tasks. *)
Definition watched (h : Host) : World :=
  after (perform (AddTask briefing))
    (after (perform (AddTask exercise))
       (after (ScheduleManager.attach quiet)
          (after (ScheduleManager.attach faulty) (ScheduleManager.create h)))).

(** A new manager with two listeners, [faulty] attached first. *)
Definition listening (h : Host) : World :=
  after (ScheduleManager.attach quiet)
    (after (ScheduleManager.attach faulty) (ScheduleManager.create h)).

(** [faulty] calls [manager.detach(this)] in its [update], before it
    throws. *)
Definition leaving : Live.Behaviour :=
  fun observer _ =>
    if Nat.eqb (IObserver.identity observer) 1 then [Live.Detach observer] else [].

(** [faulty] calls [manager.detach(this)] and then [manager.attach(this)]
    in its [update]. *)
Definition rejoining : Live.Behaviour :=
  fun observer _ =>
    if Nat.eqb (IObserver.identity observer) 1
    then [Live.Detach observer; Live.Attach observer] else [].

(** [quiet] calls [manager.attach(faulty)] in its [update]. *)
Definition inviting : Live.Behaviour :=
  fun observer _ =>
    if Nat.eqb (IObserver.identity observer) 2 then [Live.Attach faulty] else [].
End Demo.

(** * Properties *)

(** ** Time strings *)

Lemma digit_char_cases (c : ascii) : 48 <= code c <= 57 -> In c digitChars.
Proof.
  intros H. rewrite <- (ascii_nat_embedding c). unfold code in H.
  remember (nat_of_ascii c) as n eqn:E. clear E c.
  assert (exists k : nat, n = (48 + k)%nat /\ (k <= 9)%nat) as (k & -> & Hk)
    by (exists (n - 48)%nat; lia).
  clear H.
  do 10 (destruct k as [|k]; [simpl; tauto|]). lia.
Qed.

Ltac each_digit c H :=
  let D := fresh "D" in
  pose proof (digit_char_cases c H) as D; simpl in D;
  repeat (destruct D as [D|D]; [subst c|]); [..|contradiction].

Lemma digit_not_colon (c : ascii) : 48 <= code c <= 57 -> Ascii.eqb c ":" = false.
Proof. intros H. each_digit c H; reflexivity. Qed.

Lemma parseInt_two_digits (a b : ascii) :
  48 <= code a <= 57 -> 48 <= code b <= 57 ->
  parseInt (String a (String b EmptyString)) (Some 10)
  = Int (10 * (code a - 48) + (code b - 48)).
Proof. intros Ha Hb. each_digit a Ha; each_digit b Hb; reflexivity. Qed.

Lemma inRange_bounds (lo hi : Z) (c : ascii) :
  TimeUtils.inRange lo hi c = true -> lo <= code c <= hi.
Proof.
  unfold TimeUtils.inRange. rewrite andb_true_iff, !Z.leb_le. tauto.
Qed.

Lemma isDigit_bounds (c : ascii) : TimeUtils.isDigit c = true -> 48 <= code c <= 57.
Proof.
  unfold TimeUtils.isDigit. rewrite andb_true_iff, !Z.leb_le. tauto.
Qed.

Lemma TIME_REGEX_shape (time : string) :
  TimeUtils.TIME_REGEX_test time = true ->
  exists h1 h2 m1 m2,
    time = String h1 (String h2 (String ":" (String m1 (String m2 EmptyString)))) /\
    ((48 <= code h1 <= 49 /\ 48 <= code h2 <= 57)
     \/ (code h1 = 50 /\ 48 <= code h2 <= 51)) /\
    48 <= code m1 <= 53 /\ 48 <= code m2 <= 57.
Proof.
  destruct time as [|h1 [|h2 [|c [|m1 [|m2 [|x rest]]]]]]; simpl; try discriminate.
  rewrite !andb_true_iff, orb_true_iff, !andb_true_iff, !Z.eqb_eq.
  intros [[[Hh Hc] Hm1] Hm2].
  exists h1, h2, m1, m2. split; [|split; [|split]].
  - assert (c = ":"%char) as ->; [|reflexivity].
    rewrite <- (ascii_nat_embedding c). unfold code in Hc.
    replace (nat_of_ascii c) with 58%nat by lia. reflexivity.
  - destruct Hh as [[Ha Hb]|[Ha Hb]].
    + left. split; [apply inRange_bounds | apply isDigit_bounds]; assumption.
    + right. split; [lia | apply inRange_bounds; assumption].
  - apply (inRange_bounds _ _ _ Hm1).
  - apply (isDigit_bounds _ Hm2).
Qed.

(** A string of the format converts, to a minute of the day. *)
Lemma timeToMinutes_of_format (time : string) :
  TimeUtils.TIME_REGEX_test time = true ->
  exists m, TimeUtils.timeToMinutes time = Ok m /\ 0 <= m <= 1439.
Proof.
  intros H. destruct (TIME_REGEX_shape time H) as (h1 & h2 & m1 & m2 & -> & Hh & Hm1 & Hm2).
  clear H.
  assert (48 <= code h1 <= 57 /\ 48 <= code h2 <= 57) as [Dh1 Dh2] by lia.
  assert (48 <= code m1 <= 57) as Dm1 by lia.
  unfold TimeUtils.timeToMinutes. simpl split.
  rewrite (digit_not_colon h1 Dh1), (digit_not_colon h2 Dh2),
          (digit_not_colon m1 Dm1), (digit_not_colon m2 Hm2).
  simpl. rewrite (parseInt_two_digits h1 h2 Dh1 Dh2), (parseInt_two_digits m1 m2 Dm1 Hm2).
  eexists. split; [reflexivity | lia].
Qed.

Lemma validateTimeFormat_ok (time : string) :
  TimeUtils.validateTimeFormat time = Ok tt -> TimeUtils.TIME_REGEX_test time = true.
Proof.
  unfold TimeUtils.validateTimeFormat.
  destruct (TimeUtils.TIME_REGEX_test time); simpl; [reflexivity | discriminate].
Qed.

(** The overlap test on times of the format: it returns, by the minutes. *)
Lemma doTimeRangesOverlap_minutes (start1 end1 start2 end2 : string) :
  TimeUtils.validateTimeFormat start1 = Ok tt ->
  TimeUtils.validateTimeFormat end1 = Ok tt ->
  TimeUtils.validateTimeFormat start2 = Ok tt ->
  TimeUtils.validateTimeFormat end2 = Ok tt ->
  exists s1 e1 s2 e2 : Z,
    TimeUtils.timeToMinutes start1 = Ok s1 /\
    TimeUtils.timeToMinutes end1 = Ok e1 /\
    TimeUtils.timeToMinutes start2 = Ok s2 /\
    TimeUtils.timeToMinutes end2 = Ok e2 /\
    TimeUtils.doTimeRangesOverlap start1 end1 start2 end2 = Ok ((s1 <? e2) && (s2 <? e1)).
Proof.
  intros V1 V2 V3 V4.
  destruct (timeToMinutes_of_format _ (validateTimeFormat_ok _ V1)) as (s1 & E1 & _).
  destruct (timeToMinutes_of_format _ (validateTimeFormat_ok _ V2)) as (e1 & E2 & _).
  destruct (timeToMinutes_of_format _ (validateTimeFormat_ok _ V3)) as (s2 & E3 & _).
  destruct (timeToMinutes_of_format _ (validateTimeFormat_ok _ V4)) as (e2 & E4 & _).
  exists s1, e1, s2, e2.
  unfold TimeUtils.doTimeRangesOverlap. rewrite E1, E2, E3, E4. simpl.
  repeat split; reflexivity.
Qed.

Lemma doTimeRangesOverlap_spec (start1 end1 start2 end2 : string) :
  TimeUtils.validateTimeFormat start1 = Ok tt ->
  TimeUtils.validateTimeFormat end1 = Ok tt ->
  TimeUtils.validateTimeFormat start2 = Ok tt ->
  TimeUtils.validateTimeFormat end2 = Ok tt ->
  exists o,
    TimeUtils.doTimeRangesOverlap start1 end1 start2 end2 = Ok o /\
    TimeUtils.doTimeRangesOverlap start2 end2 start1 end1 = Ok o.
Proof.
  intros V1 V2 V3 V4.
  destruct (doTimeRangesOverlap_minutes _ _ _ _ V1 V2 V3 V4)
    as (s1 & e1 & s2 & e2 & E1 & E2 & E3 & E4 & O).
  destruct (doTimeRangesOverlap_minutes _ _ _ _ V3 V4 V1 V2)
    as (s2' & e2' & s1' & e1' & E3' & E4' & E1' & E2' & O').
  exists ((s1 <? e2) && (s2 <? e1)). split; [exact O|].
  rewrite O'. f_equal. 
  assert (s1' = s1) as -> by congruence. assert (e1' = e1) as -> by congruence.
  assert (s2' = s2) as -> by congruence. assert (e2' = e2) as -> by congruence.
  apply andb_comm.
Qed.

(** C5. On times of the HH:MM format [doTimeRangesOverlap] returns, and
    returns true exactly when the first range starts before the second ends
    and the second starts before the first ends, minutes compared; the answer
    is the same with the two ranges exchanged, and it is false when one range
    ends where the other starts. *)
Theorem doTimeRangesOverlap_half_open :
  forall start1 end1 start2 end2 : string,
    TimeUtils.validateTimeFormat start1 = Ok tt ->
    TimeUtils.validateTimeFormat end1 = Ok tt ->
    TimeUtils.validateTimeFormat start2 = Ok tt ->
    TimeUtils.validateTimeFormat end2 = Ok tt ->
    exists (s1 e1 s2 e2 : Z) (overlap : bool),
      TimeUtils.timeToMinutes start1 = Ok s1 /\
      TimeUtils.timeToMinutes end1 = Ok e1 /\
      TimeUtils.timeToMinutes start2 = Ok s2 /\
      TimeUtils.timeToMinutes end2 = Ok e2 /\
      TimeUtils.doTimeRangesOverlap start1 end1 start2 end2 = Ok overlap /\
      (overlap = true <-> s1 < e2 /\ s2 < e1) /\
      TimeUtils.doTimeRangesOverlap start2 end2 start1 end1 = Ok overlap /\
      (end1 = start2 \/ end2 = start1 -> overlap = false).
Proof.
  intros start1 end1 start2 end2 V1 V2 V3 V4.
  destruct (timeToMinutes_of_format _ (validateTimeFormat_ok _ V1)) as (s1 & E1 & _).
  destruct (timeToMinutes_of_format _ (validateTimeFormat_ok _ V2)) as (e1 & E2 & _).
  destruct (timeToMinutes_of_format _ (validateTimeFormat_ok _ V3)) as (s2 & E3 & _).
  destruct (timeToMinutes_of_format _ (validateTimeFormat_ok _ V4)) as (e2 & E4 & _).
  exists s1, e1, s2, e2, ((s1 <? e2) && (s2 <? e1)).
  unfold TimeUtils.doTimeRangesOverlap. rewrite E1, E2, E3, E4. simpl.
  repeat split; try reflexivity.
  - apply andb_true_iff in H. apply Z.ltb_lt. tauto.
  - apply andb_true_iff in H. apply Z.ltb_lt. tauto.
  - intros [A B]. apply andb_true_iff. rewrite !Z.ltb_lt. tauto.
  - f_equal. apply andb_comm.
  - intros [T|T]; subst.
    + rewrite E2 in E3. injection E3 as <-.
      rewrite (Z.ltb_irrefl e1). apply andb_false_r.
    + rewrite E4 in E1. injection E1 as <-.
      rewrite (Z.ltb_irrefl e2). reflexivity.
Qed.

Lemma doTimeRangesOverlap_half_open_witness :
  exists (s1 e1 s2 e2 : Z) (overlap : bool),
    TimeUtils.timeToMinutes "09:00" = Ok s1 /\
    TimeUtils.timeToMinutes "10:00" = Ok e1 /\
    TimeUtils.timeToMinutes "10:00" = Ok s2 /\
    TimeUtils.timeToMinutes "11:00" = Ok e2 /\
    TimeUtils.doTimeRangesOverlap "09:00" "10:00" "10:00" "11:00" = Ok overlap /\
    (overlap = true <-> s1 < e2 /\ s2 < e1) /\
    TimeUtils.doTimeRangesOverlap "10:00" "11:00" "09:00" "10:00" = Ok overlap /\
    ("10:00" = "10:00" \/ "11:00" = "09:00" -> overlap = false).
Proof.
  apply (doTimeRangesOverlap_half_open "09:00" "10:00" "10:00" "11:00"); reflexivity.
Defined.

(** ** The event bus *)

Lemma notifyOne_spec (event : string) (data : IEventData.t) (o : IObserver.t) (w : World) :
  exists w',
    ScheduleManager.notifyOne event data o w = (Ok tt, w') /\
    host w' = host w /\ tasks w' = tasks w /\ observers w' = observers w /\
    ticks w' = ticks w /\ published w' = published w /\
    delivered w' = delivered w ++ handed o (delivered w) event data.
Proof.
  unfold ScheduleManager.notifyOne, tryCatch, bind, ScheduleManager.declines,
    ScheduleManager.callUpdate, handed, invites, Logger, writes, ret.
  destruct (IObserver.isInterestedIn o) as [interested|]; simpl.
  - destruct (interested (delivered w) event) as [[|]|e]; simpl.
    + destruct (IObserver.update o (delivered w) event data) as [[]|e]; simpl;
        eexists; repeat split; reflexivity.
    + eexists; repeat split; simpl; rewrite ?app_nil_r; reflexivity.
    + eexists; repeat split; simpl; rewrite ?app_nil_r; reflexivity.
  - destruct (IObserver.update o (delivered w) event data) as [[]|e]; simpl;
      eexists; repeat split; reflexivity.
Qed.

Lemma forEach_notifyOne (event : string) (data : IEventData.t) (l : list IObserver.t) :
  forall w,
  exists w',
    forEach l (ScheduleManager.notifyOne event data) w = (Ok tt, w') /\
    host w' = host w /\ tasks w' = tasks w /\ observers w' = observers w /\
    ticks w' = ticks w /\ published w' = published w /\
    delivered w' = delivered w ++ dispatched l (delivered w) event data.
Proof.
  induction l as [|o rest IH]; intros w; simpl.
  - exists w. unfold ret. rewrite app_nil_r. repeat split; reflexivity.
  - destruct (notifyOne_spec event data o w) as (w1 & E1 & Hh & Ht & Ho & Hk & Hp & Hd).
    destruct (IH w1) as (w2 & E2 & Hh2 & Ht2 & Ho2 & Hk2 & Hp2 & Hd2).
    exists w2. unfold bind. rewrite E1, E2.
    repeat split; try congruence.
    rewrite Hd2, Hd, app_assoc. reflexivity.
Qed.

Lemma notify_spec (event : string) (data : IEventData.t) (w : World) :
  exists w',
    ScheduleManager.notify event data w = (Ok tt, w') /\
    host w' = host w /\ tasks w' = tasks w /\ observers w' = observers w /\
    ticks w' = ticks w /\ published w' = published w ++ [(event, data)] /\
    delivered w' = delivered w ++ dispatched (observers w) (delivered w) event data.
Proof.
  unfold ScheduleManager.notify, bind, writes, reads, Logger. simpl.
  match goal with
  | |- context [forEach ?l ?f ?w0] =>
      destruct (forEach_notifyOne event data l w0) as (w' & E & Hh & Ht & Ho & Hk & Hp & Hd)
  end.
  exists w'. rewrite E. simpl in *. repeat split; assumption.
Qed.

Lemma dispatched_app (event : string) (data : IEventData.t) (l1 l2 : list IObserver.t) :
  forall history,
    dispatched (l1 ++ l2) history event data
    = dispatched l1 history event data
      ++ dispatched l2 (history ++ dispatched l1 history event data) event data.
Proof.
  induction l1 as [|o rest IH]; intros history; simpl.
  - rewrite app_nil_r. reflexivity.
  - rewrite IH, <- !app_assoc. reflexivity.
Qed.

Lemma dispatched_receivers (event : string) (data : IEventData.t) (l : list IObserver.t) :
  forall history,
    Forall (fun d => In (receiver d) (map IObserver.identity l))
           (dispatched l history event data).
Proof.
  induction l as [|o rest IH]; intros history; simpl.
  - constructor.
  - apply Forall_app. split.
    + unfold handed. destruct (invites o history event); repeat constructor.
    + eapply Forall_impl; [|apply IH]. simpl. intros d Hd. right. exact Hd.
Qed.

(** ** What an operation does never depends on the listeners *)

Lemma blind_ret {A : Type} (a : A) : blind (ret a).
Proof. intros w1 w2 H. split; [reflexivity | exact H]. Qed.

Lemma blind_throw {A : Type} (e : Error) : blind (@throw A e).
Proof. intros w1 w2 H. split; [reflexivity | exact H]. Qed.

Lemma blind_lift {A : Type} (r : Res A) : blind (lift r).
Proof. intros w1 w2 H. split; [reflexivity | exact H]. Qed.

Lemma blind_hosted {A : Type} (f : Host -> Res A) : blind (hosted f).
Proof.
  intros w1 w2 H. unfold hosted, after. simpl. split; [|exact H].
  destruct H as (-> & _). reflexivity.
Qed.

Lemma blind_bind {A B : Type} (m : M A) (k : A -> M B) :
  blind m -> (forall a, blind (k a)) -> blind (bind m k).
Proof.
  intros Hm Hk w1 w2 H. unfold bind, after.
  destruct (Hm w1 w2 H) as [E G]. unfold after in G.
  destruct (m w1) as [[a1|e1] v1], (m w2) as [[a2|e2] v2]; simpl in *;
    try discriminate; injection E as <-.
  - apply (Hk a1 v1 v2 G).
  - split; [reflexivity | exact G].
Qed.

Lemma blind_tryCatch {A : Type} (m : M A) (handler : Error -> M A) :
  blind m -> (forall e, blind (handler e)) -> blind (tryCatch m handler).
Proof.
  intros Hm Hk w1 w2 H. unfold tryCatch, after.
  destruct (Hm w1 w2 H) as [E G]. unfold after in G.
  destruct (m w1) as [[a1|e1] v1], (m w2) as [[a2|e2] v2]; simpl in *;
    try discriminate; injection E as <-.
  - split; [reflexivity | exact G].
  - apply (Hk e1 v1 v2 G).
Qed.

Lemma blind_reads {A : Type} (f : World -> A) :
  (forall w1 w2, agree w1 w2 -> f w1 = f w2) -> blind (reads f).
Proof.
  intros Hf w1 w2 H. unfold reads, after. simpl.
  split; [f_equal; apply Hf; exact H | exact H].
Qed.

Lemma blind_writes (f : World -> World) :
  (forall w1 w2, agree w1 w2 -> agree (f w1) (f w2)) -> blind (writes f).
Proof.
  intros Hf w1 w2 H. unfold writes, after. simpl.
  split; [reflexivity | apply Hf; exact H].
Qed.

Lemma blind_newDate : blind newDate.
Proof.
  intros w1 w2 (Hh & Ht & Hk). unfold newDate, after, agree. simpl.
  rewrite Hh, Ht, Hk. repeat split; reflexivity.
Qed.

Lemma blind_Logger (level message : string) : blind (Logger level message).
Proof. apply blind_writes. intros w1 w2 H. exact H. Qed.

Lemma blind_notify (event : string) (data : IEventData.t) :
  blind (ScheduleManager.notify event data).
Proof.
  intros w1 w2 (Hh & Ht & Hk). unfold after.
  destruct (notify_spec event data w1) as (v1 & E1 & A1 & B1 & _ & C1 & _).
  destruct (notify_spec event data w2) as (v2 & E2 & A2 & B2 & _ & C2 & _).
  rewrite E1, E2. simpl. unfold agree. repeat split; congruence.
Qed.

Lemma blind_forEach {A : Type} (body : A -> M unit) (xs : list A) :
  (forall x, blind (body x)) -> blind (forEach xs body).
Proof.
  intros Hb. induction xs as [|x rest IH]; simpl.
  - apply blind_ret.
  - apply blind_bind; [apply Hb | intros _; exact IH].
Qed.

Lemma blind_mapM {A B : Type} (f : A -> M B) (xs : list A) :
  (forall x, blind (f x)) -> blind (mapM f xs).
Proof.
  intros Hf. induction xs as [|x rest IH]; simpl.
  - apply blind_ret.
  - apply blind_bind; [apply Hf | intros y].
    apply blind_bind; [exact IH | intros ys; apply blind_ret].
Qed.

Create HintDb blind_db.
#[local] Hint Resolve blind_ret blind_throw blind_lift blind_hosted blind_newDate
  blind_Logger blind_notify : blind_db.

(** Takes a method apart along its binds, branches and loops. *)
Ltac blind_tac :=
  repeat first
    [ solve [auto with blind_db]
    | apply blind_bind; [|intros ?]
    | apply blind_tryCatch; [|intros ?]
    | apply blind_forEach; intros ?
    | apply blind_mapM; intros ?
    | apply blind_reads;
      let H := fresh in intros ? ? (_ & H & _); simpl; rewrite ?H; reflexivity
    | apply blind_writes;
      let Hh := fresh in let Ht := fresh in let Hk := fresh in
      intros ? ? (Hh & Ht & Hk); unfold agree; simpl;
      rewrite ?Hh, ?Ht, ?Hk; repeat split; reflexivity
    | match goal with
      | |- blind (match ?x with _ => _ end) => destruct x
      end ].

Lemma blind_update (updates : Partial.t) (this : Task) : blind (update updates this).
Proof. unfold update. blind_tac. Qed.

Lemma blind_markCompleted (this : Task) : blind (markCompleted this).
Proof. unfold markCompleted. blind_tac. Qed.

Lemma blind_create message data error : blind (EventDataFactory.create message data error).
Proof. unfold EventDataFactory.create. blind_tac. Qed.

Lemma blind_createError error message : blind (EventDataFactory.createError error message).
Proof. unfold EventDataFactory.createError. blind_tac. Qed.

Lemma blind_createSuccess message data : blind (EventDataFactory.createSuccess message data).
Proof. unfold EventDataFactory.createSuccess. blind_tac. Qed.

#[local] Hint Resolve blind_update blind_markCompleted blind_create blind_createError
  blind_createSuccess : blind_db.

Lemma blind_perform (op : Operation) : blind (perform op).
Proof.
  destruct op; unfold perform.
  - unfold ScheduleManager.addTask, ScheduleManager.checkForConflict,
      ScheduleManager.logTaskOperation. blind_tac.
  - unfold ScheduleManager.removeTask, ScheduleManager.getTaskByDescription,
      ScheduleManager.logTaskOperation. blind_tac.
    intros w1 w2 (Hh & Ht & Hk). unfold after, agree. simpl. rewrite Ht.
    repeat split; assumption.
  - unfold ScheduleManager.updateTask, ScheduleManager.logTaskOperation. blind_tac.
  - unfold ScheduleManager.markTaskCompleted, ScheduleManager.getTaskByDescription,
      ScheduleManager.logTaskOperation. blind_tac.
  - unfold ScheduleManager.clearAllTasks. blind_tac.
  - unfold ScheduleManager.importFromJSON, ScheduleManager.importItem. blind_tac.
Qed.

(** Listeners that leave the manager alone during the dispatch. [notify]
    never throws, whatever these listeners do. Each attached listener,
    wherever it stands in the list, is handed the event when it handles that
    kind of event ([handed]), after the calls to the listeners ahead of it
    and whether or not those threw. The schedule is untouched, and what an
    operation returns or throws and the schedule it leaves are the same with
    any other list of listeners. *)
Theorem notify_isolates_listener_failures :
  forall (w : World) (event : string) (data : IEventData.t)
         (ahead behind : list IObserver.t) (o : IObserver.t),
    observers w = ahead ++ o :: behind ->
    exists (w' : World) (earlier later : list Delivery),
      ScheduleManager.notify event data w = (Ok tt, w') /\
      tasks w' = tasks w /\
      delivered w'
      = delivered w ++ earlier ++ handed o (delivered w ++ earlier) event data ++ later /\
      Forall (fun d => In (receiver d) (map IObserver.identity ahead)) earlier /\
      Forall (fun d => In (receiver d) (map IObserver.identity behind)) later /\
      forall (op : Operation) (others : list IObserver.t),
        fst (perform op (with_observers others w)) = fst (perform op w) /\
        tasks (after (perform op) (with_observers others w)) = tasks (after (perform op) w).
Proof.
  intros w event data ahead behind o Hobs.
  destruct (notify_spec event data w) as (w' & E & _ & Ht & _ & _ & _ & Hd).
  exists w', (dispatched ahead (delivered w) event data),
    (dispatched behind
       ((delivered w ++ dispatched ahead (delivered w) event data)
        ++ handed o (delivered w ++ dispatched ahead (delivered w) event data) event data)
       event data).
  split; [exact E|]. split; [exact Ht|]. split.
  - rewrite Hd, Hobs, dispatched_app. simpl. reflexivity.
  - split; [apply dispatched_receivers|]. split; [apply dispatched_receivers|].
    intros op others.
    assert (agree (with_observers others w) w) as G by (repeat split).
    destruct (blind_perform op _ _ G) as (R & _ & T & _).
    split; assumption.
Qed.

Lemma notify_isolates_listener_failures_witness :
  observers (with_observers [Demo.faulty; Demo.quiet] (Demo.twoTasks Demo.host0))
  = [Demo.faulty] ++ Demo.quiet :: [] /\
  exists (w' : World) (earlier later : list Delivery),
    ScheduleManager.notify ScheduleEvent.TASK_ADDED Demo.ping
      (with_observers [Demo.faulty; Demo.quiet] (Demo.twoTasks Demo.host0)) = (Ok tt, w') /\
    tasks w' = tasks (with_observers [Demo.faulty; Demo.quiet] (Demo.twoTasks Demo.host0)) /\
    delivered w'
    = delivered (with_observers [Demo.faulty; Demo.quiet] (Demo.twoTasks Demo.host0))
      ++ earlier
      ++ handed Demo.quiet
           (delivered (with_observers [Demo.faulty; Demo.quiet] (Demo.twoTasks Demo.host0))
            ++ earlier) ScheduleEvent.TASK_ADDED Demo.ping
      ++ later /\
    Forall (fun d => In (receiver d) (map IObserver.identity [Demo.faulty])) earlier /\
    Forall (fun d => In (receiver d) (map IObserver.identity [])) later /\
    forall (op : Operation) (others : list IObserver.t),
      fst (perform op
             (with_observers others
                (with_observers [Demo.faulty; Demo.quiet] (Demo.twoTasks Demo.host0))))
      = fst (perform op (with_observers [Demo.faulty; Demo.quiet] (Demo.twoTasks Demo.host0))) /\
      tasks (after (perform op)
               (with_observers others
                  (with_observers [Demo.faulty; Demo.quiet] (Demo.twoTasks Demo.host0))))
      = tasks (after (perform op)
                 (with_observers [Demo.faulty; Demo.quiet] (Demo.twoTasks Demo.host0))).
Proof.
  split; [reflexivity|].
  apply (notify_isolates_listener_failures
           (with_observers [Demo.faulty; Demo.quiet] (Demo.twoTasks Demo.host0))
           ScheduleEvent.TASK_ADDED Demo.ping [Demo.faulty] [] Demo.quiet).
  reflexivity.
Defined.

(** The faulty listener throws and the quiet one is called all the same. *)
Example notify_after_a_throw :
  map (fun d => (receiver d, outcome d))
      (delivered (after (ScheduleManager.notify ScheduleEvent.TASK_ADDED Demo.ping)
                    (with_observers [Demo.faulty; Demo.quiet] (Demo.twoTasks Demo.host0))))
  = [(1%nat, Throw (PlainError "listener failed")); (2%nat, Ok tt)].
Proof. reflexivity. Qed.

(** C6, at a listener that leaves during the dispatch. Two listeners are
    attached, [faulty] first. When [faulty] only throws, [quiet] is called
    after it, in [ScheduleManager.notify] and in the loop over the array
    the manager holds. When the [update] of [faulty] calls [manager.detach(this)]
    before it throws, [notify] returns and the failure is logged, but
    [quiet], which is attached before the call and after it, is not called:
    [detach] has taken [faulty] out of the array the loop runs on, [quiet]
    has moved to the index the iterator has passed, and the loop ends. *)
Theorem notify_skips_the_listener_after_one_that_detaches_itself :
  map IObserver.identity (observers (Demo.listening Demo.host0)) = [1; 2]%nat /\
  map (fun d => (receiver d, thrown (outcome d)))
      (deliveredSince (ScheduleManager.notify ScheduleEvent.TASK_ADDED Demo.ping)
         (Demo.listening Demo.host0))
  = [(1%nat, Some "Error"); (2%nat, None)] /\
  Demo.leaving Demo.faulty ScheduleEvent.TASK_ADDED = [Live.Detach Demo.faulty] /\
  Demo.leaving Demo.quiet ScheduleEvent.TASK_ADDED = [] /\
  forall extra : nat,
    map (fun d => (receiver d, thrown (outcome d)))
        (deliveredSince (Live.notify (3 + extra) Live.still ScheduleEvent.TASK_ADDED
                           Demo.ping)
           (Demo.listening Demo.host0))
    = [(1%nat, Some "Error"); (2%nat, None)] /\
    fst (Live.notify (3 + extra) Demo.leaving ScheduleEvent.TASK_ADDED Demo.ping
           (Demo.listening Demo.host0)) = Ok true /\
    map (fun d => (receiver d, thrown (outcome d)))
        (deliveredSince (Live.notify (3 + extra) Demo.leaving ScheduleEvent.TASK_ADDED
                           Demo.ping)
           (Demo.listening Demo.host0))
    = [(1%nat, Some "Error")] /\
    map IObserver.identity
        (observers (after (Live.notify (3 + extra) Demo.leaving ScheduleEvent.TASK_ADDED
                             Demo.ping)
                      (Demo.listening Demo.host0)))
    = [2%nat] /\
    last (logged (after (Live.notify (3 + extra) Demo.leaving ScheduleEvent.TASK_ADDED
                           Demo.ping)
                    (Demo.listening Demo.host0))) ("", "")
    = ("ERROR", "Observer notification failed").
Proof.
  split; [reflexivity|]. split; [reflexivity|]. split; [reflexivity|].
  split; [reflexivity|]. intros extra. repeat split; reflexivity.
Qed.

(** ** [addTask], case by case *)

#[local] Arguments ScheduleManager.notify : simpl never.

(** Runs the next [notify] of the goal, by [notify_spec]. *)
Ltac notify_step :=
  match goal with
  | |- context [ScheduleManager.notify ?ev ?d ?w0] =>
      let w1 := fresh "w" in
      let E := fresh "E" in
      destruct (notify_spec ev d w0) as (w1 & E & ?Hh & ?Ht & ?Ho & ?Hk & ?Hp & ?Hd);
      rewrite E; clear E; simpl in *
  end.

Ltac unfold_methods :=
  unfold tryCatch, bind, lift, reads, hosted, writes, throw, ret, after,
    EventDataFactory.create, EventDataFactory.createError, EventDataFactory.createSuccess,
    newDate, ScheduleManager.logTaskOperation, Logger, update, markCompleted.

(** The [catch] block of [addTask]. *)
Lemma addTask_catch (task : Task) (error : Error) (w : World) :
  exists w' d,
    (eventData <- EventDataFactory.createError error
        (Some ("Failed to add task " +++ quoted (description task))) ;;
     ScheduleManager.notify ScheduleEvent.TASK_ADD_FAILED eventData ;;
     @throw unit error) w = (Throw error, w') /\
    host w' = host w /\ tasks w' = tasks w /\ observers w' = observers w /\
    published w' = published w ++ [(ScheduleEvent.TASK_ADD_FAILED, d)] /\
    reports error d.
Proof.
  unfold_methods. simpl. notify_step.
  eexists _, _. split; [reflexivity|].
  split; [assumption|]. split; [assumption|]. split; [assumption|].
  split; [eassumption|]. repeat split.
Qed.

(** What [addTask] does, by the outcome of the validation, of the search for
    a conflict and of [toJSON]. *)
Lemma addTask_outcome (task : Task) (w : World) :
  exists r w',
    ScheduleManager.addTask task w = (r, w') /\
    host w' = host w /\ observers w' = observers w /\
    ((exists e d,
        (ValidationService.validateTask task = Throw e \/
         (ValidationService.validateTask task = Ok tt /\
          ValidationService.checkTaskOverlap task (JSMap.values (tasks w)) = Throw e)) /\
        r = Throw e /\ tasks w' = tasks w /\
        published w' = published w ++ [(ScheduleEvent.TASK_ADD_FAILED, d)] /\
        reports e d)
     \/
     (exists conflictingTask e d1 d2,
        ValidationService.validateTask task = Ok tt /\
        ValidationService.checkTaskOverlap task (JSMap.values (tasks w))
        = Ok (Some conflictingTask) /\
        e = TaskConflictError
              ("Task conflicts with existing task " +++ quoted (description conflictingTask)
               +++ " (" +++ startTime conflictingTask +++ "-"
               +++ endTime conflictingTask +++ ")") /\
        r = Throw e /\ tasks w' = tasks w /\
        published w' = published w ++ [(ScheduleEvent.TASK_CONFLICT, d1);
                                        (ScheduleEvent.TASK_ADD_FAILED, d2)] /\
        IEventData.data d1
        = Some [("newTask", VTask task); ("existingTask", VTask conflictingTask)] /\
        IEventData.context d1 = None /\
        reports e d2)
     \/
     (exists e d,
        ValidationService.validateTask task = Ok tt /\
        ValidationService.checkTaskOverlap task (JSMap.values (tasks w)) = Ok None /\
        toJSON (host w) task = Throw e /\
        r = Throw e /\ tasks w' = JSMap.set (id task) task (tasks w) /\
        published w' = published w ++ [(ScheduleEvent.TASK_ADD_FAILED, d)] /\
        reports e d)
     \/
     (exists plain d,
        ValidationService.validateTask task = Ok tt /\
        ValidationService.checkTaskOverlap task (JSMap.values (tasks w)) = Ok None /\
        toJSON (host w) task = Ok plain /\
        r = Ok tt /\ tasks w' = JSMap.set (id task) task (tasks w) /\
        published w' = published w ++ [(ScheduleEvent.TASK_ADDED, d)] /\
        IEventData.data d = Some [("task", VPlain plain)])).
Proof.
  unfold ScheduleManager.addTask, ScheduleManager.checkForConflict.
  unfold tryCatch at 1. unfold bind at 1. unfold lift at 1.
  destruct (ValidationService.validateTask task) as [[]|e] eqn:V.
  - unfold bind at 1. unfold bind at 1. unfold reads at 1. unfold lift at 1.
    destruct (ValidationService.checkTaskOverlap task (JSMap.values (tasks w)))
      as [[c|]|e] eqn:C.
    + unfold bind at 1. unfold bind at 1. unfold EventDataFactory.create at 1.
      unfold bind at 1. unfold newDate at 1. unfold ret at 1.
      notify_step.
      match goal with
      | |- context [TaskConflictError ?m] =>
          destruct (addTask_catch task (TaskConflictError m) w0)
            as (w' & d & E & Hh' & Ht' & Ho' & Hp' & R)
      end.
      eexists _, w'. split; [exact E|].
      split; [congruence|]. split; [congruence|].
      right. left. eexists c, _, _, d.
      split; [reflexivity|]. split; [reflexivity|]. split; [reflexivity|].
      split; [reflexivity|]. split; [congruence|].
      split; [rewrite Hp', Hp, <- app_assoc; reflexivity|].
      split; [reflexivity|]. split; [reflexivity|]. exact R.
    + unfold bind at 1. unfold bind at 1. unfold writes at 1.
      unfold bind at 1. unfold hosted at 1. simpl host.
      destruct (toJSON (host w) task) as [plain|e] eqn:J.
      * unfold bind at 1. unfold bind at 1. unfold EventDataFactory.createSuccess at 1.
        unfold bind at 1. unfold newDate at 1. unfold ret at 1.
        notify_step. unfold ScheduleManager.logTaskOperation, Logger, writes.
        eexists _, _. split; [reflexivity|]. simpl.
        split; [congruence|]. split; [congruence|].
        right. right. right. eexists plain, _.
        split; [reflexivity|]. split; [reflexivity|]. split; [reflexivity|].
        split; [reflexivity|]. split; [exact Ht|]. split; [exact Hp|]. reflexivity.
      * match goal with
        | |- context [with_tasks ?m w] =>
            destruct (addTask_catch task e (with_tasks m w))
              as (w' & d & E & Hh' & Ht' & Ho' & Hp' & R)
        end.
        eexists _, w'. split; [exact E|].
        split; [exact Hh'|]. split; [exact Ho'|].
        right. right. left. exists e, d.
        split; [reflexivity|]. split; [reflexivity|]. split; [reflexivity|].
        split; [reflexivity|]. split; [exact Ht'|]. split; [exact Hp'|]. exact R.
    + destruct (addTask_catch task e w) as (w' & d & E & Hh & Ht & Ho & Hp & R).
      exists (Throw e), w'. split; [exact E|].
      split; [exact Hh|]. split; [exact Ho|].
      left. exists e, d.
      split; [right; split; reflexivity|]. split; [reflexivity|].
      split; [exact Ht|]. split; [exact Hp|]. exact R.
  - destruct (addTask_catch task e w) as (w' & d & E & Hh & Ht & Ho & Hp & R).
    exists (Throw e), w'. split; [exact E|].
    split; [exact Hh|]. split; [exact Ho|].
    left. exists e, d.
    split; [left; reflexivity|]. split; [reflexivity|].
    split; [exact Ht|]. split; [exact Hp|]. exact R.
Qed.

(** ** Validation and the search for a conflict *)

Lemma timeToMinutes_error (time : string) (e : Error) :
  TimeUtils.timeToMinutes time = Throw e -> Err.name e = "InvalidTimeFormatError".
Proof.
  unfold TimeUtils.timeToMinutes.
  destruct (parseInt _ _); [destruct (parseInt _ _)|]; intros H;
    try discriminate; injection H as <-; reflexivity.
Qed.





(** A task that passes [validateTask] has times of the format, the start
    before the end. *)
Lemma validateTask_ok (task : Task) :
  ValidationService.validateTask task = Ok tt ->
  trim (description task) <> "" /\
  TimeUtils.validateTimeFormat (startTime task) = Ok tt /\
  TimeUtils.validateTimeFormat (endTime task) = Ok tt /\
  exists s e,
    TimeUtils.timeToMinutes (startTime task) = Ok s /\
    TimeUtils.timeToMinutes (endTime task) = Ok e /\ s < e.
Proof.
  unfold ValidationService.validateTask.
  destruct (_ || _) eqn:D; [discriminate|].
  apply orb_false_iff in D. destruct D as [_ D]. apply String.eqb_neq in D.
  unfold res_bind.
  destruct (TimeUtils.validateTimeFormat (startTime task)) as [[]|] eqn:A; [|discriminate].
  destruct (TimeUtils.validateTimeFormat (endTime task)) as [[]|] eqn:B; [|discriminate].
  unfold TimeUtils.validateTimeRange, res_bind.
  destruct (TimeUtils.timeToMinutes (startTime task)) as [s|] eqn:S; [|discriminate].
  destruct (TimeUtils.timeToMinutes (endTime task)) as [e|] eqn:E; [|discriminate].
  destruct (s >=? e) eqn:G; [discriminate|]. intros _.
  repeat split; try assumption. exists s, e. repeat split. 
  rewrite Z.geb_leb in G. apply Z.leb_gt in G. exact G.
Qed.

Lemma overlapOf_valid (a b : Task) :
  ValidationService.validateTask a = Ok tt ->
  ValidationService.validateTask b = Ok tt ->
  exists o, overlapOf a b = Ok o /\ overlapOf b a = Ok o.
Proof.
  intros Va Vb.
  destruct (validateTask_ok a Va) as (_ & A1 & A2 & _).
  destruct (validateTask_ok b Vb) as (_ & B1 & B2 & _).
  destruct (doTimeRangesOverlap_spec _ _ _ _ A1 A2 B1 B2)
    as (o & E1 & E2).
  exists o. split; assumption.
Qed.

(** ** The other operations, case by case *)

#[local] Opaque String.append.

(** The search for a conflict reads the identifier and the times of the new
    task only. *)
Lemma checkTaskOverlap_ext (a b : Task) (l : list Task) :
  id a = id b -> startTime a = startTime b -> endTime a = endTime b ->
  ValidationService.checkTaskOverlap a l = ValidationService.checkTaskOverlap b l.
Proof.
  intros Hi Hs He. induction l as [|t rest IH]; simpl; [reflexivity|].
  rewrite Hi, Hs, He, IH. reflexivity.
Qed.

Ltac fin := first [reflexivity | assumption | eassumption].

Lemma updateTask_outcome (taskId : string) (updatedTask : Partial.t) (w : World) :
  exists r w',
    ScheduleManager.updateTask taskId updatedTask w = (r, w') /\
    host w' = host w /\ observers w' = observers w /\
    ((JSMap.get taskId (tasks w) = None /\
      r = Throw (TaskNotFoundError ("Task with ID " +++ quoted taskId +++ " not found")) /\
      tasks w' = tasks w /\ published w' = published w)
     \/
     (exists task e,
        JSMap.get taskId (tasks w) = Some task /\
        (ValidationService.validateTask (assign updatedTask task) = Throw e \/
         (ValidationService.validateTask (assign updatedTask task) = Ok tt /\
          ValidationService.checkTaskOverlap (assign updatedTask task) (othersThan taskId w)
          = Throw e)) /\
        r = Throw e /\ tasks w' = tasks w /\ published w' = published w)
     \/
     (exists task conflictingTask,
        JSMap.get taskId (tasks w) = Some task /\
        ValidationService.validateTask (assign updatedTask task) = Ok tt /\
        ValidationService.checkTaskOverlap (assign updatedTask task) (othersThan taskId w)
        = Ok (Some conflictingTask) /\
        tasks w' = tasks w /\
        ((exists e,
            toJSON (host w) conflictingTask = Throw e /\
            r = Throw e /\ published w' = published w)
         \/
         (exists plain d,
            toJSON (host w) conflictingTask = Ok plain /\
            r = Throw (TaskConflictError
                         ("Update would conflict with task "
                          +++ quoted (description conflictingTask))) /\
            published w' = published w ++ [(ScheduleEvent.TASK_UPDATE_FAILED, d)] /\
            IEventData.data d
            = Some [("taskId", VString taskId); ("updatedTask", VPartial updatedTask);
                    ("conflictingTask", VPlain plain)] /\
            IEventData.error d = None /\ IEventData.context d = None)))
     \/
     (exists task changed,
        JSMap.get taskId (tasks w) = Some task /\
        ValidationService.validateTask (assign updatedTask task) = Ok tt /\
        ValidationService.checkTaskOverlap (assign updatedTask task) (othersThan taskId w)
        = Ok None /\
        changed = stamp (DateOf (now (host w) (S (ticks w)))) (assign updatedTask task) /\
        tasks w' = ScheduleManager.store taskId changed (tasks w) /\
        ((exists e, toJSON (host w) changed = Throw e /\ r = Throw e /\
                    published w' = published w)
         \/
         (exists plain d, toJSON (host w) changed = Ok plain /\ r = Ok tt /\
                          published w' = published w ++ [(ScheduleEvent.TASK_UPDATED, d)])))).
Proof.
  unfold ScheduleManager.updateTask, othersThan.
  unfold_methods. simpl.
  destruct (JSMap.get taskId (tasks w)) as [task|] eqn:G.
  - simpl.
    change (ValidationService.validateTask
              (stamp (DateOf (now (host w) (ticks w))) (assign updatedTask (clone task))))
      with (ValidationService.validateTask (assign updatedTask task)).
    destruct (ValidationService.validateTask (assign updatedTask task)) as [[]|e] eqn:V.
    + rewrite (checkTaskOverlap_ext _ (assign updatedTask task)) by reflexivity.
      destruct (ValidationService.checkTaskOverlap (assign updatedTask task) _)
        as [[c|]|e] eqn:C; simpl.
      * destruct (toJSON (host w) c) as [plain|e] eqn:J.
        -- notify_step. eexists _, _. split; [fin|].
           split; [fin|]. split; [fin|].
           right. right. left. exists task, c.
           split; [fin|]. split; [fin|]. split; [fin|].
           split; [fin|]. right. eexists plain, _.
           split; [fin|]. split; [fin|]. split; [fin|].
           repeat split; fin.
        -- eexists _, _. split; [fin|]. simpl.
           split; [fin|]. split; [fin|].
           right. right. left. exists task, c.
           split; [fin|]. split; [fin|]. split; [fin|].
           split; [fin|]. left. exists e. repeat split; fin.
      * destruct (toJSON (host w) _) as [plain|e] eqn:J.
        -- notify_step. eexists _, _. split; [fin|]. simpl.
           split; [fin|]. split; [fin|].
           right. right. right. eexists task, _.
           split; [fin|]. split; [fin|]. split; [fin|].
           split; [fin|]. split; [fin|].
           right. eexists plain, _. split; [fin|]. split; [fin|]. fin.
        -- eexists _, _. split; [fin|]. simpl.
           split; [fin|]. split; [fin|].
           right. right. right. eexists task, _.
           split; [fin|]. split; [fin|]. split; [fin|].
           split; [fin|]. split; [fin|].
           left. exists e. split; [fin|]. split; fin.
      * eexists _, _. split; [fin|]. simpl.
        split; [fin|]. split; [fin|].
        right. left. exists task, e. split; [fin|].
        split; [right; split; fin|]. repeat split; fin.
    + eexists _, _. split; [fin|]. simpl.
      split; [fin|]. split; [fin|].
      right. left. exists task, e. split; [fin|].
      split; [left; fin|]. repeat split; fin.
  - eexists _, _. split; [fin|]. simpl.
    split; [fin|]. split; [fin|].
    left. repeat split; fin.
Qed.

Lemma removeTask_outcome (description' : string) (w : World) :
  exists r w',
    ScheduleManager.removeTask description' w = (r, w') /\
    host w' = host w /\ observers w' = observers w /\
    ((foundBy description' w = None /\ r = Ok false /\ tasks w' = tasks w /\
      published w' = published w /\ delivered w' = delivered w)
     \/
     (exists task,
        foundBy description' w = Some task /\
        tasks w' = JSMap.remove (id task) (tasks w))).
Proof.
  unfold ScheduleManager.removeTask, ScheduleManager.getTaskByDescription, foundBy.
  unfold_methods. simpl.
  destruct (find _ (JSMap.values (tasks w))) as [task|] eqn:F; simpl.
  - unfold JSMap.delete. destruct (JSMap.has (id task) (tasks w)); simpl.
    + destruct (toJSON (host w) task) as [plain|e] eqn:J.
      * notify_step. eexists _, _. split; [reflexivity|]. simpl.
        split; [fin|]. split; [fin|]. right. exists task. split; fin.
      * eexists _, _. split; [reflexivity|]. simpl.
        split; [fin|]. split; [fin|]. right. exists task. split; fin.
    + eexists _, _. split; [reflexivity|]. simpl.
      split; [fin|]. split; [fin|]. right. exists task. split; fin.
  - eexists _, _. split; [reflexivity|]. simpl.
    split; [fin|]. split; [fin|]. left. repeat split.
Qed.

Lemma markTaskCompleted_outcome (description' : string) (w : World) :
  exists r w',
    ScheduleManager.markTaskCompleted description' w = (r, w') /\
    host w' = host w /\ observers w' = observers w /\
    ((foundBy description' w = None /\ tasks w' = tasks w /\ published w' = published w)
     \/
     (exists task d,
        foundBy description' w = Some task /\
        tasks w' = ScheduleManager.storeFound description'
                     (stamp d (setCompleted true task)) (tasks w))).
Proof.
  unfold ScheduleManager.markTaskCompleted, ScheduleManager.getTaskByDescription, foundBy.
  unfold_methods. simpl.
  destruct (find _ (JSMap.values (tasks w))) as [task|] eqn:F; simpl.
  - destruct (toJSON (host w) _) as [plain|e] eqn:J.
    + notify_step. eexists _, _. split; [reflexivity|]. simpl.
      split; [fin|]. split; [fin|]. right. eexists task, _. split; fin.
    + eexists _, _. split; [reflexivity|]. simpl.
      split; [fin|]. split; [fin|]. right. eexists task, _. split; fin.
  - eexists _, _. split; [reflexivity|]. simpl.
    split; [fin|]. split; [fin|]. left. repeat split.
Qed.

Lemma clearAllTasks_outcome (w : World) :
  exists w' d,
    ScheduleManager.clearAllTasks w = (Ok tt, w') /\
    host w' = host w /\ observers w' = observers w /\
    tasks w' = [] /\
    published w' = published w ++ [(ScheduleEvent.SCHEDULE_CLEARED, d)].
Proof.
  unfold ScheduleManager.clearAllTasks. unfold_methods. simpl.
  notify_step. eexists _, _. split; [reflexivity|]. simpl.
  split; [fin|]. split; [fin|]. split; fin.
Qed.

(** The loop of [importFromJSON]. *)
Lemma import_loop (items : list JSON.task) :
  forall w,
    forEach items (fun taskData =>
      task <- hosted (fun h => Ok (fromJSON h taskData)) ;;
      lift (ValidationService.validateTask task) ;;
      writes (fun w => with_tasks (JSMap.set (id task) task (tasks w)) w)) w
    = (fst (imported (host w) items (tasks w)),
       with_tasks (snd (imported (host w) items (tasks w))) w).
Proof.
  induction items as [|j rest IH]; intros w; simpl.
  - destruct w; reflexivity.
  - unfold bind at 1. unfold bind at 1. unfold hosted at 1.
    unfold bind at 1. unfold lift at 1.
    destruct (ValidationService.validateTask (fromJSON (host w) j)) as [[]|e].
    + unfold writes at 1. rewrite IH. simpl. reflexivity.
    + destruct w; reflexivity.
Qed.

(** The loop of [importFromJSON], on items of any shape. *)
Lemma import_loop_loose (items : list JSON.any) :
  forall w,
    forEach items ScheduleManager.importItem w
    = (fst (importedLoose (host w) items (tasks w)),
       with_tasks (snd (importedLoose (host w) items (tasks w))) w).
Proof.
  induction items as [|j rest IH]; intros w; simpl.
  - destruct w; reflexivity.
  - unfold bind at 1. unfold ScheduleManager.importItem at 1.
    destruct (JSON.record j) as [obj|].
    + unfold bind at 1. unfold hosted at 1. unfold bind at 1. unfold lift at 1.
      destruct (ValidationService.validateTask (fromJSON (host w) obj)) as [[]|e].
      * unfold writes at 1. rewrite IH. simpl. reflexivity.
      * destruct w; reflexivity.
    + destruct (Untyped.refusal j) as [e|]; destruct w; reflexivity.
Qed.

Lemma importFromJSON_outcome (jsonString : string) (w : World) :
  exists r w',
    ScheduleManager.importFromJSON jsonString w = (r, w') /\
    host w' = host w /\ observers w' = observers w /\
    ((exists e,
        (JSON_parse (host w) jsonString = Throw e \/
         (JSON_parse (host w) jsonString = Ok JSON.NotArray /\
          e = PlainError "JSON must contain an array of tasks")) /\
        r = Throw e /\ tasks w' = tasks w /\ published w' = published w)
     \/
     (exists items,
        JSON_parse (host w) jsonString = Ok (JSON.Array items) /\
        tasks w' = snd (imported (host w) items []) /\
        ((exists e, fst (imported (host w) items []) = Throw e /\ r = Throw e /\
                    published w' = published w)
         \/
         (exists d, fst (imported (host w) items []) = Ok tt /\ r = Ok tt /\
                    published w' = published w ++ [(ScheduleEvent.SCHEDULE_IMPORTED, d)] /\
                    IEventData.data d
                    = Some [("importedCount", VNumber (List.length items))])))
     \/
     (exists items,
        JSON_parse (host w) jsonString = Ok (JSON.Loose items) /\
        tasks w' = snd (importedLoose (host w) items []) /\
        ((exists e, fst (importedLoose (host w) items []) = Throw e /\ r = Throw e /\
                    published w' = published w)
         \/
         (exists d, fst (importedLoose (host w) items []) = Ok tt /\ r = Ok tt /\
                    published w' = published w ++ [(ScheduleEvent.SCHEDULE_IMPORTED, d)] /\
                    IEventData.data d
                    = Some [("importedCount", VNumber (List.length items))])))).
Proof.
  unfold ScheduleManager.importFromJSON.
  unfold tryCatch at 1. unfold bind at 1. unfold hosted at 1.
  destruct (JSON_parse (host w) jsonString) as [[items| |items]|e] eqn:P.
  - unfold bind at 1. unfold writes at 1. unfold bind at 1.
    rewrite import_loop. simpl fst. simpl host. simpl tasks.
    destruct (imported (host w) items []) as [[[]|e] m] eqn:I; simpl fst; simpl snd.
    + unfold_methods. simpl. notify_step.
      eexists _, _. split; [reflexivity|]. simpl.
      split; [fin|]. split; [fin|]. right. left. exists items. rewrite I. simpl.
      split; [fin|]. split; [fin|]. right. eexists.
      split; [fin|]. split; [fin|]. split; [fin|]. reflexivity.
    + unfold_methods. simpl.
      eexists _, _. split; [reflexivity|]. simpl.
      split; [fin|]. split; [fin|]. right. left. exists items. rewrite I. simpl.
      split; [fin|]. split; [fin|]. left. exists e. repeat split.
  - unfold_methods. simpl.
    eexists _, _. split; [reflexivity|]. simpl.
    split; [fin|]. split; [fin|]. left. eexists. 
    split; [right; split; reflexivity|]. repeat split.
  - unfold bind at 1. unfold writes at 1. unfold bind at 1.
    rewrite import_loop_loose. simpl fst. simpl host. simpl tasks.
    destruct (importedLoose (host w) items []) as [[[]|e] m] eqn:I; simpl fst; simpl snd.
    + unfold_methods. simpl. notify_step.
      eexists _, _. split; [reflexivity|]. simpl.
      split; [fin|]. split; [fin|]. right. right. exists items. rewrite I. simpl.
      split; [fin|]. split; [fin|]. right. eexists.
      split; [fin|]. split; [fin|]. split; [fin|]. reflexivity.
    + unfold_methods. simpl.
      eexists _, _. split; [reflexivity|]. simpl.
      split; [fin|]. split; [fin|]. right. right. exists items. rewrite I. simpl.
      split; [fin|]. split; [fin|]. left. exists e. repeat split.
  - unfold_methods. simpl.
    eexists _, _. split; [reflexivity|]. simpl.
    split; [fin|]. split; [fin|]. left. exists e.
    split; [left; reflexivity|]. repeat split.
Qed.

(** ** The map *)

Lemma values_In {V : Type} (m : JSMap.t V) (v : V) :
  In v (JSMap.values m) <-> exists k, In (k, v) m.
Proof.
  unfold JSMap.values. rewrite in_map_iff. split.
  - intros ([k v'] & E & H). simpl in E. subst. exists k. exact H.
  - intros (k & H). exists (k, v). split; [reflexivity | exact H].
Qed.

Lemma keys_In {V : Type} (m : JSMap.t V) (k : string) (v : V) :
  In (k, v) m -> In k (JSMap.keys m).
Proof. intros H. unfold JSMap.keys. apply in_map_iff. exists (k, v). split; [reflexivity|exact H]. Qed.

Lemma set_In {V : Type} (k : string) (v : V) (m : JSMap.t V) (k' : string) (v' : V) :
  NoDup (JSMap.keys m) ->
  In (k', v') (JSMap.set k v m) ->
  (k' = k /\ v' = v) \/ (k' <> k /\ In (k', v') m).
Proof.
  induction m as [|[k0 v0] rest IH]; simpl; intros ND H.
  - destruct H as [[= <- <-]|[]]. left. split; reflexivity.
  - inversion ND as [|? ? Hnot ND']; subst.
    destruct (String.eqb k0 k) eqn:E.
    + apply String.eqb_eq in E. subst k0. destruct H as [[= <- <-]|H].
      * left. split; reflexivity.
      * right. split; [|right; exact H].
        intros ->. apply Hnot. eapply keys_In; eauto.
    + apply String.eqb_neq in E. destruct H as [[= <- <-]|H].
      * right. split; [exact E | left; reflexivity].
      * destruct (IH ND' H) as [L|[N I]]; [left; exact L | right; split; [exact N | right; exact I]].
Qed.

Lemma set_keys {V : Type} (k : string) (v : V) (m : JSMap.t V) :
  NoDup (JSMap.keys m) -> NoDup (JSMap.keys (JSMap.set k v m)).
Proof.
  induction m as [|[k0 v0] rest IH]; simpl; intros ND.
  - constructor; [intros [] | constructor].
  - inversion ND as [|? ? Hnot ND']; subst.
    destruct (String.eqb k0 k) eqn:E.
    + apply String.eqb_eq in E. subst k0. simpl. constructor; assumption.
    + apply String.eqb_neq in E. simpl. constructor; [|apply IH; exact ND'].
      intros H. unfold JSMap.keys in H. apply in_map_iff in H.
      destruct H as ([k1 v1] & E1 & H1). simpl in E1. subst k1.
      assert (NoDup (JSMap.keys rest)) as ND'' by exact ND'.
      destruct (set_In k v rest k0 v1 ND'' H1) as [[-> _]|[_ I]].
      * apply E. reflexivity.
      * apply Hnot. eapply keys_In; eauto.
Qed.

Lemma remove_In {V : Type} (k : string) (m : JSMap.t V) (k' : string) (v' : V) :
  In (k', v') (JSMap.remove k m) -> In (k', v') m.
Proof.
  induction m as [|[k0 v0] rest IH]; simpl; [tauto|].
  destruct (String.eqb k0 k); simpl; [tauto|].
  intros [H|H]; [left; exact H | right; apply IH; exact H].
Qed.

Lemma remove_keys {V : Type} (k : string) (m : JSMap.t V) :
  NoDup (JSMap.keys m) -> NoDup (JSMap.keys (JSMap.remove k m)).
Proof.
  induction m as [|[k0 v0] rest IH]; simpl; intros ND; [constructor|].
  inversion ND as [|? ? Hnot ND']; subst.
  destruct (String.eqb k0 k); simpl; [exact ND'|].
  constructor; [|apply IH; exact ND'].
  intros H. apply Hnot. unfold JSMap.keys in *. apply in_map_iff in H.
  destruct H as ([k1 v1] & E1 & H1). simpl in E1. subst k1.
  apply in_map_iff. exists (k0, v1). split; [reflexivity|]. eapply remove_In; eauto.
Qed.

Lemma store_keys (k : string) (changed : Task) (m : JSMap.t Task) :
  JSMap.keys (ScheduleManager.store k changed m) = JSMap.keys m.
Proof.
  induction m as [|[k0 v0] rest IH]; simpl; [reflexivity|].
  destruct (String.eqb k0 k); simpl; [reflexivity | rewrite IH; reflexivity].
Qed.

Lemma store_In (k : string) (changed : Task) (m : JSMap.t Task) (k' : string) (v' : Task) :
  NoDup (JSMap.keys m) ->
  In (k', v') (ScheduleManager.store k changed m) ->
  (k' = k /\ v' = changed) \/ (k' <> k /\ In (k', v') m).
Proof.
  induction m as [|[k0 v0] rest IH]; simpl; intros ND H; [tauto|].
  inversion ND as [|? ? Hnot ND']; subst.
  destruct (String.eqb k0 k) eqn:E.
  - apply String.eqb_eq in E. subst k0. destruct H as [[= <- <-]|H].
    + left. split; reflexivity.
    + right. split; [|right; exact H].
      intros ->. apply Hnot. eapply keys_In; eauto.
  - apply String.eqb_neq in E. destruct H as [[= <- <-]|H].
    + right. split; [exact E | left; reflexivity].
    + destruct (IH ND' H) as [L|[N I]]; [left; exact L | right; split; [exact N | right; exact I]].
Qed.

Lemma get_In {V : Type} (k : string) (m : JSMap.t V) (v : V) :
  JSMap.get k m = Some v -> In (k, v) m.
Proof.
  induction m as [|[k0 v0] rest IH]; simpl; [discriminate|].
  destruct (String.eqb k0 k) eqn:E.
  - apply String.eqb_eq in E. subst. intros [= ->]. left. reflexivity.
  - intros H. right. apply IH. exact H.
Qed.

Lemma sameSlots_refl (m : JSMap.t Task) : sameSlots m m.
Proof.
  induction m as [|x rest IH]; constructor; [|exact IH].
  split; [reflexivity|]. repeat split; reflexivity.
Qed.

Lemma storeFound_sameSlots (description' : string) (changed task : Task) (m : JSMap.t Task) :
  find (fun task => String.eqb (toLowerCase (description task)) (toLowerCase description'))
       (JSMap.values m) = Some task ->
  sameSlot task changed ->
  sameSlots m (ScheduleManager.storeFound description' changed m).
Proof.
  intros F S. induction m as [|[k0 v0] rest IH]; simpl in *; [discriminate|].
  destruct (String.eqb (toLowerCase (description v0)) (toLowerCase description')).
  - injection F as ->. constructor; [|apply sameSlots_refl]. split; [reflexivity|exact S].
  - constructor; [|apply IH; exact F]. split; [reflexivity|]. repeat split; reflexivity.
Qed.

Lemma sameSlots_In (m m' : JSMap.t Task) (k : string) (t' : Task) :
  sameSlots m m' -> In (k, t') m' -> exists t, In (k, t) m /\ sameSlot t t'.
Proof.
  intros H. induction H as [|[k0 v0] [k1 v1] l l' [E S] _ IH]; simpl; [tauto|].
  simpl in E, S. subst k1. intros [[= <- <-]|I].
  - exists v0. split; [left; reflexivity | exact S].
  - destruct (IH I) as (t & It & St). exists t. split; [right; exact It | exact St].
Qed.

Lemma sameSlots_keys (m m' : JSMap.t Task) : sameSlots m m' -> JSMap.keys m' = JSMap.keys m.
Proof.
  intros H. induction H as [|[k0 v0] [k1 v1] l l' [E S] _ IH]; simpl; [reflexivity|].
  simpl in E. subst. f_equal. exact IH.
Qed.

Lemma validateTask_ext (a b : Task) :
  description a = description b -> startTime a = startTime b -> endTime a = endTime b ->
  ValidationService.validateTask a = ValidationService.validateTask b.
Proof.
  intros Hd Hs He. unfold ValidationService.validateTask. rewrite Hd, Hs, He. reflexivity.
Qed.

Lemma overlapOf_ext (a a' b b' : Task) :
  startTime a = startTime a' -> endTime a = endTime a' ->
  startTime b = startTime b' -> endTime b = endTime b' ->
  overlapOf a b = overlapOf a' b'.
Proof. intros H1 H2 H3 H4. unfold overlapOf. rewrite H1, H2, H3, H4. reflexivity. Qed.

Lemma sameSlots_keyed (m m' : JSMap.t Task) : sameSlots m m' -> keyed m -> keyed m'.
Proof.
  intros H [ND K]. split.
  - rewrite (sameSlots_keys _ _ H). exact ND.
  - intros k t' I. destruct (sameSlots_In _ _ _ _ H I) as (t & It & (Si & _)).
    rewrite <- Si. apply K. exact It.
Qed.

Lemma sameSlots_allValid (m m' : JSMap.t Task) : sameSlots m m' -> allValid m -> allValid m'.
Proof.
  intros H V t' I. apply values_In in I. destruct I as (k & I).
  destruct (sameSlots_In _ _ _ _ H I) as (t & It & (_ & Sd & Ss & Se)).
  rewrite <- (validateTask_ext t t' Sd Ss Se). apply V. apply values_In. exists k. exact It.
Qed.

Lemma sameSlots_nonOverlapping (m m' : JSMap.t Task) :
  sameSlots m m' -> nonOverlapping m -> nonOverlapping m'.
Proof.
  intros H N a' b' Ia Ib D. apply values_In in Ia, Ib.
  destruct Ia as (ka & Ia), Ib as (kb & Ib).
  destruct (sameSlots_In _ _ _ _ H Ia) as (a & Ja & (Ai & _ & As' & Ae)).
  destruct (sameSlots_In _ _ _ _ H Ib) as (b & Jb & (Bi & _ & Bs & Be)).
  rewrite <- (overlapOf_ext a a' b b' As' Ae Bs Be).
  apply N; [apply values_In; eauto | apply values_In; eauto | congruence].
Qed.

(** ** The search for a conflict *)


Lemma checkTaskOverlap_None (newTask : Task) (l : list Task) :
  ValidationService.checkTaskOverlap newTask l = Ok None ->
  forall t, In t l -> id t <> id newTask -> overlapOf newTask t = Ok false.
Proof.
  induction l as [|t rest IH]; simpl; [tauto|].
  destruct (String.eqb (id t) (id newTask)) eqn:E.
  - apply String.eqb_eq in E. intros H x [<-|I] N; [contradiction | apply IH; assumption].
  - destruct (TimeUtils.doTimeRangesOverlap _ _ _ _) as [[|]|e] eqn:O; simpl; try discriminate.
    intros H x [<-|I] N; [exact O | apply IH; assumption].
Qed.


(** ** The invariants are kept *)

Lemma after_then_ret {A B : Type} (m : M A) (f : A -> B) (w : World) :
  after (x <- m ;; ret (f x)) w = after m w.
Proof. unfold after, bind, ret. destruct (m w) as [[a|e] w']; reflexivity. Qed.

Lemma set_keyed (task : Task) (m : JSMap.t Task) :
  keyed m -> keyed (JSMap.set (id task) task m).
Proof.
  intros [ND K]. split; [apply set_keys; exact ND|].
  intros k t I. destruct (set_In _ _ _ _ _ ND I) as [[-> ->]|[_ I']];
    [reflexivity | apply K; exact I'].
Qed.

Lemma set_allValid (task : Task) (m : JSMap.t Task) :
  keyed m -> ValidationService.validateTask task = Ok tt ->
  allValid m -> allValid (JSMap.set (id task) task m).
Proof.
  intros [ND K] V A t I. apply values_In in I. destruct I as (k & I).
  destruct (set_In _ _ _ _ _ ND I) as [[_ ->]|[_ I']]; [exact V|].
  apply A. apply values_In. exists k. exact I'.
Qed.

Lemma overlapOf_false_sym (a b : Task) :
  ValidationService.validateTask a = Ok tt ->
  ValidationService.validateTask b = Ok tt ->
  overlapOf a b = Ok false -> overlapOf b a = Ok false.
Proof.
  intros Va Vb O. destruct (overlapOf_valid a b Va Vb) as (o & O1 & O2). congruence.
Qed.

Lemma set_nonOverlapping (task : Task) (m : JSMap.t Task) :
  keyed m -> allValid m -> ValidationService.validateTask task = Ok tt ->
  ValidationService.checkTaskOverlap task (JSMap.values m) = Ok None ->
  nonOverlapping m -> nonOverlapping (JSMap.set (id task) task m).
Proof.
  intros [ND K] A V C N a b Ia Ib D.
  apply values_In in Ia, Ib. destruct Ia as (ka & Ia), Ib as (kb & Ib).
  destruct (set_In _ _ _ _ _ ND Ia) as [[-> ->]|[Na Ja]];
    destruct (set_In _ _ _ _ _ ND Ib) as [[-> ->]|[Nb Jb]].
  - contradiction D. reflexivity.
  - apply (checkTaskOverlap_None _ _ C); [apply values_In; eauto|].
    rewrite (K _ _ Jb). exact Nb.
  - apply overlapOf_false_sym; [exact V | apply A; apply values_In; eauto|].
    apply (checkTaskOverlap_None _ _ C); [apply values_In; eauto|].
    rewrite (K _ _ Ja). exact Na.
  - apply N; [apply values_In; eauto | apply values_In; eauto | exact D].
Qed.

Lemma remove_keyed (k : string) (m : JSMap.t Task) : keyed m -> keyed (JSMap.remove k m).
Proof.
  intros [ND K]. split; [apply remove_keys; exact ND|].
  intros k' t I. apply K. eapply remove_In; eauto.
Qed.

Lemma remove_values (k : string) (m : JSMap.t Task) (t : Task) :
  In t (JSMap.values (JSMap.remove k m)) -> In t (JSMap.values m).
Proof.
  intros I. apply values_In in I. destruct I as (k' & I).
  apply values_In. exists k'. eapply remove_In; eauto.
Qed.

Lemma store_keyed (k : string) (changed : Task) (m : JSMap.t Task) :
  id changed = k -> keyed m -> keyed (ScheduleManager.store k changed m).
Proof.
  intros E [ND K]. split; [rewrite store_keys; exact ND|].
  intros k' t I. destruct (store_In _ _ _ _ _ ND I) as [[-> ->]|[_ I']];
    [exact E | apply K; exact I'].
Qed.

Lemma store_allValid (k : string) (changed : Task) (m : JSMap.t Task) :
  keyed m -> ValidationService.validateTask changed = Ok tt ->
  allValid m -> allValid (ScheduleManager.store k changed m).
Proof.
  intros [ND K] V A t I. apply values_In in I. destruct I as (k' & I).
  destruct (store_In _ _ _ _ _ ND I) as [[_ ->]|[_ I']]; [exact V|].
  apply A. apply values_In. exists k'. exact I'.
Qed.

Lemma store_nonOverlapping (k : string) (changed : Task) (m : JSMap.t Task) :
  keyed m -> allValid m -> id changed = k ->
  ValidationService.validateTask changed = Ok tt ->
  ValidationService.checkTaskOverlap changed
    (filter (fun t => negb (String.eqb (id t) k)) (JSMap.values m)) = Ok None ->
  nonOverlapping m -> nonOverlapping (ScheduleManager.store k changed m).
Proof.
  intros [ND K] A E V C N a b Ia Ib D.
  apply values_In in Ia, Ib. destruct Ia as (ka & Ia), Ib as (kb & Ib).
  assert (forall k' t, k' <> k -> In (k', t) m ->
                       overlapOf changed t = Ok false) as Free.
  { intros k' t Nk I. apply (checkTaskOverlap_None _ _ C).
    - apply filter_In. split; [apply values_In; eauto|].
      rewrite (K _ _ I). apply negb_true_iff. apply String.eqb_neq. exact Nk.
    - rewrite (K _ _ I), E. exact Nk. }
  destruct (store_In _ _ _ _ _ ND Ia) as [[-> ->]|[Na Ja]];
    destruct (store_In _ _ _ _ _ ND Ib) as [[-> ->]|[Nb Jb]].
  - contradiction D. reflexivity.
  - eapply Free; eauto.
  - apply overlapOf_false_sym; [exact V | apply A; apply values_In; eauto|].
    eapply Free; eauto.
  - apply N; [apply values_In; eauto | apply values_In; eauto | exact D].
Qed.

Lemma imported_sound (h : Host) (items : list JSON.task) :
  forall m, keyed m -> allValid m ->
            keyed (snd (imported h items m)) /\ allValid (snd (imported h items m)).
Proof.
  induction items as [|j rest IH]; simpl; intros m K A; [split; assumption|].
  destruct (ValidationService.validateTask (fromJSON h j)) as [[]|e] eqn:V; simpl.
  - apply IH; [apply set_keyed; exact K | apply set_allValid; assumption].
  - split; assumption.
Qed.

Lemma importedLoose_sound (h : Host) (items : list JSON.any) :
  forall m, keyed m -> allValid m ->
            keyed (snd (importedLoose h items m)) /\ allValid (snd (importedLoose h items m)).
Proof.
  induction items as [|j rest IH]; simpl; intros m K A; [split; assumption|].
  destruct (JSON.record j) as [obj|].
  - destruct (ValidationService.validateTask (fromJSON h obj)) as [[]|e] eqn:V; simpl.
    + apply IH; [apply set_keyed; exact K | apply set_allValid; assumption].
    + split; assumption.
  - destruct (Untyped.refusal j); simpl; split; assumption.
Qed.

Lemma keyed_empty : keyed [].
Proof. split; [constructor | intros k t []]. Qed.

Lemma allValid_empty : allValid [].
Proof. intros t []. Qed.

Lemma nonOverlapping_empty : nonOverlapping [].
Proof. intros a b []. Qed.

Lemma attach_worlds (observer : IObserver.t) (w : World) :
  host (after (ScheduleManager.attach observer) w) = host w /\
  tasks (after (ScheduleManager.attach observer) w) = tasks w.
Proof.
  unfold ScheduleManager.attach, after. unfold_methods. simpl.
  destruct (existsb _ _); simpl; split; reflexivity.
Qed.

Lemma detach_worlds (observer : IObserver.t) (w : World) :
  host (after (ScheduleManager.detach observer) w) = host w /\
  tasks (after (ScheduleManager.detach observer) w) = tasks w.
Proof.
  unfold ScheduleManager.detach, after. unfold_methods. simpl.
  destruct (existsb _ _); simpl; split; reflexivity.
Qed.

Lemma notify_worlds (event : string) (data : IEventData.t) (w : World) :
  host (after (ScheduleManager.notify event data) w) = host w /\
  tasks (after (ScheduleManager.notify event data) w) = tasks w.
Proof.
  unfold after. destruct (notify_spec event data w) as (w' & E & Hh & Ht & _).
  rewrite E. simpl. split; assumption.
Qed.

(** Each operation keeps the platform, the keys and the validity of what is
    stored. *)
Lemma perform_sound (op : Operation) (w : World) :
  keyed (tasks w) -> allValid (tasks w) ->
  host (after (perform op) w) = host w /\
  keyed (tasks (after (perform op) w)) /\ allValid (tasks (after (perform op) w)).
Proof.
  intros K A. destruct op; unfold perform; rewrite after_then_ret; unfold after.
  - destruct (addTask_outcome task w) as (r & w' & E & Hh & _ & Cases). rewrite E. simpl.
    split; [exact Hh|].
    destruct Cases as [(e & d & _ & _ & Ht & _)|[(c & e & d1 & d2 & _ & _ & _ & _ & Ht & _)
      |[(e & d & V & _ & _ & _ & Ht & _)|(p & d & V & _ & _ & _ & Ht & _)]]];
      rewrite Ht; try (split; assumption);
      (split; [apply set_keyed; exact K | apply set_allValid; assumption]).
  - destruct (removeTask_outcome description' w) as (r & w' & E & Hh & _ & Cases).
    rewrite E. simpl. split; [exact Hh|].
    destruct Cases as [(_ & _ & Ht & _)|(task & _ & Ht)]; rewrite Ht; [split; assumption|].
    split; [apply remove_keyed; exact K|].
    intros t I. apply A. eapply remove_values; eauto.
  - destruct (updateTask_outcome taskId updatedTask w) as (r & w' & E & Hh & _ & Cases).
    rewrite E. simpl. split; [exact Hh|].
    destruct Cases as [(_ & _ & Ht & _)|[(task & e & _ & _ & _ & Ht & _)
      |[(task & c & _ & _ & _ & Ht & _)|(task & changed & G & V & C & -> & Ht & _)]]];
      rewrite Ht; try (split; assumption).
    split.
    + apply store_keyed; [|exact K]. simpl. apply (proj2 K). apply get_In. exact G.
    + apply store_allValid; [exact K | | exact A].
      rewrite <- V. apply validateTask_ext; reflexivity.
  - destruct (markTaskCompleted_outcome description' w) as (r & w' & E & Hh & _ & Cases).
    rewrite E. simpl. split; [exact Hh|].
    destruct Cases as [(_ & Ht & _)|(task & d & F & Ht)]; rewrite Ht; [split; assumption|].
    assert (sameSlots (tasks w)
              (ScheduleManager.storeFound description' (stamp d (setCompleted true task))
                 (tasks w))) as S
      by (apply (storeFound_sameSlots _ _ task); [exact F | repeat split; reflexivity]).
    split; [eapply sameSlots_keyed; eauto | eapply sameSlots_allValid; eauto].
  - destruct (clearAllTasks_outcome w) as (w' & d & E & Hh & _ & Ht & _).
    rewrite E. simpl. split; [exact Hh|]. rewrite Ht.
    split; [apply keyed_empty | apply allValid_empty].
  - destruct (importFromJSON_outcome jsonString w) as (r & w' & E & Hh & _ & Cases).
    rewrite E. simpl. split; [exact Hh|].
    destruct Cases as [(e & _ & _ & Ht & _)|[(items & _ & Ht & _)|(items & _ & Ht & _)]];
      rewrite Ht; [split; assumption| |].
    + apply imported_sound; [apply keyed_empty | apply allValid_empty].
    + apply importedLoose_sound; [apply keyed_empty | apply allValid_empty].
Qed.

(** In every state of the manager each task is stored under its identifier
    and passes [validateTask]. *)
Lemma reachable_sound (allowed : Operation -> Prop) (h : Host) (w : World) :
  reachable allowed h w -> host w = h /\ keyed (tasks w) /\ allValid (tasks w).
Proof.
  induction 1 as [|op w _ _ (Hh & K & A)|ev d w _ (Hh & K & A)
                  |o w _ (Hh & K & A)|o w _ (Hh & K & A)].
  - simpl. split; [reflexivity|]. split; [apply keyed_empty | apply allValid_empty].
  - destruct (perform_sound op w K A) as (Hh' & K' & A').
    split; [congruence|]. split; assumption.
  - destruct (notify_worlds ev d w) as [Eh Et]. rewrite Eh, Et. repeat split; assumption || apply K.
  - destruct (attach_worlds o w) as [Eh Et]. rewrite Eh, Et. repeat split; assumption || apply K.
  - destruct (detach_worlds o w) as [Eh Et]. rewrite Eh, Et. repeat split; assumption || apply K.
Qed.

(** Each operation other than the import keeps the stored tasks from
    overlapping. *)
Lemma perform_nonOverlapping (op : Operation) (w : World) :
  notImport op -> keyed (tasks w) -> allValid (tasks w) ->
  nonOverlapping (tasks w) -> nonOverlapping (tasks (after (perform op) w)).
Proof.
  intros NI K A N. destruct op; unfold perform; rewrite after_then_ret; unfold after;
    try contradiction.
  - destruct (addTask_outcome task w) as (r & w' & E & Hh & _ & Cases). rewrite E. simpl.
    destruct Cases as [(e & d & _ & _ & Ht & _)|[(c & e & d1 & d2 & _ & _ & _ & _ & Ht & _)
      |[(e & d & V & C & _ & _ & Ht & _)|(p & d & V & C & _ & _ & Ht & _)]]];
      rewrite Ht; try assumption; apply set_nonOverlapping; assumption.
  - destruct (removeTask_outcome description' w) as (r & w' & E & Hh & _ & Cases).
    rewrite E. simpl.
    destruct Cases as [(_ & _ & Ht & _)|(task & _ & Ht)]; rewrite Ht; [assumption|].
    intros a b Ia Ib D. apply N; [eapply remove_values; eauto.. | exact D].
  - destruct (updateTask_outcome taskId updatedTask w) as (r & w' & E & Hh & _ & Cases).
    rewrite E. simpl.
    destruct Cases as [(_ & _ & Ht & _)|[(task & e & _ & _ & _ & Ht & _)
      |[(task & c & _ & _ & _ & Ht & _)|(task & changed & G & V & C & -> & Ht & _)]]];
      rewrite Ht; try assumption.
    assert (id task = taskId) as Ei by (apply (proj2 K); apply get_In; exact G).
    apply store_nonOverlapping; [exact K | exact A | exact Ei | | | exact N].
    + rewrite <- V. apply validateTask_ext; reflexivity.
    + unfold othersThan in C. rewrite <- C. apply checkTaskOverlap_ext; reflexivity.
  - destruct (markTaskCompleted_outcome description' w) as (r & w' & E & Hh & _ & Cases).
    rewrite E. simpl.
    destruct Cases as [(_ & Ht & _)|(task & d & F & Ht)]; rewrite Ht; [assumption|].
    eapply sameSlots_nonOverlapping; [|exact N].
    apply (storeFound_sameSlots _ _ task); [exact F | repeat split; reflexivity].
  - destruct (clearAllTasks_outcome w) as (w' & d & E & Hh & _ & Ht & _).
    rewrite E. simpl. rewrite Ht. apply nonOverlapping_empty.
Qed.

(** Without [importFromJSON], no state of the manager holds two distinct
    tasks that overlap. *)
Lemma reachable_nonOverlapping (h : Host) (w : World) :
  reachable notImport h w -> nonOverlapping (tasks w).
Proof.
  induction 1 as [|op w Hop R IH|ev d w R IH|o w R IH|o w R IH].
  - apply nonOverlapping_empty.
  - destruct (reachable_sound _ _ _ R) as (_ & K & A).
    apply perform_nonOverlapping; assumption.
  - rewrite (proj2 (notify_worlds ev d w)). exact IH.
  - rewrite (proj2 (attach_worlds o w)). exact IH.
  - rewrite (proj2 (detach_worlds o w)). exact IH.
Qed.

(** ** The claims about [removeTask] and [addTask] *)

#[local] Transparent String.append.

(** A call, by what it returns or throws. *)
Lemma run_eq {A : Type} (m : M A) (w : World) (r : Res A) :
  fst (m w) = r -> m w = (r, after m w).
Proof. intros <-. unfold after. destruct (m w); reflexivity. Qed.

Lemma find_none_iff {A : Type} (p : A -> bool) (l : list A) :
  (forall x, In x l -> p x = false) -> find p l = None.
Proof.
  induction l as [|x rest IH]; simpl; intros H; [reflexivity|].
  rewrite (H x (or_introl eq_refl)). apply IH. intros y Hy. apply H. right. exact Hy.
Qed.

(** C9. When no stored task has the description, letter case apart,
    [removeTask] returns false: it does not throw, passes no event to
    [notify], calls no listener and leaves the schedule as it is. *)
Theorem removeTask_not_found :
  forall (description' : string) (w : World),
    (forall t, In t (JSMap.values (tasks w)) ->
               toLowerCase (description t) <> toLowerCase description') ->
    exists w',
      ScheduleManager.removeTask description' w = (Ok false, w') /\
      tasks w' = tasks w /\
      published w' = published w /\
      delivered w' = delivered w /\
      observers w' = observers w.
Proof.
  intros description' w H.
  destruct (removeTask_outcome description' w) as (r & w' & E & _ & Ho & Cases).
  assert (foundBy description' w = None) as F.
  { unfold foundBy. apply find_none_iff. intros t I.
    apply String.eqb_neq. apply H. exact I. }
  destruct Cases as [(_ & -> & Ht & Hp & Hd)|(task & F' & _)]; [|congruence].
  exists w'. repeat split; assumption.
Qed.

Lemma removeTask_not_found_witness :
  (forall t, In t (JSMap.values (tasks (Demo.twoTasks Demo.host0))) ->
             toLowerCase (description t) <> toLowerCase "Spacewalk") /\
  exists w',
    ScheduleManager.removeTask "Spacewalk" (Demo.twoTasks Demo.host0) = (Ok false, w') /\
    tasks w' = tasks (Demo.twoTasks Demo.host0) /\
    published w' = published (Demo.twoTasks Demo.host0) /\
    delivered w' = delivered (Demo.twoTasks Demo.host0) /\
    observers w' = observers (Demo.twoTasks Demo.host0).
Proof.
  assert (forall t, In t (JSMap.values (tasks (Demo.twoTasks Demo.host0))) ->
                    toLowerCase (description t) <> toLowerCase "Spacewalk") as H.
  { intros t I. vm_compute in I. destruct I as [<-|[<-|[]]]; vm_compute; discriminate. }
  split; [exact H|].
  apply (removeTask_not_found "Spacewalk" (Demo.twoTasks Demo.host0) H).
Defined.

(** A description in another letter case finds the task. *)
Example removeTask_ignores_case :
  fst (ScheduleManager.removeTask "TEAM BRIEFING" (Demo.twoTasks Demo.host0)) = Ok true /\
  JSMap.keys (tasks (after (ScheduleManager.removeTask "TEAM BRIEFING")
                       (Demo.twoTasks Demo.host0))) = ["TASK-1"].
Proof. vm_compute. split; reflexivity. Qed.




Lemma publishedSince_app (w w' : World) (events : list (string * IEventData.t)) :
  published w' = published w ++ events -> publishedSince w w' = events.
Proof.
  intros H. unfold publishedSince. rewrite H.
  rewrite skipn_app, skipn_all, Nat.sub_diag. reflexivity.
Qed.

Lemma toJSON_dated (h : Host) (t : Task) : dated t -> exists plain, toJSON h t = Ok plain.
Proof.
  intros [C U]. unfold toJSON, Date_toISOString.
  destruct (createdAt t) as [created|]; [|contradiction C; reflexivity].
  destruct (updatedAt t) as [[updated|]|]; simpl.
  - eexists. reflexivity.
  - contradiction U. reflexivity.
  - eexists. reflexivity.
Qed.


Lemma twoTasks_reachable (h : Host) : reachable anyOperation h (Demo.twoTasks h).
Proof.
  unfold Demo.twoTasks.
  apply reachable_perform; [exact I|]. apply reachable_perform; [exact I|].
  apply reachable_create.
Qed.



(** ** The claims about [updateTask] and the event payloads *)



Lemma threeTasks_reachable (h : Host) : reachable anyOperation h (Demo.threeTasks h).
Proof.
  unfold Demo.threeTasks. apply reachable_perform; [exact I | apply twoTasks_reachable].
Qed.


(** [addTask] stores a task before it serialises it: the task with the
    invalid creation date is in the schedule although the call threw. *)
Example addTask_undated_is_stored :
  thrown (fst (ScheduleManager.addTask Demo.undated
                 (Demo.twoTasks Demo.host0)))
  = Some "RangeError" /\
  JSMap.keys (tasks (Demo.threeTasks Demo.host0)) = ["TASK-1"; "TASK-2"; "TASK-5"].
Proof. vm_compute. split; reflexivity. Qed.

(** C8, at a conflicting [addTask] and a conflicting [updateTask]. The
    events have a timestamp and a message, but [EventDataFactory] puts the
    payload in [data] and leaves [context], which the listeners read, unset.
    TASK_CONFLICT holds the two tasks under [newTask] and [existingTask],
    nothing under [task] or [conflictingTask]; TASK_ADD_FAILED holds
    [errorName] in [data]; TASK_UPDATE_FAILED holds no [errorName] at all. *)
Theorem event_payloads_of_the_failure_events :
  exists (conflict addFailed updateFailed : IEventData.t),
    publishedSince (Demo.twoTasks Demo.host0)
      (after (ScheduleManager.addTask Demo.repair) (Demo.twoTasks Demo.host0))
    = [(ScheduleEvent.TASK_CONFLICT, conflict); (ScheduleEvent.TASK_ADD_FAILED, addFailed)] /\
    publishedSince (Demo.twoTasks Demo.host0)
      (after (ScheduleManager.updateTask "TASK-2" Demo.moveOnto) (Demo.twoTasks Demo.host0))
    = [(ScheduleEvent.TASK_UPDATE_FAILED, updateFailed)] /\
    (IEventData.timestamp conflict = DateOf (now Demo.host0 2) /\
     IEventData.message conflict
     = Some ("Task " +++ quoted "Antenna Repair" +++ " conflicts with "
             +++ quoted "Morning Exercise") /\
     IEventData.context conflict = None /\
     contextProperty "task" conflict = None /\
     contextProperty "conflictingTask" conflict = None /\
     IEventData.data conflict
     = Some [("newTask", VTask Demo.repair); ("existingTask", VTask Demo.exercise)] /\
     dataProperty "task" conflict = None /\
     dataProperty "conflictingTask" conflict = None) /\
    (IEventData.context addFailed = None /\
     contextProperty "errorName" addFailed = None /\
     dataProperty "errorName" addFailed = Some (VString "TaskConflictError")) /\
    (IEventData.context updateFailed = None /\
     contextProperty "errorName" updateFailed = None /\
     option_map (map fst) (IEventData.data updateFailed)
     = Some ["taskId"; "updatedTask"; "conflictingTask"] /\
     dataProperty "errorName" updateFailed = None).
Proof.
  eexists _, _, _.
  split; [vm_compute; reflexivity|].
  split; [vm_compute; reflexivity|].
  split; [|split]; vm_compute; repeat split; reflexivity.
Qed.

(** ** The claims about the import and the export *)

(** C1, at an import. A new manager is given, through [importFromJSON], the
    text of two records whose times overlap (09:00-10:00 and 09:30-10:30):
    the call returns, and the state it leaves holds both tasks. The
    invariant fails in a state reached by the public operations; the other
    operations keep it ([reachable_nonOverlapping]). *)
Theorem importFromJSON_stores_overlapping_tasks :
  reachable anyOperation Demo.host0 Demo.afterImport /\
  fst (perform (ImportFromJSON (Demo.stringify Demo.overlapping))
         (ScheduleManager.create Demo.host0)) = Ok None /\
  JSMap.values (tasks Demo.afterImport) = [Demo.exercise; Demo.repair] /\
  id Demo.exercise <> id Demo.repair /\
  overlapOf Demo.exercise Demo.repair = Ok true /\
  ~ nonOverlapping (tasks Demo.afterImport).
Proof.
  assert (JSMap.values (tasks Demo.afterImport) = [Demo.exercise; Demo.repair]) as V
    by (vm_compute; reflexivity).
  assert (id Demo.exercise <> id Demo.repair) as N by (vm_compute; discriminate).
  split; [apply reachable_perform; [exact I | apply reachable_create]|].
  split; [vm_compute; reflexivity|]. split; [exact V|]. split; [exact N|].
  split; [reflexivity|].
  intros H. specialize (H Demo.exercise Demo.repair).
  rewrite V in H. simpl in H.
  assert (overlapOf Demo.exercise Demo.repair = Ok false) as F by (apply H; tauto).
  vm_compute in F. discriminate F.
Qed.

Lemma fromJSON_id (h : Host) (j : JSON.task) : id (fromJSON h j) = JSON.id j.
Proof.
  unfold fromJSON. destruct (JSON.updatedAt j) as [s|]; [|reflexivity].
  destruct (String.eqb s ""); reflexivity.
Qed.

Lemma imported_all_valid (h : Host) (items : list JSON.task) :
  forall m,
    Forall (fun j => ValidationService.validateTask (fromJSON h j) = Ok tt) items ->
    imported h items m = (Ok tt, storedFrom h items m).
Proof.
  induction items as [|j rest IH]; simpl; intros m F; [reflexivity|].
  inversion F as [|? ? V F']; subst. rewrite V, fromJSON_id. apply IH. exact F'.
Qed.


(** An import whose records all pass [validateTask]. *)
Lemma importFromJSON_all_valid (jsonString : string) (w : World) (items : list JSON.task) :
  JSON_parse (host w) jsonString = Ok (JSON.Array items) ->
  Forall (fun j => ValidationService.validateTask (fromJSON (host w) j) = Ok tt) items ->
  exists d w',
    ScheduleManager.importFromJSON jsonString w = (Ok tt, w') /\
    tasks w' = storedFrom (host w) items [] /\
    publishedSince w w' = [(ScheduleEvent.SCHEDULE_IMPORTED, d)].
Proof.
  intros P F.
  destruct (importFromJSON_outcome jsonString w) as (r & w' & E & _ & _ & Cases).
  destruct Cases as [(e & [P'|[P' _]] & _)|[(items' & P' & Ht & Last)|(items' & P' & _)]];
    try congruence.
  assert (items' = items) as -> by congruence.
  rewrite (imported_all_valid _ _ _ F) in Ht, Last. simpl in Ht, Last.
  destruct Last as [(e & Hf & _)|(d & _ & -> & Hp & _)]; [discriminate|].
  exists d, w'. split; [exact E|]. split; [exact Ht|].
  apply publishedSince_app. exact Hp.
Qed.






(** *** The round trip *)

Lemma mapM_toJSON (l : list Task) (w : World) :
  mapM (fun task => hosted (fun h => toJSON h task)) l w
  = (mapRes (toJSON (host w)) l, w).
Proof.
  induction l as [|t rest IH]; simpl; [reflexivity|].
  unfold bind at 1. unfold hosted at 1.
  destruct (toJSON (host w) t) as [j|e]; simpl; [|reflexivity].
  unfold bind at 1. rewrite IH.
  destruct (mapRes (toJSON (host w)) rest); reflexivity.
Qed.

Lemma exportToJSON_exported (w : World) :
  ScheduleManager.exportToJSON w
  = (match exported w with
     | Ok items => Ok (JSON_stringify (host w) items)
     | Throw e => Throw e
     end, w).
Proof.
  unfold ScheduleManager.exportToJSON, ScheduleManager.getAllTasks, exported.
  unfold bind at 1. unfold bind at 1. unfold reads at 1. unfold lift at 1.
  destruct (Array_sort ScheduleManager.byStartTime (JSMap.values (tasks w))) as [sorted|e];
    simpl; [|reflexivity].
  unfold bind at 1. rewrite mapM_toJSON.
  destruct (mapRes (toJSON (host w)) sorted); reflexivity.
Qed.

Lemma byStartTime_valid (a b : Task) :
  ValidationService.validateTask a = Ok tt ->
  ValidationService.validateTask b = Ok tt ->
  exists c, ScheduleManager.byStartTime a b = Ok c.
Proof.
  intros Va Vb.
  destruct (validateTask_ok a Va) as (_ & _ & _ & sa & ea & Sa & _).
  destruct (validateTask_ok b Vb) as (_ & _ & _ & sb & eb & Sb & _).
  unfold ScheduleManager.byStartTime, TimeUtils.compareTimeStrings.
  rewrite Sa, Sb. simpl. eexists. reflexivity.
Qed.

Lemma insertSorted_valid (x : Task) (sorted : list Task) :
  ValidationService.validateTask x = Ok tt ->
  (forall t, In t sorted -> ValidationService.validateTask t = Ok tt) ->
  exists placed,
    insertSorted ScheduleManager.byStartTime x sorted = Ok placed /\
    Permutation placed (x :: sorted).
Proof.
  intros Vx. induction sorted as [|y rest IH]; simpl; intros Vs.
  - exists [x]. split; [reflexivity | apply Permutation_refl].
  - destruct (byStartTime_valid x y Vx (Vs y (or_introl eq_refl))) as (c & C).
    rewrite C. simpl. destruct (c <=? 0).
    + eexists. split; [reflexivity | apply Permutation_refl].
    + destruct IH as (placed & E & P); [intros t I; apply Vs; right; exact I|].
      rewrite E. simpl. eexists. split; [reflexivity|].
      eapply Permutation_trans; [apply perm_skip; exact P | apply perm_swap].
Qed.

(** The sort returns on valid tasks, with the tasks it was given. *)
Lemma Array_sort_valid (l : list Task) :
  (forall t, In t l -> ValidationService.validateTask t = Ok tt) ->
  exists sorted,
    Array_sort ScheduleManager.byStartTime l = Ok sorted /\ Permutation sorted l.
Proof.
  induction l as [|x rest IH]; simpl; intros V.
  - exists []. split; [reflexivity | constructor].
  - destruct IH as (sorted & E & P); [intros t I; apply V; right; exact I|].
    rewrite E. simpl.
    destruct (insertSorted_valid x sorted (V x (or_introl eq_refl))) as (placed & E' & P').
    { intros t I. apply V. right. eapply Permutation_in; eauto. }
    exists placed. split; [exact E'|].
    eapply Permutation_trans; [exact P' | apply perm_skip; exact P].
Qed.

Lemma mapRes_toJSON_dated (h : Host) (l : list Task) :
  (forall t, In t l -> dated t) ->
  exists items, mapRes (toJSON h) l = Ok items /\
                Forall2 (fun t j => toJSON h t = Ok j) l items.
Proof.
  induction l as [|t rest IH]; simpl; intros D.
  - exists []. split; [reflexivity | constructor].
  - destruct (toJSON_dated h t (D t (or_introl eq_refl))) as (j & J).
    destruct IH as (items & E & F); [intros x I; apply D; right; exact I|].
    rewrite J, E. simpl. exists (j :: items). split; [reflexivity|].
    constructor; assumption.
Qed.

(** What comes back from the record of a task: the same identifier,
    description, times, priority and completion flag. *)
Lemma fromJSON_toJSON (h : Host) (t : Task) (j : JSON.task) :
  toJSON h t = Ok j ->
  core (fromJSON h j) = core t /\ sameSlot t (fromJSON h j).
Proof.
  unfold toJSON, Date_toISOString, res_bind.
  destruct (createdAt t) as [created|]; [|discriminate].
  destruct (updatedAt t) as [[updated|]|]; try discriminate;
    intros [= <-]; unfold fromJSON; simpl.
  - destruct (orNull (toISOString h updated)) as [s|]; [destruct (String.eqb s "")|];
      (split; [reflexivity | repeat split; reflexivity]).
  - split; [reflexivity | repeat split; reflexivity].
Qed.

Lemma set_fresh {V : Type} (k : string) (v : V) (m : JSMap.t V) :
  ~ In k (JSMap.keys m) -> JSMap.set k v m = m ++ [(k, v)].
Proof.
  induction m as [|[k0 v0] rest IH]; simpl; intros N; [reflexivity|].
  destruct (String.eqb k0 k) eqn:E.
  - apply String.eqb_eq in E. contradiction N. left. exact E.
  - rewrite IH; [reflexivity|]. intros I. apply N. right. exact I.
Qed.

Lemma storedFrom_fresh (h : Host) (items : list JSON.task) :
  forall m,
    NoDup (JSMap.keys m ++ map JSON.id items) ->
    storedFrom h items m = m ++ map (fun j => (JSON.id j, fromJSON h j)) items.
Proof.
  unfold storedFrom.
  induction items as [|j rest IH]; simpl; intros m ND.
  - rewrite app_nil_r. reflexivity.
  - assert (~ In (JSON.id j) (JSMap.keys m)) as Fresh.
    { intros I. apply NoDup_remove_2 in ND. apply ND. apply in_or_app. left. exact I. }
    rewrite (set_fresh _ _ _ Fresh), IH.
    + rewrite <- app_assoc. reflexivity.
    + unfold JSMap.keys in *. rewrite map_app. simpl. rewrite <- app_assoc. exact ND.
Qed.

Lemma keyed_ids (m : JSMap.t Task) : keyed m -> map id (JSMap.values m) = JSMap.keys m.
Proof.
  intros [_ K]. unfold JSMap.values, JSMap.keys.
  induction m as [|[k t] rest IH]; simpl; [reflexivity|].
  rewrite (K k t (or_introl eq_refl)), IH; [reflexivity|].
  intros k' t' I. apply K. right. exact I.
Qed.

Lemma records_of (h : Host) (l : list Task) (items : list JSON.task) :
  Forall2 (fun t j => toJSON h t = Ok j) l items ->
  map JSON.id items = map id l /\
  map (fun j => core (fromJSON h j)) items = map core l /\
  Forall (fun j => ValidationService.validateTask (fromJSON h j) = Ok tt) items
  \/ exists t, In t l /\ ValidationService.validateTask t <> Ok tt.
Proof.
  induction 1 as [|t j l items J _ IH].
  - left. repeat split; constructor.
  - destruct (fromJSON_toJSON h t j J) as (C & (Si & Sd & Ss & Se)).
    destruct (ValidationService.validateTask t) as [[]|e] eqn:V.
    + destruct IH as [(I1 & I2 & I3)|(x & Ix & Vx)].
      * left. simpl.
        split; [f_equal; [rewrite <- (fromJSON_id h j); symmetry; exact Si | exact I1]|].
        split; [f_equal; [exact C | exact I2]|].
        constructor; [|exact I3].
        rewrite <- V. symmetry. apply validateTask_ext; assumption.
      * right. exists x. split; [right; exact Ix | exact Vx].
    + right. exists t. split; [left; reflexivity | congruence].
Qed.

(** C7, as it is written, fails at a schedule whose task passes
    [validateTask] and has the invalid date as its creation date. A new
    manager imports one record whose [createdAt] is the text "yesterday":
    [new Date] makes the invalid date of it, [validateTask] does not look at
    dates, and the task is stored. [exportToJSON] of that schedule throws
    the RangeError of [toISOString]: there is no text to import. *)
Lemma exportToJSON_fails_on_invalid_date :
  reachable anyOperation Demo.host0 Demo.afterUnreadable /\
  fst (perform (ImportFromJSON (Demo.stringify Demo.unreadable))
         (ScheduleManager.create Demo.host0)) = Ok None /\
  JSMap.values (tasks Demo.afterUnreadable) = [Demo.undated] /\
  allValid (tasks Demo.afterUnreadable) /\
  thrown (fst (ScheduleManager.exportToJSON Demo.afterUnreadable)) = Some "RangeError" /\
  ~ exists (text : string) (w1 : World),
      ScheduleManager.exportToJSON Demo.afterUnreadable = (Ok text, w1).
Proof.
  assert (reachable anyOperation Demo.host0 Demo.afterUnreadable) as R
    by (apply reachable_perform; [exact I | apply reachable_create]).
  assert (thrown (fst (ScheduleManager.exportToJSON Demo.afterUnreadable))
          = Some "RangeError") as T by (vm_compute; reflexivity).
  split; [exact R|]. split; [vm_compute; reflexivity|].
  split; [vm_compute; reflexivity|].
  split; [apply (reachable_sound _ _ _ R)|]. split; [exact T|].
  intros (text & w1 & E). rewrite E in T. discriminate T.
Qed.

(** C7, amended. A schedule of valid tasks, each stored under its
    identifier, whose creation and update dates are valid dates, is
    exported: [exportToJSON] returns a text. When the platform's
    [JSON.parse] reads that text back as the array that was written,
    [importFromJSON] of the text into a manager with an empty schedule
    returns, and the tasks it stores are the exported ones up to their
    order: the same identifiers, descriptions, times, priorities and
    completion flags. *)
Theorem export_import_round_trip :
  forall (h : Host) (w fresh : World),
    host w = h -> host fresh = h -> tasks fresh = [] ->
    keyed (tasks w) -> allValid (tasks w) ->
    (forall t, In t (JSMap.values (tasks w)) -> dated t) ->
    (forall items, exported w = Ok items ->
                   JSON_parse h (JSON_stringify h items) = Ok (JSON.Array items)) ->
    exists (text : string) (w1 w2 : World),
      ScheduleManager.exportToJSON w = (Ok text, w1) /\
      ScheduleManager.importFromJSON text fresh = (Ok tt, w2) /\
      Permutation (map core (JSMap.values (tasks w2))) (map core (JSMap.values (tasks w))).
Proof.
  intros h w fresh Hw Hf Empty K A D Codec.
  destruct (Array_sort_valid (JSMap.values (tasks w)) A) as (sorted & S & P).
  destruct (mapRes_toJSON_dated h sorted) as (items & Mp & F).
  { intros t I. apply D. eapply Permutation_in; eauto. }
  assert (exported w = Ok items) as X by (unfold exported; rewrite S, Hw; exact Mp).
  exists (JSON_stringify h items), w.
  rewrite exportToJSON_exported, X, Hw.
  destruct (records_of h sorted items F) as [(Ids & Cores & Valid)|(t & I & V)].
  2:{ exfalso. apply V. apply A. eapply Permutation_in; eauto. }
  destruct (importFromJSON_all_valid (JSON_stringify h items) fresh items)
    as (d & w2 & E & Ht & _).
  { rewrite Hf. apply Codec. exact X. }
  { rewrite Hf. exact Valid. }
  exists w2. split; [reflexivity|]. split; [exact E|].
  rewrite Ht, Hf, storedFrom_fresh.
  - simpl. unfold JSMap.values. rewrite !map_map. simpl.
    change (map (fun x : JSON.task => core (fromJSON h x)) items)
      with (map (fun j : JSON.task => core (fromJSON h j)) items).
    rewrite Cores, <- (map_map snd core).
    apply Permutation_map. exact P.
  - simpl. rewrite Ids.
    apply (Permutation_NoDup (l := map id (JSMap.values (tasks w)))).
    + apply Permutation_map. apply Permutation_sym. exact P.
    + rewrite (keyed_ids _ K). apply K.
Qed.

Lemma export_import_round_trip_witness :
  (host (Demo.twoTasks Demo.host0) = Demo.host0 /\
   host (ScheduleManager.create Demo.host0) = Demo.host0 /\
   tasks (ScheduleManager.create Demo.host0) = [] /\
   keyed (tasks (Demo.twoTasks Demo.host0)) /\
   allValid (tasks (Demo.twoTasks Demo.host0)) /\
   (forall t, In t (JSMap.values (tasks (Demo.twoTasks Demo.host0))) -> dated t) /\
   (forall items, exported (Demo.twoTasks Demo.host0) = Ok items ->
                  JSON_parse Demo.host0 (JSON_stringify Demo.host0 items)
                  = Ok (JSON.Array items))) /\
  exists (text : string) (w1 w2 : World),
    ScheduleManager.exportToJSON (Demo.twoTasks Demo.host0) = (Ok text, w1) /\
    ScheduleManager.importFromJSON text (ScheduleManager.create Demo.host0) = (Ok tt, w2) /\
    Permutation (map core (JSMap.values (tasks w2)))
                (map core (JSMap.values (tasks (Demo.twoTasks Demo.host0)))).
Proof.
  destruct (reachable_sound _ _ _ (twoTasks_reachable Demo.host0)) as (Hh & K & A).
  assert (forall t, In t (JSMap.values (tasks (Demo.twoTasks Demo.host0))) -> dated t) as D.
  { intros t I. vm_compute in I. destruct I as [<-|[<-|[]]]; split; discriminate. }
  assert (forall items, exported (Demo.twoTasks Demo.host0) = Ok items ->
                        JSON_parse Demo.host0 (JSON_stringify Demo.host0 items)
                        = Ok (JSON.Array items)) as Codec.
  { intros items X. vm_compute in X. injection X as <-. vm_compute. reflexivity. }
  split.
  - split; [exact Hh|]. split; [reflexivity|]. split; [reflexivity|].
    split; [exact K|]. split; [exact A|]. split; [exact D | exact Codec].
  - apply (export_import_round_trip Demo.host0 (Demo.twoTasks Demo.host0)
             (ScheduleManager.create Demo.host0) Hh eq_refl eq_refl K A D Codec).
Defined.

(** The text of the export and the schedule after the import. *)
Example export_import_of_two_tasks :
  fst (ScheduleManager.exportToJSON (Demo.twoTasks Demo.host0))
  = Ok (Demo.stringify Demo.twoRecords) /\
  JSMap.values (tasks (after (ScheduleManager.importFromJSON
                                (Demo.stringify Demo.twoRecords))
                         (ScheduleManager.create Demo.host0)))
  = [Demo.exercise; Demo.briefing].
Proof. vm_compute. split; reflexivity. Qed.

(** ** The scenario of the specification, run *)

(** Task A (09:00-10:00) and task B (10:00-11:00) are added: they touch and
    do not conflict. Task C (09:30-10:30) is refused, with a conflict against
    A. [getAllTasks] returns A then B. [markTaskCompleted] on A's description
    completes A and leaves B. *)
Example scenario_of_the_specification :
  fst (ScheduleManager.addTask Demo.exercise (ScheduleManager.create Demo.host0)) = Ok tt /\
  fst (ScheduleManager.addTask Demo.briefing
         (after (ScheduleManager.addTask Demo.exercise) (ScheduleManager.create Demo.host0)))
  = Ok tt /\
  fst (ScheduleManager.addTask Demo.repair (Demo.twoTasks Demo.host0))
  = Throw (TaskConflictError
             ("Task conflicts with existing task " +++ quoted "Morning Exercise"
              +++ " (09:00-10:00)")) /\
  fst (ScheduleManager.getAllTasks
         (after (ScheduleManager.addTask Demo.repair) (Demo.twoTasks Demo.host0)))
  = Ok [Demo.exercise; Demo.briefing] /\
  map (fun t => (id t, completed t))
      (JSMap.values
         (tasks (after (ScheduleManager.markTaskCompleted "morning exercise")
                   (Demo.twoTasks Demo.host0))))
  = [("TASK-1", true); ("TASK-2", false)].
Proof. vm_compute. repeat split; reflexivity. Qed.

(** A listener detached before a call gets nothing from it; one still
    attached does. *)
Example detached_listener_is_not_called :
  map receiver
      (delivered
         (after (ScheduleManager.addTask Demo.exercise)
            (after (ScheduleManager.detach Demo.faulty)
               (after (ScheduleManager.attach Demo.quiet)
                  (after (ScheduleManager.attach Demo.faulty)
                     (ScheduleManager.create Demo.host0))))))
  = [2%nat].
Proof. vm_compute. reflexivity. Qed.

(** ** The primitives, on examples *)

Example split_time : split ":" "09:30" = ["09"; "30"].
Proof. reflexivity. Qed.

Example timeToMinutes_0930 : TimeUtils.timeToMinutes "09:30" = Ok 570.
Proof. reflexivity. Qed.

Example timeToMinutes_without_colon :
  thrown (TimeUtils.timeToMinutes "0930")
  = Some "InvalidTimeFormatError".
Proof. reflexivity. Qed.

Example TIME_REGEX_2400 : TimeUtils.TIME_REGEX_test "24:00" = false.
Proof. reflexivity. Qed.

Example TIME_REGEX_one_digit_hour : TimeUtils.TIME_REGEX_test "9:30" = false.
Proof. reflexivity. Qed.

Example parseInt_examples :
  parseInt "09" (Some 10) = Int 9 /\ parseInt " 12px" (Some 10) = Int 12 /\
  parseInt "-7" (Some 10) = Int (-7) /\ parseInt "x" (Some 10) = NaN /\
  parseInt "0x1F" None = Int 31 /\ parseInt "undefined" (Some 10) = NaN.
Proof. repeat split; reflexivity. Qed.

Example trim_example : trim "  Team  Briefing " = "Team  Briefing".
Proof. reflexivity. Qed.

Example toLowerCase_example : toLowerCase "Team BRIEFING" = "team briefing".
Proof. reflexivity. Qed.

Example showNat_120 : showNat 120 = "120".
Proof. reflexivity. Qed.

Example iso_examples :
  Demo.iso 0 = "1970-01-01T00:00:00.000Z" /\
  Demo.iso 1700000000002 = "2023-11-14T22:13:20.002Z" /\
  Demo.iso 951782400000 = "2000-02-29T00:00:00.000Z" /\
  Demo.iso (-1) = "1969-12-31T23:59:59.999Z" /\
  Demo.unIso "2023-11-14T22:13:20.002Z" = DateOf 1700000000002 /\
  Demo.unIso "2000-02-29T00:00:00.000Z" = DateOf 951782400000 /\
  Demo.unIso "2001-02-29T00:00:00.000Z" = InvalidDate /\
  Demo.unIso "yesterday" = InvalidDate.
Proof. vm_compute. repeat split; reflexivity. Qed.

Example parse_examples :
  Demo.parse "{}" = Ok JSON.NotArray /\
  Demo.parse " [ ] " = Ok (JSON.Array []) /\
  thrown (Demo.parse "[{") = Some "SyntaxError" /\
  Demo.parse (Demo.stringify Demo.halfGood) = Ok (JSON.Array Demo.halfGood).
Proof. vm_compute. repeat split; reflexivity. Qed.

Example parse_of_other_shapes :
  Demo.parse "[{}]" = Ok (JSON.Loose [JSON.JObject []]) /\
  Demo.parse "[null, 7, [], true]"
  = Ok (JSON.Loose [JSON.JNull; JSON.JNumber 7; JSON.JArray []; JSON.JBool true]) /\
  Demo.parse "[1.5, 2e3, -0]" = Ok (JSON.Loose [JSON.JOther; JSON.JOther; JSON.JNumber 0]) /\
  Demo.parse Demo.withEmptyObject = Ok (JSON.Loose Demo.recordAndEmptyObject) /\
  thrown (Demo.parse "[01]") = Some "SyntaxError" /\
  thrown (Demo.parse "[1,]") = Some "SyntaxError".
Proof. vm_compute. repeat split; reflexivity. Qed.

(** What [Task.fromJSON] and [validateTask] throw on items that are not
    task records. *)
Example refusal_examples :
  option_map Err.name (Untyped.refusal JSON.JNull) = Some "TypeError" /\
  option_map Err.name (Untyped.refusal (JSON.JObject []))
  = Some "InvalidTaskDescriptionError" /\
  option_map Err.name (Untyped.refusal (JSON.JNumber 7))
  = Some "InvalidTaskDescriptionError" /\
  option_map Err.name (Untyped.refusal (JSON.JObject [("description", JSON.JNumber 7)]))
  = Some "TypeError" /\
  Untyped.refusal (JSON.JObject [("description", JSON.JString "Sleep");
                                 ("startTime", JSON.JNumber 22)])
  = Some (InvalidTimeFormatError
            ("Invalid time format " +++ quoted "22" +++ ". Must be HH:MM (24-hour format).")) /\
  option_map Err.name
    (Untyped.refusal (JSON.JObject [("description", JSON.JString "Sleep");
                                    ("startTime", JSON.JArray [JSON.JString "22:00"]);
                                    ("endTime", JSON.JString "23:00")]))
  = Some "TypeError".
Proof. vm_compute. repeat split; reflexivity. Qed.

(** An array with an item that is not a task record: the schedule is
    cleared, and the import fails at that item. *)
Example importFromJSON_of_other_shapes :
  JSMap.keys (tasks (Demo.twoTasks Demo.host0)) = ["TASK-1"; "TASK-2"] /\
  thrown (fst (ScheduleManager.importFromJSON "[{}]" (Demo.twoTasks Demo.host0)))
  = Some "InvalidTaskDescriptionError" /\
  tasks (after (ScheduleManager.importFromJSON "[{}]") (Demo.twoTasks Demo.host0)) = [] /\
  thrown (fst (ScheduleManager.importFromJSON "[null]" (Demo.twoTasks Demo.host0)))
  = Some "TypeError" /\
  tasks (after (ScheduleManager.importFromJSON "[null]") (Demo.twoTasks Demo.host0)) = [] /\
  thrown (fst (ScheduleManager.importFromJSON Demo.withEmptyObject
                 (Demo.twoTasks Demo.host0)))
  = Some "InvalidTaskDescriptionError" /\
  JSMap.keys (tasks (after (ScheduleManager.importFromJSON Demo.withEmptyObject)
                       (Demo.twoTasks Demo.host0))) = ["TASK-2"].
Proof. vm_compute. repeat split; reflexivity. Qed.

(** A text that is not JSON, and one that is not an array: the import
    fails and the schedule stays. *)
Example importFromJSON_not_an_array :
  thrown (fst (ScheduleManager.importFromJSON "tasks" (Demo.twoTasks Demo.host0)))
  = Some "SyntaxError" /\
  thrown (fst (ScheduleManager.importFromJSON "{}" (Demo.twoTasks Demo.host0)))
  = Some "Error" /\
  JSMap.keys (tasks (after (ScheduleManager.importFromJSON "{}") (Demo.twoTasks Demo.host0)))
  = ["TASK-1"; "TASK-2"].
Proof. vm_compute. repeat split; reflexivity. Qed.

(** * More of the code *)

(** ** utils/TimeUtils.ts: the time strings *)

Lemma code_inj (a b : ascii) : code a = code b -> a = b.
Proof.
  unfold code. intros H.
  rewrite <- (ascii_nat_embedding a), <- (ascii_nat_embedding b).
  f_equal. lia.
Qed.

Lemma code_digitChar (k : Z) : 0 <= k <= 9 -> code (digitChar k) = 48 + k.
Proof.
  intros H. unfold code, digitChar.
  rewrite nat_ascii_embedding; lia.
Qed.

Lemma digitChar_code (c : ascii) : digitChar (code c - 48) = c.
Proof.
  unfold digitChar, code.
  replace (Z.to_nat (48 + (Z.of_nat (nat_of_ascii c) - 48))) with (nat_of_ascii c) by lia.
  apply ascii_nat_embedding.
Qed.

(** The minutes of five characters of the format. *)
Lemma timeToMinutes_digits (h1 h2 m1 m2 : ascii) :
  48 <= code h1 <= 57 -> 48 <= code h2 <= 57 ->
  48 <= code m1 <= 57 -> 48 <= code m2 <= 57 ->
  TimeUtils.timeToMinutes
    (String h1 (String h2 (String ":" (String m1 (String m2 EmptyString)))))
  = Ok ((10 * (code h1 - 48) + (code h2 - 48)) * 60
        + (10 * (code m1 - 48) + (code m2 - 48))).
Proof.
  intros Dh1 Dh2 Dm1 Dm2.
  unfold TimeUtils.timeToMinutes. simpl split.
  rewrite (digit_not_colon h1 Dh1), (digit_not_colon h2 Dh2),
          (digit_not_colon m1 Dm1), (digit_not_colon m2 Dm2).
  simpl. rewrite (parseInt_two_digits h1 h2 Dh1 Dh2), (parseInt_two_digits m1 m2 Dm1 Dm2).
  reflexivity.
Qed.

Lemma twoDigits_digits (a b : Z) :
  0 <= b <= 9 ->
  twoDigits (10 * a + b) = String (digitChar a) (String (digitChar b) EmptyString).
Proof.
  intros Hb. unfold twoDigits.
  replace ((10 * a + b) / 10) with a by (apply Z.div_unique with (r := b); lia).
  replace ((10 * a + b) mod 10) with b by (apply Z.mod_unique with (q := a); lia).
  reflexivity.
Qed.

Lemma timeText_chars (a b c d : Z) :
  0 <= b <= 9 -> 0 <= d <= 9 ->
  timeText (10 * a + b) (10 * c + d)
  = String (digitChar a) (String (digitChar b)
      (String ":" (String (digitChar c) (String (digitChar d) EmptyString)))).
Proof.
  intros Hb Hd. unfold timeText. rewrite !twoDigits_digits by assumption. reflexivity.
Qed.

(** What the regular expression accepts, by hour and minute. *)
Lemma TIME_REGEX_timeText (time : string) :
  TimeUtils.TIME_REGEX_test time = true <->
  exists h m : Z, 0 <= h <= 23 /\ 0 <= m <= 59 /\ time = timeText h m.
Proof.
  split.
  - intros H. destruct (TIME_REGEX_shape time H) as (h1 & h2 & m1 & m2 & -> & Hh & Hm1 & Hm2).
    exists (10 * (code h1 - 48) + (code h2 - 48)), (10 * (code m1 - 48) + (code m2 - 48)).
    split; [lia|]. split; [lia|].
    rewrite timeText_chars by lia. rewrite !digitChar_code. reflexivity.
  - intros (h & m & Hh & Hm & ->).
    pose proof (Z.div_mod h 10 ltac:(lia)) as Eh.
    pose proof (Z.mod_pos_bound h 10 ltac:(lia)) as Bh.
    pose proof (Z.div_mod m 10 ltac:(lia)) as Em.
    pose proof (Z.mod_pos_bound m 10 ltac:(lia)) as Bm.
    rewrite Eh, Em. rewrite timeText_chars by lia.
    remember (h / 10) as a. remember (h mod 10) as b.
    remember (m / 10) as c. remember (m mod 10) as d.
    unfold TimeUtils.TIME_REGEX_test, TimeUtils.inRange, TimeUtils.isDigit.
    rewrite !code_digitChar by lia.
    change (code ":") with 58.
    destruct (Z.ltb_spec a 2) as [L|G].
    + repeat (apply andb_true_iff; split); try (apply Z.leb_le; lia); try reflexivity.
      apply orb_true_iff. left.
      repeat (apply andb_true_iff; split); apply Z.leb_le; lia.
    + repeat (apply andb_true_iff; split); try (apply Z.leb_le; lia); try reflexivity.
      apply orb_true_iff. right.
      repeat (apply andb_true_iff; split); try (apply Z.leb_le; lia).
      apply Z.eqb_eq. lia.
Qed.

Lemma validateTimeFormat_iff (time : string) :
  TimeUtils.validateTimeFormat time = Ok tt <-> TimeUtils.TIME_REGEX_test time = true.
Proof.
  unfold TimeUtils.validateTimeFormat.
  destruct (TimeUtils.TIME_REGEX_test time); simpl; split; congruence.
Qed.

(** Two strings of the format: their minutes, and how the order of the
    strings and the order of the minutes agree. *)
Lemma time_order (a b : string) :
  TimeUtils.TIME_REGEX_test a = true -> TimeUtils.TIME_REGEX_test b = true ->
  exists ma mb : Z,
    TimeUtils.timeToMinutes a = Ok ma /\ TimeUtils.timeToMinutes b = Ok mb /\
    0 <= ma <= 1439 /\ 0 <= mb <= 1439 /\
    string_ltb a b = (ma <? mb) /\
    (ma = mb -> a = b).
Proof.
  intros Ha Hb.
  destruct (TIME_REGEX_shape a Ha) as (h1 & h2 & m1 & m2 & -> & Hh & Hm1 & Hm2).
  destruct (TIME_REGEX_shape b Hb) as (g1 & g2 & n1 & n2 & -> & Hg & Hn1 & Hn2).
  rewrite !timeToMinutes_digits by lia.
  eexists. eexists. split; [reflexivity|]. split; [reflexivity|].
  split; [lia|]. split; [lia|]. split.
  - cbn [string_ltb]. change (code ":") with 58. change (58 <? 58) with false. cbv iota.
    repeat match goal with
           | |- context [if ?x <? ?y then _ else _] => destruct (Z.ltb_spec x y)
           end;
      symmetry; first [apply Z.ltb_lt; lia | apply Z.ltb_ge; lia].
  - intros E.
    assert (code h1 = code g1) as E1 by lia.
    assert (code h2 = code g2) as E2 by lia.
    assert (code m1 = code n1) as E3 by lia.
    assert (code m2 = code n2) as E4 by lia.
    apply code_inj in E1, E2, E3, E4. subst. reflexivity.
Qed.

Lemma timeText_minutes (h m : Z) :
  0 <= h <= 23 -> 0 <= m <= 59 ->
  TimeUtils.timeToMinutes (timeText h m) = Ok (h * 60 + m).
Proof.
  intros Hh Hm.
  pose proof (Z.div_mod h 10 ltac:(lia)) as Eh.
  pose proof (Z.mod_pos_bound h 10 ltac:(lia)) as Bh.
  pose proof (Z.div_mod m 10 ltac:(lia)) as Em.
  pose proof (Z.mod_pos_bound m 10 ltac:(lia)) as Bm.
  rewrite Eh at 1. rewrite Em at 1. rewrite timeText_chars by lia.
  rewrite timeToMinutes_digits by (rewrite code_digitChar; lia).
  rewrite !code_digitChar by lia. f_equal. lia.
Qed.

(** [validateTimeRange] on two times of the format. *)
Lemma validateTimeRange_wants_order (s' e' : string) :
  TimeUtils.validateTimeFormat s' = Ok tt ->
  TimeUtils.validateTimeFormat e' = Ok tt ->
  exists s e : Z,
    TimeUtils.timeToMinutes s' = Ok s /\
    TimeUtils.timeToMinutes e' = Ok e /\
    (TimeUtils.validateTimeRange s' e' = Ok tt <-> s < e) /\
    (e <= s -> thrown (TimeUtils.validateTimeRange s' e') = Some "InvalidTimeRangeError").
Proof.
  intros V1 V2. apply validateTimeFormat_iff in V1, V2.
  destruct (time_order s' e' V1 V2) as (s & e & E1 & E2 & B1 & B2 & L & I).
  exists s, e. split; [exact E1|]. split; [exact E2|].
  unfold TimeUtils.validateTimeRange. rewrite E1, E2. simpl res_bind.
  destruct (Z.geb_spec s e) as [G|G].
  - split; [split; [discriminate | lia] | reflexivity].
  - split; [split; [lia | reflexivity] | lia].
Qed.

(** X1. [validateTimeFormat] accepts exactly the texts HH:MM of an hour from
    00 to 23 and a minute from 00 to 59, two digits each; on any other string
    it throws an InvalidTimeFormatError. On the text of the hour [h] and the
    minute [m], [timeToMinutes] returns [60 h + m]. *)
Theorem validateTimeFormat_accepts_the_times_of_day :
  (forall time : string,
     TimeUtils.validateTimeFormat time = Ok tt <->
     exists h m : Z, 0 <= h <= 23 /\ 0 <= m <= 59 /\ time = timeText h m) /\
  (forall (time : string) (e : Error),
     TimeUtils.validateTimeFormat time = Throw e ->
     Err.name e = "InvalidTimeFormatError") /\
  (forall h m : Z,
     0 <= h <= 23 -> 0 <= m <= 59 ->
     TimeUtils.timeToMinutes (timeText h m) = Ok (h * 60 + m)).
Proof.
  split; [|split].
  - intros time. rewrite validateTimeFormat_iff. apply TIME_REGEX_timeText.
  - intros time e. unfold TimeUtils.validateTimeFormat.
    destruct (TimeUtils.TIME_REGEX_test time); simpl; [discriminate|].
    intros H. injection H as <-. reflexivity.
  - intros h m. apply timeText_minutes.
Qed.

Example timeText_0930 :
  timeText 9 30 = "09:30" /\ TimeUtils.timeToMinutes "09:30" = Ok 570.
Proof. split; reflexivity. Qed.

(** X2. On two times of the format [compareTimeStrings] returns the
    difference of their minutes, the minutes of the first less the minutes of
    the second, each between 0 and 1439 as [timeToMinutes] returns them. The
    difference is zero exactly when the two strings are the same, negative
    exactly when the first string is the smaller one in the order of strings,
    and with the arguments exchanged the call returns the opposite number. *)
Theorem compareTimeStrings_orders_the_times :
  forall time1 time2 : string,
    TimeUtils.validateTimeFormat time1 = Ok tt ->
    TimeUtils.validateTimeFormat time2 = Ok tt ->
    exists minutes1 minutes2 : Z,
      TimeUtils.timeToMinutes time1 = Ok minutes1 /\
      TimeUtils.timeToMinutes time2 = Ok minutes2 /\
      0 <= minutes1 <= 1439 /\ 0 <= minutes2 <= 1439 /\
      TimeUtils.compareTimeStrings time1 time2 = Ok (minutes1 - minutes2) /\
      TimeUtils.compareTimeStrings time2 time1 = Ok (minutes2 - minutes1) /\
      (minutes1 - minutes2 = 0 <-> time1 = time2) /\
      (minutes1 - minutes2 < 0 <-> string_ltb time1 time2 = true).
Proof.
  intros time1 time2 V1 V2.
  apply validateTimeFormat_iff in V1, V2.
  destruct (time_order time1 time2 V1 V2) as (m1 & m2 & E1 & E2 & B1 & B2 & L & I).
  exists m1, m2. unfold TimeUtils.compareTimeStrings. rewrite E1, E2. simpl.
  split; [reflexivity|]. split; [reflexivity|]. split; [exact B1|]. split; [exact B2|].
  split; [reflexivity|]. split; [reflexivity|]. split.
  - split; [intros Z0; apply I; lia|].
    intros <-. assert (m1 = m2) by congruence. lia.
  - rewrite L, Z.ltb_lt. lia.
Qed.

Lemma compareTimeStrings_orders_the_times_witness :
  TimeUtils.timeToMinutes "09:00" = Ok 540 /\
  TimeUtils.timeToMinutes "10:30" = Ok 630 /\
  exists minutes1 minutes2 : Z,
    TimeUtils.timeToMinutes "09:00" = Ok minutes1 /\
    TimeUtils.timeToMinutes "10:30" = Ok minutes2 /\
    0 <= minutes1 <= 1439 /\ 0 <= minutes2 <= 1439 /\
    TimeUtils.compareTimeStrings "09:00" "10:30" = Ok (minutes1 - minutes2) /\
    TimeUtils.compareTimeStrings "10:30" "09:00" = Ok (minutes2 - minutes1) /\
    (minutes1 - minutes2 = 0 <-> "09:00" = "10:30") /\
    (minutes1 - minutes2 < 0 <-> string_ltb "09:00" "10:30" = true).
Proof.
  split; [reflexivity|]. split; [reflexivity|].
  apply (compareTimeStrings_orders_the_times "09:00" "10:30"); reflexivity.
Defined.

(** [formatTime] on a time of the format. *)
Lemma formatTime_valid (time : string) :
  TimeUtils.validateTimeFormat time = Ok tt -> TimeUtils.formatTime time = Ok time.
Proof.
  intros V. unfold TimeUtils.formatTime. rewrite V. simpl res_bind.
  apply validateTimeFormat_iff in V.
  destruct (TIME_REGEX_shape time V) as (h1 & h2 & m1 & m2 & -> & Hh & Hm1 & Hm2).
  simpl split.
  rewrite (digit_not_colon h1), (digit_not_colon h2),
          (digit_not_colon m1), (digit_not_colon m2) by lia.
  reflexivity.
Qed.

(** X3. [formatTime] returns a time of the format as it is (the padding has
    nothing to add), and throws on any other string the error of
    [validateTimeFormat]. *)
Theorem formatTime_returns_its_argument :
  forall time : string,
    (TimeUtils.validateTimeFormat time = Ok tt -> TimeUtils.formatTime time = Ok time) /\
    (forall e : Error,
       TimeUtils.validateTimeFormat time = Throw e -> TimeUtils.formatTime time = Throw e).
Proof.
  intros time. split.
  - apply formatTime_valid.
  - intros e V. unfold TimeUtils.formatTime. rewrite V. reflexivity.
Qed.

Example formatTime_examples :
  TimeUtils.formatTime "07:05" = Ok "07:05" /\
  thrown (TimeUtils.formatTime "7:05") = Some "InvalidTimeFormatError" /\
  thrown (TimeUtils.formatTime "24:00") = Some "InvalidTimeFormatError".
Proof. repeat split; reflexivity. Qed.

(** X4. On two times of the format [validateTimeRange] returns exactly when
    the start is an earlier minute than the end; when it is the same minute
    or a later one it throws an InvalidTimeRangeError. *)
Theorem validateTimeRange_wants_start_before_end :
  forall startTime' endTime' : string,
    TimeUtils.validateTimeFormat startTime' = Ok tt ->
    TimeUtils.validateTimeFormat endTime' = Ok tt ->
    exists s e : Z,
      TimeUtils.timeToMinutes startTime' = Ok s /\
      TimeUtils.timeToMinutes endTime' = Ok e /\
      (TimeUtils.validateTimeRange startTime' endTime' = Ok tt <-> s < e) /\
      (e <= s -> thrown (TimeUtils.validateTimeRange startTime' endTime')
                 = Some "InvalidTimeRangeError") /\
      (startTime' = endTime' ->
       thrown (TimeUtils.validateTimeRange startTime' endTime')
       = Some "InvalidTimeRangeError").
Proof.
  intros s' e' V1 V2.
  destruct (validateTimeRange_wants_order s' e' V1 V2) as (s & e & E1 & E2 & R & T).
  exists s, e. split; [exact E1|]. split; [exact E2|]. split; [exact R|].
  split; [exact T|].
  intros <-. apply T. assert (s = e) by congruence. lia.
Qed.

Lemma validateTimeRange_wants_start_before_end_witness :
  exists s e : Z,
    TimeUtils.timeToMinutes "10:00" = Ok s /\
    TimeUtils.timeToMinutes "09:00" = Ok e /\
    (TimeUtils.validateTimeRange "10:00" "09:00" = Ok tt <-> s < e) /\
    (e <= s -> thrown (TimeUtils.validateTimeRange "10:00" "09:00")
               = Some "InvalidTimeRangeError") /\
    ("10:00" = "09:00" ->
     thrown (TimeUtils.validateTimeRange "10:00" "09:00") = Some "InvalidTimeRangeError").
Proof.
  apply (validateTimeRange_wants_start_before_end "10:00" "09:00"); reflexivity.
Defined.

(** ** services/ValidationService.ts *)

Lemma trimStart_blank (s : string) : trimStart s = EmptyString <-> blank s = true.
Proof.
  unfold blank. induction s as [|c s IH]; simpl.
  - tauto.
  - destruct (isWhiteSpace c); simpl; [exact IH|]. split; discriminate.
Qed.

Lemma trimStart_head (s : string) (c : ascii) (rest : string) :
  trimStart s = String c rest -> isWhiteSpace c = false.
Proof.
  induction s as [|x s IH]; simpl; [discriminate|].
  destruct (isWhiteSpace x) eqn:W; [exact IH|].
  intros H. injection H as <- _. exact W.
Qed.

Lemma trimEnd_head (c : ascii) (rest : string) :
  isWhiteSpace c = false -> trimEnd (String c rest) <> EmptyString.
Proof.
  intros W. simpl. destruct (trimEnd rest); [rewrite W|]; discriminate.
Qed.

(** [trim] leaves nothing exactly of the strings of white space. *)
Lemma trim_blank (s : string) : trim s = EmptyString <-> blank s = true.
Proof.
  unfold trim. rewrite <- trimStart_blank.
  destruct (trimStart s) as [|c rest] eqn:E.
  - simpl. tauto.
  - split; [|discriminate].
    intros H. exfalso. apply (trimEnd_head c rest); [|exact H].
    apply (trimStart_head s c rest E).
Qed.

Lemma blank_empty (s : string) : s = EmptyString -> blank s = true.
Proof. intros ->. reflexivity. Qed.

(** The test of [validateTask] and [validateDescription] on a description. *)
Lemma description_test (d : string) :
  String.eqb d EmptyString || String.eqb (trim d) EmptyString = blank d.
Proof.
  destruct (blank d) eqn:B.
  - apply orb_true_iff. right. apply String.eqb_eq. apply trim_blank. exact B.
  - apply orb_false_iff. split; apply String.eqb_neq; intros H.
    + rewrite (blank_empty d H) in B. discriminate.
    + apply trim_blank in H. congruence.
Qed.

(** [validateTask] on a blank description, and the errors it throws on the
    others. *)
Lemma validateTask_checks_in_order_parts (task : Task) :
  (blank (description task) = true ->
   ValidationService.validateTask task
   = Throw (InvalidTaskDescriptionError "Task description cannot be empty.")) /\
  (blank (description task) = false ->
   forall e, ValidationService.validateTask task = Throw e ->
             Err.name e = "InvalidTimeFormatError" \/ Err.name e = "InvalidTimeRangeError").
Proof.
  unfold ValidationService.validateTask. rewrite description_test.
  destruct (blank (description task)); split; try discriminate; try reflexivity.
  intros _ e.
  unfold TimeUtils.validateTimeFormat.
  destruct (TimeUtils.TIME_REGEX_test (startTime task)); simpl;
    [|intros H; injection H as <-; left; reflexivity].
  destruct (TimeUtils.TIME_REGEX_test (endTime task)); simpl;
    [|intros H; injection H as <-; left; reflexivity].
  unfold TimeUtils.validateTimeRange.
  destruct (TimeUtils.timeToMinutes (startTime task)) as [s|e1] eqn:E1; simpl.
  2:{ intros H. injection H as <-. left. apply (timeToMinutes_error _ _ E1). }
  destruct (TimeUtils.timeToMinutes (endTime task)) as [e'|e2] eqn:E2; simpl.
  2:{ intros H. injection H as <-. left. apply (timeToMinutes_error _ _ E2). }
  destruct (s >=? e'); [|discriminate].
  intros H. injection H as <-. right. reflexivity.
Qed.

(** When a task passes [validateTask]. *)
Lemma validateTask_passes (task : Task) :
  ValidationService.validateTask task = Ok tt <->
  blank (description task) = false /\
  exists h1 m1 h2 m2 : Z,
    0 <= h1 <= 23 /\ 0 <= m1 <= 59 /\ 0 <= h2 <= 23 /\ 0 <= m2 <= 59 /\
    startTime task = timeText h1 m1 /\ endTime task = timeText h2 m2 /\
    h1 * 60 + m1 < h2 * 60 + m2.
Proof.
  unfold ValidationService.validateTask. rewrite description_test.
  destruct (blank (description task)) eqn:B.
  { split; [discriminate | intros [H _]; discriminate H]. }
  destruct (TimeUtils.validateTimeFormat (startTime task)) as [[]|e1] eqn:V1.
  2:{ simpl. split; [discriminate|].
      intros (_ & h1 & m1 & h2 & m2 & Hh1 & Hm1 & _ & _ & Es & _).
      assert (TimeUtils.validateTimeFormat (startTime task) = Ok tt) as V
        by (apply validateTimeFormat_iff, TIME_REGEX_timeText; eauto).
      congruence. }
  destruct (TimeUtils.validateTimeFormat (endTime task)) as [[]|e2] eqn:V2.
  2:{ simpl. split; [discriminate|].
      intros (_ & h1 & m1 & h2 & m2 & _ & _ & Hh2 & Hm2 & _ & Ee & _).
      assert (TimeUtils.validateTimeFormat (endTime task) = Ok tt) as V
        by (apply validateTimeFormat_iff, TIME_REGEX_timeText; eauto).
      congruence. }
  simpl res_bind.
  destruct (validateTimeRange_wants_order (startTime task) (endTime task) V1 V2)
    as (s & e & E1 & E2 & R & _).
  rewrite R.
  apply validateTimeFormat_iff, TIME_REGEX_timeText in V1, V2.
  destruct V1 as (h1 & m1 & Hh1 & Hm1 & Es). destruct V2 as (h2 & m2 & Hh2 & Hm2 & Ee).
  assert (s = h1 * 60 + m1) as ->
    by (rewrite Es, timeText_minutes in E1 by assumption; congruence).
  assert (e = h2 * 60 + m2) as ->
    by (rewrite Ee, timeText_minutes in E2 by assumption; congruence).
  split.
  - intros L. split; [reflexivity|]. exists h1, m1, h2, m2. tauto.
  - intros (_ & a1 & b1 & a2 & b2 & Ha1 & Hb1 & Ha2 & Hb2 & Es' & Ee' & L).
    rewrite Es' in Es. rewrite Ee' in Ee.
    apply (f_equal TimeUtils.timeToMinutes) in Es, Ee.
    rewrite !timeText_minutes in Es, Ee by assumption.
    injection Es as Es. injection Ee as Ee. lia.
Qed.

(** X5. [validateTask] checks the description, then the two formats, then the
    range. A task whose description is empty or white space is refused with
    an InvalidTaskDescriptionError, whatever its times; otherwise a start
    time out of the format, then an end time out of the format, is refused
    with an InvalidTimeFormatError; otherwise a start that is not before the
    end is refused with an InvalidTimeRangeError. The task passes exactly
    when its description has a character that is not white space and its
    times are the texts of two times of day, the start the earlier one. *)
Theorem validateTask_checks_in_order :
  forall task : Task,
    (blank (description task) = true ->
     ValidationService.validateTask task
     = Throw (InvalidTaskDescriptionError "Task description cannot be empty.")) /\
    (blank (description task) = false ->
     TimeUtils.validateTimeFormat (startTime task) <> Ok tt ->
     ValidationService.validateTask task = TimeUtils.validateTimeFormat (startTime task) /\
     thrown (ValidationService.validateTask task) = Some "InvalidTimeFormatError") /\
    (blank (description task) = false ->
     TimeUtils.validateTimeFormat (startTime task) = Ok tt ->
     TimeUtils.validateTimeFormat (endTime task) <> Ok tt ->
     ValidationService.validateTask task = TimeUtils.validateTimeFormat (endTime task) /\
     thrown (ValidationService.validateTask task) = Some "InvalidTimeFormatError") /\
    (blank (description task) = false ->
     TimeUtils.validateTimeFormat (startTime task) = Ok tt ->
     TimeUtils.validateTimeFormat (endTime task) = Ok tt ->
     minutesOf (endTime task) <= minutesOf (startTime task) ->
     thrown (ValidationService.validateTask task) = Some "InvalidTimeRangeError") /\
    (ValidationService.validateTask task = Ok tt <->
     blank (description task) = false /\
     exists h1 m1 h2 m2 : Z,
       0 <= h1 <= 23 /\ 0 <= m1 <= 59 /\ 0 <= h2 <= 23 /\ 0 <= m2 <= 59 /\
       startTime task = timeText h1 m1 /\ endTime task = timeText h2 m2 /\
       h1 * 60 + m1 < h2 * 60 + m2).
Proof.
  intros task. split; [|split; [|split; [|split; [|apply validateTask_passes]]]];
    unfold ValidationService.validateTask; rewrite description_test.
  - intros ->. reflexivity.
  - intros -> N.
    unfold TimeUtils.validateTimeFormat in *.
    destruct (TimeUtils.TIME_REGEX_test (startTime task)); simpl in *;
      [congruence | split; reflexivity].
  - intros -> V1 N. rewrite V1. simpl res_bind.
    unfold TimeUtils.validateTimeFormat in *.
    destruct (TimeUtils.TIME_REGEX_test (endTime task)); simpl in *;
      [congruence | split; reflexivity].
  - intros -> V1 V2 L. rewrite V1, V2. simpl res_bind.
    destruct (validateTimeRange_wants_order (startTime task) (endTime task) V1 V2)
      as (s & e & E1 & E2 & _ & T).
    apply T. unfold minutesOf in L. rewrite E1, E2 in L. exact L.
Qed.

Example validateTask_examples :
  thrown (ValidationService.validateTask (mkTask "T" "   " "25:00" "x" LOW false InvalidDate None))
  = Some "InvalidTaskDescriptionError" /\
  thrown (ValidationService.validateTask (mkTask "T" "Nap" "9:00" "10:00" LOW false InvalidDate None))
  = Some "InvalidTimeFormatError" /\
  thrown (ValidationService.validateTask (mkTask "T" "Nap" "10:00" "10:00" LOW false InvalidDate None))
  = Some "InvalidTimeRangeError" /\
  ValidationService.validateTask (mkTask "T" "Nap" "10:00" "10:01" LOW false InvalidDate None)
  = Ok tt.
Proof. repeat split; reflexivity. Qed.

(** X6. [validateDescription] accepts exactly the descriptions that have a
    character that is not white space, and throws an
    InvalidTaskDescriptionError on the others, the empty string among them.
    [validateTask] refuses a task with that error exactly when
    [validateDescription] refuses its description. *)
Theorem validateDescription_wants_a_visible_character :
  forall description' : string,
    (ValidationService.validateDescription description' = Ok tt <->
     exists c, In c (list_ascii_of_string description') /\ isWhiteSpace c = false) /\
    (ValidationService.validateDescription description' <> Ok tt ->
     ValidationService.validateDescription description'
     = Throw (InvalidTaskDescriptionError "Task description cannot be empty.")) /\
    (forall task : Task,
       description task = description' ->
       (thrown (ValidationService.validateTask task) = Some "InvalidTaskDescriptionError"
        <-> ValidationService.validateDescription description' <> Ok tt)).
Proof.
  intros d. unfold ValidationService.validateDescription. rewrite description_test.
  assert (blank d = false <->
          exists c, In c (list_ascii_of_string d) /\ isWhiteSpace c = false) as B.
  { unfold blank. split.
    - intros H. apply not_true_iff_false in H.
      rewrite forallb_forall in H.
      induction (list_ascii_of_string d) as [|c l IH].
      + exfalso. apply H. intros x [].
      + destruct (isWhiteSpace c) eqn:W.
        * destruct IH as (x & Ix & Wx).
          { intros A. apply H. intros x [<-|Ix]; [exact W | apply A; exact Ix]. }
          exists x. split; [right; exact Ix | exact Wx].
        * exists c. split; [left; reflexivity | exact W].
    - intros (c & Ic & Wc). apply not_true_iff_false. intros A.
      rewrite forallb_forall in A. rewrite (A c Ic) in Wc. discriminate. }
  split; [|split].
  - rewrite <- B. destruct (blank d); split; congruence.
  - destruct (blank d); [reflexivity | congruence].
  - intros task <-.
    destruct (validateTask_checks_in_order_parts task) as (P1 & P2).
    destruct (blank (description task)) eqn:Bd.
    + rewrite (P1 eq_refl). simpl. split; [discriminate | reflexivity].
    + split; [|congruence]. intros T. exfalso.
      destruct (ValidationService.validateTask task) as [[]|e] eqn:V; [discriminate|].
      destruct (P2 eq_refl e eq_refl) as [N|N]; simpl in T; congruence.
Qed.


(** X7. On a candidate and stored tasks that pass [validateTask],
    [checkTaskOverlap] returns the first task of the array, in its order,
    that has another identifier than the candidate and overlaps it; the tasks
    in front of it have the candidate's identifier or do not overlap it. It
    returns null exactly when no task of the array with another identifier
    overlaps the candidate. A task with the candidate's identifier is never
    returned. *)
Theorem checkTaskOverlap_returns_the_first_conflict :
  forall (newTask : Task) (existingTasks : list Task),
    ValidationService.validateTask newTask = Ok tt ->
    (forall t, In t existingTasks -> ValidationService.validateTask t = Ok tt) ->
    (exists (before : list Task) (conflictingTask : Task) (behind : list Task),
       existingTasks = before ++ conflictingTask :: behind /\
       ValidationService.checkTaskOverlap newTask existingTasks = Ok (Some conflictingTask) /\
       id conflictingTask <> id newTask /\
       overlapOf newTask conflictingTask = Ok true /\
       forall t, In t before -> id t = id newTask \/ overlapOf newTask t = Ok false)
    \/
    (ValidationService.checkTaskOverlap newTask existingTasks = Ok None /\
     forall t, In t existingTasks -> id t = id newTask \/ overlapOf newTask t = Ok false).
Proof.
  intros newTask l V. induction l as [|x l IH]; intros A.
  - right. split; [reflexivity|]. intros t [].
  - simpl ValidationService.checkTaskOverlap.
    destruct (String.eqb (id x) (id newTask)) eqn:E.
    + apply String.eqb_eq in E.
      destruct IH as [(before & c & behind & -> & R & N & O & F)|(R & F)].
      { intros t I. apply A. right. exact I. }
      * left. exists (x :: before), c, behind.
        split; [reflexivity|]. split; [exact R|]. split; [exact N|]. split; [exact O|].
        intros t [<-|I]; [left; exact E | apply F; exact I].
      * right. split; [exact R|].
        intros t [<-|I]; [left; exact E | apply F; exact I].
    + apply String.eqb_neq in E.
      destruct (overlapOf_valid newTask x V (A x (or_introl eq_refl))) as (o & O & _).
      unfold overlapOf in O. rewrite O. simpl res_bind.
      destruct o.
      * left. exists [], x, l. split; [reflexivity|]. split; [reflexivity|].
        split; [exact E|]. split; [exact O|]. intros t [].
      * destruct IH as [(before & c & behind & -> & R & N & O' & F)|(R & F)].
        { intros t I. apply A. right. exact I. }
        -- left. exists (x :: before), c, behind.
           split; [reflexivity|]. split; [exact R|]. split; [exact N|]. split; [exact O'|].
           intros t [<-|I]; [right; exact O | apply F; exact I].
        -- right. split; [exact R|].
           intros t [<-|I]; [right; exact O | apply F; exact I].
Qed.

Lemma checkTaskOverlap_returns_the_first_conflict_witness :
  (exists (before : list Task) (conflictingTask : Task) (behind : list Task),
     [Demo.briefing; Demo.exercise; Demo.exerciseAgain]
     = before ++ conflictingTask :: behind /\
     ValidationService.checkTaskOverlap Demo.repair
       [Demo.briefing; Demo.exercise; Demo.exerciseAgain] = Ok (Some conflictingTask) /\
     id conflictingTask <> id Demo.repair /\
     overlapOf Demo.repair conflictingTask = Ok true /\
     forall t, In t before -> id t = id Demo.repair \/ overlapOf Demo.repair t = Ok false)
  \/
  (ValidationService.checkTaskOverlap Demo.repair
     [Demo.briefing; Demo.exercise; Demo.exerciseAgain] = Ok None /\
   forall t, In t [Demo.briefing; Demo.exercise; Demo.exerciseAgain] ->
             id t = id Demo.repair \/ overlapOf Demo.repair t = Ok false).
Proof.
  apply (checkTaskOverlap_returns_the_first_conflict Demo.repair
           [Demo.briefing; Demo.exercise; Demo.exerciseAgain]).
  - reflexivity.
  - intros t I. simpl in I.
    destruct I as [<-|[<-|[<-|[]]]]; reflexivity.
Defined.

(** X8. Two tasks that pass [validateTask] overlap, by the test of the
    conflict check, exactly when some minute of the day is in both of their
    ranges, the start counted in and the end counted out. Every such task
    overlaps itself (the conflict check has to skip the task of the same
    identifier). *)
Theorem valid_tasks_overlap_when_they_share_a_minute :
  forall a b : Task,
    ValidationService.validateTask a = Ok tt ->
    ValidationService.validateTask b = Ok tt ->
    (exists o, overlapOf a b = Ok o /\
       (o = true <->
        exists minute : Z,
          minutesOf (startTime a) <= minute < minutesOf (endTime a) /\
          minutesOf (startTime b) <= minute < minutesOf (endTime b))) /\
    overlapOf a a = Ok true.
Proof.
  intros a b Va Vb.
  destruct (validateTask_ok a Va) as (_ & _ & _ & sa & ea & Sa & Ea & La).
  destruct (validateTask_ok b Vb) as (_ & _ & _ & sb & eb & Sb & Eb & Lb).
  unfold overlapOf, TimeUtils.doTimeRangesOverlap, minutesOf.
  rewrite Sa, Ea, Sb, Eb. simpl res_bind. split.
  - eexists. split; [reflexivity|].
    rewrite andb_true_iff, !Z.ltb_lt. split.
    + intros [H1 H2]. exists (Z.max sa sb). lia.
    + intros (m & H1 & H2). lia.
  - f_equal. apply andb_true_iff. rewrite !Z.ltb_lt. lia.
Qed.

Lemma valid_tasks_overlap_when_they_share_a_minute_witness :
  (exists o, overlapOf Demo.exercise Demo.repair = Ok o /\
     (o = true <->
      exists minute : Z,
        minutesOf (startTime Demo.exercise) <= minute < minutesOf (endTime Demo.exercise) /\
        minutesOf (startTime Demo.repair) <= minute < minutesOf (endTime Demo.repair))) /\
  overlapOf Demo.exercise Demo.exercise = Ok true.
Proof.
  apply (valid_tasks_overlap_when_they_share_a_minute Demo.exercise Demo.repair);
    reflexivity.
Defined.

(** ** Sorting with a comparator that follows a rank *)

Section SortByRank.
Context {A : Type} (rank : A -> Z).

Lemma insertByRank_perm (x : A) (l : list A) :
  Permutation (insertByRank rank x l) (x :: l).
Proof.
  induction l as [|y l IH]; simpl; [reflexivity|].
  destruct (rank x <=? rank y); [reflexivity|].
  rewrite IH. apply perm_swap.
Qed.

Lemma sortByRank_perm (l : list A) : Permutation (sortByRank rank l) l.
Proof.
  induction l as [|x l IH]; simpl; [reflexivity|].
  rewrite insertByRank_perm. apply perm_skip. exact IH.
Qed.

Lemma insertByRank_sorted (x : A) (l : list A) :
  StronglySorted (fun a b => rank a <= rank b) l ->
  StronglySorted (fun a b => rank a <= rank b) (insertByRank rank x l).
Proof.
  induction 1 as [|y l S IH F]; simpl.
  - constructor; constructor.
  - destruct (Z.leb_spec (rank x) (rank y)) as [L|G].
    + constructor; [constructor; assumption|].
      constructor; [exact L|].
      eapply Forall_impl; [|exact F]. intros z Hz. simpl in Hz. lia.
    + constructor; [exact IH|].
      apply (Permutation_Forall (Permutation_sym (insertByRank_perm x l))).
      constructor; [lia | exact F].
Qed.

Lemma sortByRank_sorted (l : list A) :
  StronglySorted (fun a b => rank a <= rank b) (sortByRank rank l).
Proof.
  induction l as [|x l IH]; simpl; [constructor|].
  apply insertByRank_sorted. exact IH.
Qed.

Lemma insertByRank_front (x : A) (l : list A) :
  Forall (fun z => rank x <= rank z) l -> insertByRank rank x l = x :: l.
Proof.
  destruct 1 as [|y l L _]; simpl; [reflexivity|].
  destruct (Z.leb_spec (rank x) (rank y)); [reflexivity | lia].
Qed.

(** Leaving elements out before the insertion or after it is the same, in a
    sorted list. *)
Lemma filter_insertByRank (p : A -> bool) (x : A) (l : list A) :
  StronglySorted (fun a b => rank a <= rank b) l ->
  filter p (insertByRank rank x l)
  = if p x then insertByRank rank x (filter p l) else filter p l.
Proof.
  induction 1 as [|y l S IH F]; simpl.
  - destruct (p x); reflexivity.
  - destruct (Z.leb_spec (rank x) (rank y)) as [L|G]; simpl.
    + destruct (p x) eqn:Px; [|reflexivity].
      destruct (p y) eqn:Py; simpl.
      * destruct (Z.leb_spec (rank x) (rank y)); [reflexivity | lia].
      * symmetry. apply insertByRank_front.
        apply Forall_forall. intros z Iz. apply filter_In in Iz as [Iz _].
        rewrite Forall_forall in F. specialize (F z Iz). simpl in F. lia.
    + rewrite IH. destruct (p y) eqn:Py; simpl.
      * destruct (p x); [|reflexivity].
        destruct (Z.leb_spec (rank x) (rank y)); [lia | reflexivity].
      * reflexivity.
Qed.

Lemma filter_sortByRank (p : A -> bool) (l : list A) :
  filter p (sortByRank rank l) = sortByRank rank (filter p l).
Proof.
  induction l as [|x l IH]; simpl; [reflexivity|].
  rewrite filter_insertByRank by apply sortByRank_sorted.
  rewrite IH. destruct (p x); reflexivity.
Qed.

(** The elements of one rank stay in the order they had. *)
Lemma sortByRank_stable (r : Z) (l : list A) :
  filter (fun x => rank x =? r) (sortByRank rank l) = filter (fun x => rank x =? r) l.
Proof.
  rewrite filter_sortByRank.
  induction l as [|x l IH]; simpl; [reflexivity|].
  destruct (Z.eqb_spec (rank x) r) as [E|N]; simpl; [|exact IH].
  rewrite IH. apply insertByRank_front.
  apply Forall_forall. intros z Iz. apply filter_In in Iz as [_ Ez].
  apply Z.eqb_eq in Ez. lia.
Qed.

(** [Array.prototype.sort] with a comparator that returns, on the elements
    at hand, a number that is negative or zero exactly when the rank of the
    first is not above the rank of the second. *)
Context (compareFn : A -> A -> Res Z) (known : A -> Prop).
Hypothesis compareFn_rank :
  forall x y, known x -> known y ->
    exists c, compareFn x y = Ok c /\ (c <=? 0) = (rank x <=? rank y).

Lemma insertSorted_rank (x : A) (l : list A) :
  known x -> Forall known l ->
  insertSorted compareFn x l = Ok (insertByRank rank x l).
Proof.
  intros Kx. induction 1 as [|y l Ky _ IH]; simpl; [reflexivity|].
  destruct (compareFn_rank x y Kx Ky) as (c & -> & E). simpl res_bind.
  rewrite E. destruct (rank x <=? rank y); [reflexivity|].
  rewrite IH. reflexivity.
Qed.

Lemma Array_sort_rank (l : list A) :
  Forall known l -> Array_sort compareFn l = Ok (sortByRank rank l).
Proof.
  induction 1 as [|x l Kx K IH]; simpl; [reflexivity|].
  rewrite IH. simpl res_bind. apply insertSorted_rank; [exact Kx|].
  apply (Permutation_Forall (Permutation_sym (sortByRank_perm l))). exact K.
Qed.
End SortByRank.

(** [xs.filter(f)] when [f] returns on every element. *)
Lemma filterRes_pure {A : Type} (f : A -> Res bool) (g : A -> bool) (l : list A) :
  (forall x, In x l -> f x = Ok (g x)) -> filterRes f l = Ok (filter g l).
Proof.
  induction l as [|x l IH]; intros H; simpl; [reflexivity|].
  rewrite (H x (or_introl eq_refl)). simpl res_bind.
  rewrite IH by (intros y I; apply H; right; exact I). reflexivity.
Qed.

(** The minutes of the times of a task that passes [validateTask]. *)
Lemma valid_minutes (t : Task) :
  ValidationService.validateTask t = Ok tt ->
  TimeUtils.timeToMinutes (startTime t) = Ok (startMinute t) /\
  TimeUtils.timeToMinutes (endTime t) = Ok (endMinute t) /\
  0 <= startMinute t /\ startMinute t < endMinute t /\ endMinute t <= 1439.
Proof.
  intros V. destruct (validateTask_ok t V) as (_ & Vs & Ve & s & e & Es & Ee & L).
  destruct (timeToMinutes_of_format _ (validateTimeFormat_ok _ Vs)) as (s' & Es' & Bs).
  destruct (timeToMinutes_of_format _ (validateTimeFormat_ok _ Ve)) as (e' & Ee' & Be).
  unfold startMinute, endMinute, minutesOf. rewrite Es, Ee.
  assert (s' = s) by congruence. assert (e' = e) by congruence. subst.
  repeat split; lia.
Qed.

(** The comparator of the manager follows the minute of the start. *)
Lemma byStartTime_rank (x y : Task) :
  ValidationService.validateTask x = Ok tt ->
  ValidationService.validateTask y = Ok tt ->
  exists c, ScheduleManager.byStartTime x y = Ok c /\
            (c <=? 0) = (startMinute x <=? startMinute y).
Proof.
  intros Vx Vy.
  destruct (valid_minutes x Vx) as (Ex & _). destruct (valid_minutes y Vy) as (Ey & _).
  unfold ScheduleManager.byStartTime, TimeUtils.compareTimeStrings.
  rewrite Ex, Ey. simpl res_bind. eexists. split; [reflexivity|].
  destruct (Z.leb_spec (startMinute x - startMinute y) 0);
    destruct (Z.leb_spec (startMinute x) (startMinute y)); lia || reflexivity.
Qed.

Lemma allValid_Forall (m : JSMap.t Task) :
  allValid m ->
  Forall (fun t => ValidationService.validateTask t = Ok tt) (JSMap.values m).
Proof. intros A. apply Forall_forall. exact A. Qed.

(** The sorted array of the manager, on a schedule of valid tasks. *)
Lemma sorted_values (l : list Task) :
  Forall (fun t => ValidationService.validateTask t = Ok tt) l ->
  Array_sort ScheduleManager.byStartTime l = Ok (sortByRank startMinute l).
Proof.
  apply (Array_sort_rank startMinute ScheduleManager.byStartTime
           (fun t => ValidationService.validateTask t = Ok tt) byStartTime_rank).
Qed.

(** X9. On a schedule whose tasks pass [validateTask] (every schedule the
    manager reaches is one), [getAllTasks] returns and leaves the manager as
    it is. The array holds every stored task exactly once, in the order of
    the minutes the tasks start at, and tasks that start at the same minute
    stay in the order the map holds them. *)
Theorem getAllTasks_sorts_by_start_time :
  forall w : World,
    allValid (tasks w) ->
    exists sorted : list Task,
      ScheduleManager.getAllTasks w = (Ok sorted, w) /\
      Permutation sorted (JSMap.values (tasks w)) /\
      StronglySorted (fun a b => startMinute a <= startMinute b) sorted /\
      forall minute : Z,
        filter (fun t => startMinute t =? minute) sorted
        = filter (fun t => startMinute t =? minute) (JSMap.values (tasks w)).
Proof.
  intros w A. exists (sortByRank startMinute (JSMap.values (tasks w))).
  split; [|split; [|split]].
  - unfold ScheduleManager.getAllTasks, bind, reads, lift.
    rewrite (sorted_values _ (allValid_Forall _ A)). reflexivity.
  - apply sortByRank_perm.
  - apply sortByRank_sorted.
  - intros minute. apply sortByRank_stable.
Qed.

Lemma getAllTasks_sorts_by_start_time_witness :
  exists sorted : list Task,
    ScheduleManager.getAllTasks (Demo.threeTasks Demo.host0)
    = (Ok sorted, Demo.threeTasks Demo.host0) /\
    Permutation sorted (JSMap.values (tasks (Demo.threeTasks Demo.host0))) /\
    StronglySorted (fun a b => startMinute a <= startMinute b) sorted /\
    forall minute : Z,
      filter (fun t => startMinute t =? minute) sorted
      = filter (fun t => startMinute t =? minute)
               (JSMap.values (tasks (Demo.threeTasks Demo.host0))).
Proof.
  apply (getAllTasks_sorts_by_start_time (Demo.threeTasks Demo.host0)).
  apply (reachable_sound _ _ _ (threeTasks_reachable Demo.host0)).
Defined.

Lemma filter_valid (p : Task -> bool) (l : list Task) :
  Forall (fun t => ValidationService.validateTask t = Ok tt) l ->
  Forall (fun t => ValidationService.validateTask t = Ok tt) (filter p l).
Proof.
  rewrite !Forall_forall. intros H t I. apply filter_In in I as [I _]. apply H, I.
Qed.

(** X10. On a schedule whose tasks pass [validateTask], each of
    [getCompletedTasks], [getPendingTasks] and [getTasksByPriority] returns
    what [getAllTasks] returns with the other tasks left out, in the same
    order, and leaves the manager as it is. Every task of the schedule is in
    exactly one of the completed and the pending ones. *)
Theorem filtered_listings_are_getAllTasks_filtered :
  forall w : World,
    allValid (tasks w) ->
    exists everything : list Task,
      ScheduleManager.getAllTasks w = (Ok everything, w) /\
      ScheduleManager.getCompletedTasks w
      = (Ok (filter (fun t => completed t) everything), w) /\
      ScheduleManager.getPendingTasks w
      = (Ok (filter (fun t => negb (completed t)) everything), w) /\
      (forall p : TaskPriority,
         ScheduleManager.getTasksByPriority p w
         = (Ok (filter (fun t => samePriority (priority t) p) everything), w)) /\
      Permutation (filter (fun t => completed t) everything
                   ++ filter (fun t => negb (completed t)) everything)
                  (JSMap.values (tasks w)).
Proof.
  intros w A. pose proof (allValid_Forall _ A) as F.
  exists (sortByRank startMinute (JSMap.values (tasks w))).
  unfold ScheduleManager.getAllTasks, ScheduleManager.getCompletedTasks,
    ScheduleManager.getPendingTasks, ScheduleManager.getTasksByPriority, bind, reads, lift.
  rewrite (sorted_values _ F).
  rewrite !(sorted_values _ (filter_valid _ _ F)).
  rewrite !filter_sortByRank.
  split; [reflexivity|]. split; [reflexivity|]. split; [reflexivity|]. split.
  - intros p. rewrite (sorted_values _ (filter_valid _ _ F)), filter_sortByRank.
    reflexivity.
  - rewrite !sortByRank_perm. clear F.
    induction (JSMap.values (tasks w)) as [|t l IH]; simpl; [reflexivity|].
    destruct (completed t); simpl.
    + apply perm_skip. exact IH.
    + symmetry. apply Permutation_cons_app. symmetry. exact IH.
Qed.

Lemma filtered_listings_are_getAllTasks_filtered_witness :
  exists everything : list Task,
    ScheduleManager.getAllTasks (Demo.twoTasks Demo.host0)
    = (Ok everything, Demo.twoTasks Demo.host0) /\
    ScheduleManager.getCompletedTasks (Demo.twoTasks Demo.host0)
    = (Ok (filter (fun t => completed t) everything), Demo.twoTasks Demo.host0) /\
    ScheduleManager.getPendingTasks (Demo.twoTasks Demo.host0)
    = (Ok (filter (fun t => negb (completed t)) everything), Demo.twoTasks Demo.host0) /\
    (forall p : TaskPriority,
       ScheduleManager.getTasksByPriority p (Demo.twoTasks Demo.host0)
       = (Ok (filter (fun t => samePriority (priority t) p) everything),
          Demo.twoTasks Demo.host0)) /\
    Permutation (filter (fun t => completed t) everything
                 ++ filter (fun t => negb (completed t)) everything)
                (JSMap.values (tasks (Demo.twoTasks Demo.host0))).
Proof.
  apply (filtered_listings_are_getAllTasks_filtered (Demo.twoTasks Demo.host0)).
  apply (reachable_sound _ _ _ (twoTasks_reachable Demo.host0)).
Defined.

(** The overlap test of a valid task and a range of two times of the
    format. *)
Lemma overlap_with_range (t : Task) (s' e' : string) (s e : Z) :
  ValidationService.validateTask t = Ok tt ->
  TimeUtils.timeToMinutes s' = Ok s -> TimeUtils.timeToMinutes e' = Ok e ->
  TimeUtils.doTimeRangesOverlap (startTime t) (endTime t) s' e'
  = Ok ((startMinute t <? e) && (s <? endMinute t)).
Proof.
  intros V Es Ee. destruct (valid_minutes t V) as (E1 & E2 & _).
  unfold TimeUtils.doTimeRangesOverlap. rewrite E1, E2, Es, Ee. reflexivity.
Qed.

(** X11. [getTasksByTimeRange] of the manager, on a schedule whose tasks pass
    [validateTask] and two times of the format. When the start of the range
    is not before its end it throws an InvalidTimeRangeError. Otherwise it
    returns the tasks of [getAllTasks] that overlap the range, in the same
    order: those that start before the range ends and end after it starts,
    so that a task that only touches the range at one end is left out. The
    manager stays as it is in both cases. *)
Theorem getTasksByTimeRange_lists_the_overlapping_tasks :
  forall (w : World) (startTime' endTime' : string),
    allValid (tasks w) ->
    TimeUtils.validateTimeFormat startTime' = Ok tt ->
    TimeUtils.validateTimeFormat endTime' = Ok tt ->
    (minutesOf endTime' <= minutesOf startTime' ->
     exists e, ScheduleManager.getTasksByTimeRange startTime' endTime' w = (Throw e, w) /\
               Err.name e = "InvalidTimeRangeError") /\
    (minutesOf startTime' < minutesOf endTime' ->
     exists everything : list Task,
       ScheduleManager.getAllTasks w = (Ok everything, w) /\
       ScheduleManager.getTasksByTimeRange startTime' endTime' w
       = (Ok (filter (fun t => (startMinute t <? minutesOf endTime')
                               && (minutesOf startTime' <? endMinute t)) everything), w)).
Proof.
  intros w s' e' A Vs Ve. pose proof (allValid_Forall _ A) as F.
  destruct (validateTimeRange_wants_order s' e' Vs Ve) as (s & e & Es & Ee & R & T).
  assert (minutesOf s' = s) as Ms by (unfold minutesOf; rewrite Es; reflexivity).
  assert (minutesOf e' = e) as Me by (unfold minutesOf; rewrite Ee; reflexivity).
  rewrite Ms, Me.
  unfold ScheduleManager.getTasksByTimeRange, ScheduleManager.getAllTasks, bind, reads, lift.
  split.
  - intros L. specialize (T L).
    destruct (TimeUtils.validateTimeRange s' e') as [[]|err]; [discriminate|].
    exists err. split; [reflexivity|]. simpl in T. congruence.
  - intros L. apply R in L. rewrite L.
    exists (sortByRank startMinute (JSMap.values (tasks w))).
    rewrite (sorted_values _ F). split; [reflexivity|].
    rewrite (filterRes_pure _ (fun t => (startMinute t <? e) && (s <? endMinute t))).
    2:{ intros t I. apply overlap_with_range; [apply A; exact I | exact Es | exact Ee]. }
    rewrite (sorted_values _ (filter_valid _ _ F)), filter_sortByRank.
    reflexivity.
Qed.

Lemma getTasksByTimeRange_lists_the_overlapping_tasks_witness :
  (minutesOf "10:00" <= minutesOf "09:30" ->
   exists e, ScheduleManager.getTasksByTimeRange "09:30" "10:00" (Demo.twoTasks Demo.host0)
             = (Throw e, Demo.twoTasks Demo.host0) /\
             Err.name e = "InvalidTimeRangeError") /\
  (minutesOf "09:30" < minutesOf "10:00" ->
   exists everything : list Task,
     ScheduleManager.getAllTasks (Demo.twoTasks Demo.host0)
     = (Ok everything, Demo.twoTasks Demo.host0) /\
     ScheduleManager.getTasksByTimeRange "09:30" "10:00" (Demo.twoTasks Demo.host0)
     = (Ok (filter (fun t => (startMinute t <? minutesOf "10:00")
                             && (minutesOf "09:30" <? endMinute t)) everything),
        Demo.twoTasks Demo.host0)).
Proof.
  apply (getTasksByTimeRange_lists_the_overlapping_tasks
           (Demo.twoTasks Demo.host0) "09:30" "10:00").
  - apply (reachable_sound _ _ _ (twoTasks_reachable Demo.host0)).
  - reflexivity.
  - reflexivity.
Defined.

Example getTasksByTimeRange_leaves_out_a_touching_task :
  fst (ScheduleManager.getTasksByTimeRange "09:30" "10:00" (Demo.twoTasks Demo.host0))
  = Ok [Demo.exercise] /\
  thrown (fst (ScheduleManager.getTasksByTimeRange "10:00" "10:00" (Demo.twoTasks Demo.host0)))
  = Some "InvalidTimeRangeError".
Proof. split; vm_compute; reflexivity. Qed.

(** ** services/TaskService.ts *)

(** X12. [TaskService.getTasksByTimeRange], on tasks that pass
    [validateTask] and two times of the format, returns the tasks that lie
    inside the range, in the order of the array: those that start at the
    start of the range or later and end at its end or earlier. Each of them
    overlaps the range by the test of the manager's [getTasksByTimeRange].
    When the start of the range is not before its end it does not throw: it
    returns the empty array. *)
Theorem TaskService_getTasksByTimeRange_lists_the_tasks_inside :
  forall (tasks' : list Task) (start end' : string),
    (forall t, In t tasks' -> ValidationService.validateTask t = Ok tt) ->
    TimeUtils.validateTimeFormat start = Ok tt ->
    TimeUtils.validateTimeFormat end' = Ok tt ->
    TaskService.getTasksByTimeRange tasks' start end'
    = Ok (filter (fun t => (minutesOf start <=? startMinute t)
                           && (endMinute t <=? minutesOf end')) tasks') /\
    (forall t,
       In t (filter (fun t => (minutesOf start <=? startMinute t)
                              && (endMinute t <=? minutesOf end')) tasks') ->
       TimeUtils.doTimeRangesOverlap (startTime t) (endTime t) start end' = Ok true) /\
    (minutesOf end' <= minutesOf start ->
     TaskService.getTasksByTimeRange tasks' start end' = Ok []).
Proof.
  intros l s' e' A Vs Ve.
  apply validateTimeFormat_iff in Vs, Ve.
  destruct (timeToMinutes_of_format _ Vs) as (s & Es & _).
  destruct (timeToMinutes_of_format _ Ve) as (e & Ee & _).
  assert (TaskService.getTasksByTimeRange l s' e'
          = Ok (filter (fun t => (minutesOf s' <=? startMinute t)
                                 && (endMinute t <=? minutesOf e')) l)) as G.
  { assert (minutesOf s' = s) as -> by (unfold minutesOf; rewrite Es; reflexivity).
    assert (minutesOf e' = e) as -> by (unfold minutesOf; rewrite Ee; reflexivity).
    unfold TaskService.getTasksByTimeRange. rewrite Es, Ee. simpl res_bind.
    apply filterRes_pure. intros t I.
    destruct (valid_minutes t (A t I)) as (E1 & E2 & _). rewrite E1, E2. simpl.
    rewrite Z.geb_leb. reflexivity. }
  split; [exact G|]. split.
  - intros t I. apply filter_In in I as [I C].
    apply andb_true_iff in C as [C1 C2]. apply Z.leb_le in C1, C2.
    rewrite (overlap_with_range t s' e' s e (A t I) Es Ee).
    destruct (valid_minutes t (A t I)) as (_ & _ & _ & L & _).
    unfold minutesOf in C1, C2. rewrite Es in C1. rewrite Ee in C2.
    f_equal. apply andb_true_iff. rewrite !Z.ltb_lt. lia.
  - intros L. rewrite G. f_equal. clear G.
    induction l as [|t l IH]; simpl; [reflexivity|].
    assert (forall x, In x l -> ValidationService.validateTask x = Ok tt) as A'
      by (intros x I; apply A; right; exact I).
    destruct (valid_minutes t (A t (or_introl eq_refl))) as (_ & _ & _ & Lt & _).
    destruct (Z.leb_spec (minutesOf s') (startMinute t));
      destruct (Z.leb_spec (endMinute t) (minutesOf e')); simpl;
      first [apply (IH A') | lia].
Qed.

Lemma TaskService_getTasksByTimeRange_lists_the_tasks_inside_witness :
  TaskService.getTasksByTimeRange [Demo.exercise; Demo.briefing; Demo.repair] "09:00" "10:30"
  = Ok (filter (fun t => (minutesOf "09:00" <=? startMinute t)
                         && (endMinute t <=? minutesOf "10:30"))
               [Demo.exercise; Demo.briefing; Demo.repair]) /\
  (forall t,
     In t (filter (fun t => (minutesOf "09:00" <=? startMinute t)
                            && (endMinute t <=? minutesOf "10:30"))
                  [Demo.exercise; Demo.briefing; Demo.repair]) ->
     TimeUtils.doTimeRangesOverlap (startTime t) (endTime t) "09:00" "10:30" = Ok true) /\
  (minutesOf "10:30" <= minutesOf "09:00" ->
   TaskService.getTasksByTimeRange [Demo.exercise; Demo.briefing; Demo.repair]
     "09:00" "10:30" = Ok []).
Proof.
  apply (TaskService_getTasksByTimeRange_lists_the_tasks_inside
           [Demo.exercise; Demo.briefing; Demo.repair] "09:00" "10:30").
  - intros t I. simpl in I. destruct I as [<-|[<-|[<-|[]]]]; reflexivity.
  - reflexivity.
  - reflexivity.
Defined.

(** The comparator of [sortTasksByPriority] follows the rank of priority and
    start. *)
Lemma byPriorityThenTime_rank (x y : Task) :
  ValidationService.validateTask x = Ok tt ->
  ValidationService.validateTask y = Ok tt ->
  exists c, TaskService.byPriorityThenTime x y = Ok c /\
            (c <=? 0) = (priorityRank x <=? priorityRank y).
Proof.
  intros Vx Vy.
  destruct (valid_minutes x Vx) as (Ex & _ & Bx & Lx & Ux).
  destruct (valid_minutes y Vy) as (Ey & _ & By' & Ly & Uy).
  unfold TaskService.byPriorityThenTime, priorityRank, TimeUtils.compareTimeStrings.
  rewrite Ex, Ey. simpl res_bind.
  assert (1 <= TaskService.priorityOrder (priority x) <= 3) by (destruct (priority x); simpl; lia).
  assert (1 <= TaskService.priorityOrder (priority y) <= 3) by (destruct (priority y); simpl; lia).
  remember (TaskService.priorityOrder (priority x)) as wx.
  remember (TaskService.priorityOrder (priority y)) as wy.
  cbv zeta.
  destruct (Z.eqb_spec wy wx) as [E|N]; cbn [negb];
    eexists; (split; [reflexivity|]);
    match goal with
    | |- (?a <=? ?b) = (?c <=? ?d) =>
        destruct (Z.leb_spec a b); destruct (Z.leb_spec c d); lia || reflexivity
    end.
Qed.

(** X13. [sortTasksByPriority], on tasks that pass [validateTask], returns
    the same tasks, each once, the higher priority first and, within one
    priority, the earlier start first; tasks of the same priority and start
    stay in the order of the array. *)
Theorem sortTasksByPriority_orders_by_priority_then_start :
  forall tasks' : list Task,
    (forall t, In t tasks' -> ValidationService.validateTask t = Ok tt) ->
    exists sorted : list Task,
      TaskService.sortTasksByPriority tasks' = Ok sorted /\
      Permutation sorted tasks' /\
      StronglySorted
        (fun a b =>
           getPriorityWeight (priority b) < getPriorityWeight (priority a) \/
           (priority a = priority b /\ startMinute a <= startMinute b)) sorted /\
      forall (p : TaskPriority) (minute : Z),
        filter (fun t => samePriority (priority t) p && (startMinute t =? minute)) sorted
        = filter (fun t => samePriority (priority t) p && (startMinute t =? minute)) tasks'.
Proof.
  intros l A. exists (sortByRank priorityRank l).
  assert (Forall (fun t => ValidationService.validateTask t = Ok tt) l) as F
    by (apply Forall_forall; exact A).
  split; [|split; [|split]].
  - apply (Array_sort_rank priorityRank TaskService.byPriorityThenTime
             (fun t => ValidationService.validateTask t = Ok tt) byPriorityThenTime_rank).
    exact F.
  - apply sortByRank_perm.
  - assert (Forall (fun t => ValidationService.validateTask t = Ok tt)
                   (sortByRank priorityRank l)) as F'
      by (apply (Permutation_Forall (Permutation_sym (sortByRank_perm priorityRank l))); exact F).
    pose proof (sortByRank_sorted priorityRank l) as S.
    induction S as [|a rest S IH R]; [constructor|].
    inversion F' as [|? ? Va Frest]; subst.
    constructor; [apply IH; exact Frest|].
    rewrite Forall_forall in R, Frest |- *. intros b Ib.
    specialize (R b Ib). specialize (Frest b Ib). simpl in R, Frest.
    destruct (valid_minutes a Va) as (_ & _ & Ba & La & Ua).
    destruct (valid_minutes b Frest) as (_ & _ & Bb & Lb & Ub).
    unfold priorityRank in R.
    destruct (priority a), (priority b);
      cbn [TaskService.priorityOrder getPriorityWeight] in R |- *;
      first [left; lia | right; split; [reflexivity | lia] | exfalso; lia].
  - intros p minute.
    rewrite filter_sortByRank.
    induction l as [|x l IH]; simpl; [reflexivity|].
    assert (forall t, In t l -> ValidationService.validateTask t = Ok tt) as A'
      by (intros t I; apply A; right; exact I).
    assert (Forall (fun t => ValidationService.validateTask t = Ok tt) l) as Fl
      by (apply Forall_forall; exact A').
    destruct (samePriority (priority x) p && (startMinute x =? minute)) eqn:C; simpl;
      [|apply IH; assumption].
    rewrite (IH A' Fl). apply insertByRank_front.
    apply Forall_forall. intros z Iz. apply filter_In in Iz as [_ Cz].
    apply andb_true_iff in C as [C1 C2]. apply andb_true_iff in Cz as [Cz1 Cz2].
    apply Z.eqb_eq in C2, Cz2. unfold samePriority in C1, Cz1.
    apply String.eqb_eq in C1, Cz1. unfold priorityRank. rewrite C2, Cz2.
    destruct (priority x), (priority z), p; try discriminate C1; try discriminate Cz1;
      cbn [TaskService.priorityOrder]; lia.
Qed.

Lemma sortTasksByPriority_orders_by_priority_then_start_witness :
  exists sorted : list Task,
    TaskService.sortTasksByPriority [Demo.exercise; Demo.briefing; Demo.repair] = Ok sorted /\
    Permutation sorted [Demo.exercise; Demo.briefing; Demo.repair] /\
    StronglySorted
      (fun a b =>
         getPriorityWeight (priority b) < getPriorityWeight (priority a) \/
         (priority a = priority b /\ startMinute a <= startMinute b)) sorted /\
    forall (p : TaskPriority) (minute : Z),
      filter (fun t => samePriority (priority t) p && (startMinute t =? minute)) sorted
      = filter (fun t => samePriority (priority t) p && (startMinute t =? minute))
               [Demo.exercise; Demo.briefing; Demo.repair].
Proof.
  apply (sortTasksByPriority_orders_by_priority_then_start
           [Demo.exercise; Demo.briefing; Demo.repair]).
  intros t I. simpl in I. destruct I as [<-|[<-|[<-|[]]]]; reflexivity.
Defined.

(** ** models/Task.ts *)

Lemma parseInt_two_digits_without_radix (a b : ascii) :
  48 <= code a <= 57 -> 48 <= code b <= 57 ->
  parseInt (String a (String b EmptyString)) None
  = Int (10 * (code a - 48) + (code b - 48)).
Proof. intros Ha Hb. each_digit a Ha; each_digit b Hb; reflexivity. Qed.

(** The parts [getDurationInMinutes] reads of a time of the format. *)
Lemma duration_parts (time : string) :
  TimeUtils.TIME_REGEX_test time = true ->
  exists hh mm : Z,
    parseInt (ToString (nth_error (split ":" time) 0)) None = Int hh /\
    parseInt (ToString (nth_error (split ":" time) 1)) None = Int mm /\
    TimeUtils.timeToMinutes time = Ok (hh * 60 + mm).
Proof.
  intros H. destruct (TIME_REGEX_shape time H) as (h1 & h2 & m1 & m2 & -> & Hh & Hm1 & Hm2).
  assert (48 <= code h1 <= 57 /\ 48 <= code h2 <= 57) as [Dh1 Dh2] by lia.
  assert (48 <= code m1 <= 57) as Dm1 by lia.
  rewrite (timeToMinutes_digits h1 h2 m1 m2 Dh1 Dh2 Dm1 Hm2).
  simpl split.
  rewrite (digit_not_colon h1 Dh1), (digit_not_colon h2 Dh2),
          (digit_not_colon m1 Dm1), (digit_not_colon m2 Hm2).
  simpl nth_error. simpl ToString.
  rewrite (parseInt_two_digits_without_radix h1 h2 Dh1 Dh2),
          (parseInt_two_digits_without_radix m1 m2 Dm1 Hm2).
  eexists. eexists. split; [reflexivity|]. split; reflexivity.
Qed.

(** X14. The duration of a task that passes [validateTask]:
    [Task.getDurationInMinutes] and [TaskService.getTaskDuration] both
    return the minutes from its start to its end, a number from 1 to 1439,
    and this is the [durationMinutes] that [toJSON] writes. *)
Theorem duration_of_a_valid_task :
  forall task : Task,
    ValidationService.validateTask task = Ok tt ->
    getDurationInMinutes task = Int (endMinute task - startMinute task) /\
    TaskService.getTaskDuration task = Ok (endMinute task - startMinute task) /\
    1 <= endMinute task - startMinute task <= 1439 /\
    forall (h : Host) (plain : JSON.task),
      toJSON h task = Ok plain ->
      JSON.durationMinutes plain = Int (endMinute task - startMinute task).
Proof.
  intros task V.
  destruct (validateTask_ok task V) as (_ & Vs & Ve & _).
  destruct (valid_minutes task V) as (Es & Ee & B & L & U).
  destruct (duration_parts _ (validateTimeFormat_ok _ Vs)) as (sh & sm & Ps1 & Ps2 & Ps).
  destruct (duration_parts _ (validateTimeFormat_ok _ Ve)) as (eh & em & Pe1 & Pe2 & Pe).
  assert (getDurationInMinutes task = Int (endMinute task - startMinute task)) as D.
  { unfold getDurationInMinutes. rewrite Ps1, Ps2, Pe1, Pe2.
    cbn [num_mul num_add num_sub]. f_equal.
    assert (startMinute task = sh * 60 + sm) by congruence.
    assert (endMinute task = eh * 60 + em) by congruence. lia. }
  split; [exact D|]. split; [|split; [lia|]].
  - unfold TaskService.getTaskDuration. rewrite Es, Ee. reflexivity.
  - intros h plain. unfold toJSON.
    destruct (Date_toISOString h (createdAt task)) as [c|]; [|discriminate].
    destruct (updatedAt task) as [d|]; simpl res_bind.
    + destruct (Date_toISOString h d) as [u|]; [|discriminate].
      simpl. intros H. injection H as <-. exact D.
    + intros H. injection H as <-. exact D.
Qed.

Lemma duration_of_a_valid_task_witness :
  getDurationInMinutes Demo.exercise
  = Int (endMinute Demo.exercise - startMinute Demo.exercise) /\
  TaskService.getTaskDuration Demo.exercise
  = Ok (endMinute Demo.exercise - startMinute Demo.exercise) /\
  1 <= endMinute Demo.exercise - startMinute Demo.exercise <= 1439 /\
  forall (h : Host) (plain : JSON.task),
    toJSON h Demo.exercise = Ok plain ->
    JSON.durationMinutes plain
    = Int (endMinute Demo.exercise - startMinute Demo.exercise).
Proof. apply (duration_of_a_valid_task Demo.exercise). reflexivity. Defined.

(** Out of the valid tasks the two durations part: one is NaN where the
    other throws, and a range that ends before it starts has a negative
    duration. *)
Example duration_of_other_tasks :
  getDurationInMinutes (mkTask "T" "Nap" "noon" "13:00" LOW false InvalidDate None) = NaN /\
  thrown (TaskService.getTaskDuration (mkTask "T" "Nap" "noon" "13:00" LOW false InvalidDate None))
  = Some "InvalidTimeFormatError" /\
  getDurationInMinutes (mkTask "T" "Nap" "23:00" "06:00" LOW false InvalidDate None)
  = Int (-1020).
Proof. repeat split; reflexivity. Qed.

(** The expression of [validate] accepts what [TIME_REGEX] accepts, and of
    the strings of five characters nothing else. *)
Lemma timeRegex_TIME_REGEX (time : string) :
  TimeUtils.TIME_REGEX_test time = true <->
  timeRegex_test time = true /\ String.length time = 5%nat.
Proof.
  destruct time as [|h1 [|h2 [|c [|m1 [|m2 [|x rest]]]]]];
    cbn [TimeUtils.TIME_REGEX_test timeRegex_test String.length];
    first [ split; [discriminate | intros [_ H]; discriminate H]
          | split; [intros H; split; [exact H | reflexivity] | intros [H _]; exact H] ].
Qed.

(** A task that passes [validateTask] has no error by [validate], and times
    of five characters. *)
Lemma validateTask_validate (task : Task) :
  ValidationService.validateTask task = Ok tt ->
  validate task = [] /\
  String.length (startTime task) = 5%nat /\ String.length (endTime task) = 5%nat.
Proof.
  intros V. destruct (validateTask_ok task V) as (D & Vs & Ve & s & e & Es & Ee & L).
  apply validateTimeFormat_iff in Vs, Ve.
  destruct (time_order _ _ Vs Ve) as (s' & e' & Es' & Ee' & _ & _ & O & _).
  assert (s' = s) by congruence. assert (e' = e) by congruence. subst.
  apply timeRegex_TIME_REGEX in Vs as [Rs Ls], Ve as [Re Le].
  split; [|split; assumption].
  unfold validate, string_geb. rewrite Rs, Re, O.
  replace (s <? e) with true by (symmetry; apply Z.ltb_lt; exact L).
  assert (String.eqb (description task) EmptyString = false) as N1.
  { apply String.eqb_neq. intros E. apply D. rewrite E. reflexivity. }
  assert (Nat.eqb (String.length (trim (description task))) 0 = false) as N2.
  { apply Nat.eqb_neq. destruct (trim (description task)); [congruence | discriminate]. }
  rewrite N1, N2. destruct (priority task); reflexivity.
Qed.

(** X15. [Task.validate] and [ValidationService.validateTask]: a task passes
    [validateTask] exactly when [validate] finds no error and its two times
    have five characters. [validate] alone is the weaker check: it lets an
    hour of one digit through. *)
Theorem validate_is_weaker_than_validateTask :
  forall task : Task,
    ValidationService.validateTask task = Ok tt <->
    validate task = [] /\
    String.length (startTime task) = 5%nat /\ String.length (endTime task) = 5%nat.
Proof.
  intros task. split.
  - apply validateTask_validate.
  - intros (E & Ls & Le). unfold validate in E.
    apply app_eq_nil in E as [E1 E]. apply app_eq_nil in E as [E2 E].
    apply app_eq_nil in E as [E3 E]. apply app_eq_nil in E as [E4 _].
    destruct (String.eqb (description task) EmptyString
              || Nat.eqb (String.length (trim (description task))) 0) eqn:D;
      [discriminate E1|].
    destruct (timeRegex_test (startTime task)) eqn:Rs; [|discriminate E2].
    destruct (timeRegex_test (endTime task)) eqn:Re; [|discriminate E3].
    destruct (string_geb (startTime task) (endTime task)) eqn:G; [discriminate E4|].
    assert (TimeUtils.TIME_REGEX_test (startTime task) = true) as Vs
      by (apply timeRegex_TIME_REGEX; split; assumption).
    assert (TimeUtils.TIME_REGEX_test (endTime task) = true) as Ve
      by (apply timeRegex_TIME_REGEX; split; assumption).
    destruct (time_order _ _ Vs Ve) as (s & e & Es & Ee & _ & _ & O & _).
    unfold string_geb in G. rewrite O in G. apply negb_false_iff, Z.ltb_lt in G.
    apply validateTask_passes. split.
    + apply orb_false_iff in D as [D1 D2].
      destruct (blank (description task)) eqn:B; [|reflexivity].
      apply trim_blank in B. rewrite B in D2. discriminate D2.
    + apply TIME_REGEX_timeText in Vs as (h1 & m1 & Hh1 & Hm1 & Ts).
      apply TIME_REGEX_timeText in Ve as (h2 & m2 & Hh2 & Hm2 & Te).
      exists h1, m1, h2, m2. repeat (split; [assumption|]).
      rewrite Ts, timeText_minutes in Es by assumption.
      rewrite Te, timeText_minutes in Ee by assumption.
      injection Es as <-. injection Ee as <-. exact G.
Qed.

Example validate_lets_a_short_hour_through :
  validate (mkTask "T" "Nap" "9:00" "9:30" LOW false InvalidDate None) = [] /\
  thrown (ValidationService.validateTask
            (mkTask "T" "Nap" "9:00" "9:30" LOW false InvalidDate None))
  = Some "InvalidTimeFormatError" /\
  validate (mkTask "T" " " "9:00" "10:00" LOW false InvalidDate None)
  = ["Task description cannot be empty"; "End time must be after start time"].
Proof. repeat split; reflexivity. Qed.

(** X16. [isActive] with a time of the format, on a task that passes
    [validateTask]: the task is active from the minute it starts to the
    minute it ends, both counted in (the overlap test counts the end out).
    Without a time, or with the empty string, the time of the system is
    taken. *)
Theorem isActive_counts_both_ends_in :
  forall (task : Task) (currentTime systemTime : string),
    ValidationService.validateTask task = Ok tt ->
    TimeUtils.validateTimeFormat currentTime = Ok tt ->
    isActive task (Some currentTime) systemTime
    = (startMinute task <=? minutesOf currentTime)
      && (minutesOf currentTime <=? endMinute task) /\
    isActive task (Some (startTime task)) systemTime = true /\
    isActive task (Some (endTime task)) systemTime = true /\
    isActive task None currentTime = isActive task (Some currentTime) systemTime /\
    isActive task (Some EmptyString) currentTime
    = isActive task (Some currentTime) systemTime.
Proof.
  intros task now sys V Vn.
  destruct (validateTask_ok task V) as (_ & Vs & Ve & _).
  destruct (valid_minutes task V) as (Es & Ee & B & L & U).
  apply validateTimeFormat_iff in Vs, Ve, Vn.
  assert (forall t, TimeUtils.TIME_REGEX_test t = true ->
            isActive task (Some t) sys
            = (startMinute task <=? minutesOf t) && (minutesOf t <=? endMinute task)) as A.
  { intros t Vt.
    destruct (time_order t (startTime task) Vt Vs) as (n & s & En & Es' & _ & _ & O1 & _).
    destruct (time_order (endTime task) t Ve Vt) as (e & n' & Ee' & En' & _ & _ & O2 & _).
    assert (s = startMinute task) by congruence. assert (e = endMinute task) by congruence.
    assert (n' = n) by congruence. subst s e n'.
    assert (minutesOf t = n) as -> by (unfold minutesOf; rewrite En; reflexivity).
    unfold isActive, string_geb, string_leb.
    destruct t as [|c t']; [discriminate Vt|]. cbn [String.eqb].
    rewrite O1, O2. rewrite <- !Z.leb_antisym. reflexivity. }
  split; [apply A; exact Vn|]. split; [|split; [|split]].
  - rewrite (A _ Vs). fold (startMinute task). apply andb_true_iff.
    rewrite !Z.leb_le. lia.
  - rewrite (A _ Ve). fold (endMinute task). apply andb_true_iff.
    rewrite !Z.leb_le. lia.
  - rewrite (A _ Vn). destruct now as [|c t']; [discriminate Vn|].
    rewrite <- (A _ Vn). unfold isActive. reflexivity.
  - rewrite (A _ Vn). destruct now as [|c t']; [discriminate Vn|].
    rewrite <- (A _ Vn). unfold isActive. reflexivity.
Qed.

Lemma isActive_counts_both_ends_in_witness :
  isActive Demo.exercise (Some "10:00") "23:59"
  = (startMinute Demo.exercise <=? minutesOf "10:00")
    && (minutesOf "10:00" <=? endMinute Demo.exercise) /\
  isActive Demo.exercise (Some (startTime Demo.exercise)) "23:59" = true /\
  isActive Demo.exercise (Some (endTime Demo.exercise)) "23:59" = true /\
  isActive Demo.exercise None "10:00" = isActive Demo.exercise (Some "10:00") "23:59" /\
  isActive Demo.exercise (Some EmptyString) "10:00"
  = isActive Demo.exercise (Some "10:00") "23:59".
Proof.
  apply (isActive_counts_both_ends_in Demo.exercise "10:00" "23:59"); reflexivity.
Defined.

(** X17. [Task.fromJSON] inverts [Task.toJSON]: when the platform writes the
    dates of a task as texts that are not empty and reads them back,
    [toJSON] returns a plain object and [fromJSON] of it is a task with the
    same values in every field, the two dates and the missing [updatedAt]
    included. *)
Theorem fromJSON_inverts_toJSON :
  forall (h : Host) (task : Task),
    survives h (createdAt task) ->
    (forall d : Date, updatedAt task = Some d -> survives h d) ->
    exists plain : JSON.task,
      toJSON h task = Ok plain /\ fromJSON h plain = task.
Proof.
  intros h [i d s e p c created updated] Sc Su. simpl in Sc, Su.
  destruct created as [cms|]; [|contradiction]. destruct Sc as [Nc Pc].
  unfold toJSON. cbn [createdAt updatedAt Date_toISOString res_bind].
  destruct updated as [u|].
  - specialize (Su u eq_refl). destruct u as [ums|]; [|contradiction].
    destruct Su as [Nu Pu]. cbn [Date_toISOString res_bind].
    eexists. split; [reflexivity|].
    unfold fromJSON, orNull. cbn.
    apply String.eqb_neq in Nu. rewrite Nu. cbn. rewrite Nu.
    unfold stamp. cbn. rewrite Pc, Pu. reflexivity.
  - eexists. split; [reflexivity|].
    unfold fromJSON. cbn. rewrite Pc. reflexivity.
Qed.

Lemma fromJSON_inverts_toJSON_witness :
  exists plain : JSON.task,
    toJSON Demo.host0
      (mkTask "TASK-1" "Morning Exercise" "09:00" "10:00" MEDIUM true
              (DateOf 1000) (Some (DateOf 1700000000000))) = Ok plain /\
    fromJSON Demo.host0 plain
    = mkTask "TASK-1" "Morning Exercise" "09:00" "10:00" MEDIUM true
             (DateOf 1000) (Some (DateOf 1700000000000)).
Proof.
  apply (fromJSON_inverts_toJSON Demo.host0).
  - split; [vm_compute; discriminate | vm_compute; reflexivity].
  - intros d E. injection E as <-.
    split; [vm_compute; discriminate | vm_compute; reflexivity].
Defined.

(** The other way round the plain object is not kept: [fromJSON] drops
    [durationMinutes], and [toJSON] computes it again. *)
Example toJSON_of_fromJSON :
  toJSON Demo.host0 (fromJSON Demo.host0 Demo.nightShift) = Ok Demo.nightShift /\
  toJSON Demo.host0
    (fromJSON Demo.host0
       (JSON.mkTask "T" "Nap" "13:00" "13:30" LOW None "1970-01-01T00:00:09.000Z" None NaN))
  = Ok (JSON.mkTask "T" "Nap" "13:00" "13:30" LOW (Some false)
          "1970-01-01T00:00:09.000Z" None (Int 30)).
Proof. split; vm_compute; reflexivity. Qed.

(** ** The operations of the manager when they succeed, and on a missing task *)

#[local] Opaque String.append.






Lemma get_remove_other {V : Type} (k k' : string) (m : JSMap.t V) :
  k' <> k -> JSMap.get k' (JSMap.remove k m) = JSMap.get k' m.
Proof.
  intros N. induction m as [|[k0 v0] rest IH]; simpl; [reflexivity|].
  destruct (String.eqb_spec k0 k) as [E|Ne]; simpl.
  - subst k0. destruct (String.eqb_spec k k'); [congruence | reflexivity].
  - destruct (String.eqb k0 k'); [reflexivity | exact IH].
Qed.


(** A task of a keyed map is found under its identifier. *)
Lemma keyed_get (m : JSMap.t Task) (t : Task) :
  keyed m -> In t (JSMap.values m) -> JSMap.get (id t) m = Some t.
Proof.
  intros [D K] I. apply values_In in I as (k & I).
  assert (id t = k) as E by (apply K; exact I). subst k.
  induction m as [|[k0 v0] rest IH]; [contradiction|].
  simpl. inversion D as [|? ? N D']; subst.
  destruct I as [I|I].
  - injection I as -> ->. rewrite String.eqb_refl. reflexivity.
  - destruct (String.eqb_spec k0 (id t)) as [E|Ne].
    + subst k0. contradiction N. apply (keys_In rest (id t) t I).
    + apply IH; [exact D' | | exact I].
      intros k' t' I'. apply K. right. exact I'.
Qed.











Lemma lower_eqb (a b : string) :
  String.eqb (toLowerCase a) (toLowerCase b) = true <-> toLowerCase a = toLowerCase b.
Proof. apply String.eqb_eq. Qed.



(** X21. A task that is not there. [updateTask] with an identifier the map
    does not hold, and [markTaskCompleted] with a description no stored task
    has, throw a TaskNotFoundError that quotes the argument, and leave the
    manager exactly as it was: no event, no line in the log, no reading of
    the clock. ([removeTask] returns false there.) *)
Theorem operations_on_a_missing_task_throw_TaskNotFoundError :
  forall (w : World) (taskId : string) (updatedTask : Partial.t) (description' : string),
    (JSMap.get taskId (tasks w) = None ->
     ScheduleManager.updateTask taskId updatedTask w
     = (Throw (TaskNotFoundError ("Task with ID " +++ quoted taskId +++ " not found")), w)) /\
    ((forall t, In t (JSMap.values (tasks w)) ->
                toLowerCase (description t) <> toLowerCase description') ->
     ScheduleManager.markTaskCompleted description' w
     = (Throw (TaskNotFoundError ("Task " +++ quoted description' +++ " not found")), w)).
Proof.
  intros w taskId updatedTask description'. split.
  - intros G. unfold ScheduleManager.updateTask, bind, reads, throw. rewrite G. reflexivity.
  - intros N.
    unfold ScheduleManager.markTaskCompleted, ScheduleManager.getTaskByDescription,
      bind, reads, throw.
    rewrite find_none_iff; [reflexivity|].
    intros t I. apply String.eqb_neq. apply N. exact I.
Qed.

Example operations_on_a_missing_task :
  thrown (fst (ScheduleManager.updateTask "TASK-7" Demo.moveOnto (Demo.twoTasks Demo.host0)))
  = Some "TaskNotFoundError" /\
  thrown (fst (ScheduleManager.markTaskCompleted "Lunch" (Demo.twoTasks Demo.host0)))
  = Some "TaskNotFoundError" /\
  fst (ScheduleManager.removeTask "Lunch" (Demo.twoTasks Demo.host0)) = Ok false.
Proof. repeat split; vm_compute; reflexivity. Qed.





#[local] Transparent String.append.

(** ** The listeners of the manager *)

Lemma perform_observers (op : Operation) (w : World) :
  observers (after (perform op) w) = observers w.
Proof.
  destruct op; unfold perform; rewrite after_then_ret; unfold after.
  - destruct (addTask_outcome task w) as (r & w' & E & _ & Ho & _). rewrite E. exact Ho.
  - destruct (removeTask_outcome description' w) as (r & w' & E & _ & Ho & _).
    rewrite E. exact Ho.
  - destruct (updateTask_outcome taskId updatedTask w) as (r & w' & E & _ & Ho & _).
    rewrite E. exact Ho.
  - destruct (markTaskCompleted_outcome description' w) as (r & w' & E & _ & Ho & _).
    rewrite E. exact Ho.
  - destruct (clearAllTasks_outcome w) as (w' & d & E & _ & Ho & _). rewrite E. exact Ho.
  - destruct (importFromJSON_outcome jsonString w) as (r & w' & E & _ & Ho & _).
    rewrite E. exact Ho.
Qed.

Lemma attached_iff (o : IObserver.t) (l : list IObserver.t) :
  existsb (ScheduleManager.sameObserver o) l = true
  <-> In (IObserver.identity o) (map IObserver.identity l).
Proof.
  rewrite existsb_exists, in_map_iff. unfold ScheduleManager.sameObserver.
  split; intros (x & H1 & H2); exists x.
  - apply Nat.eqb_eq in H2. auto.
  - split; [exact H2 | apply Nat.eqb_eq; auto].
Qed.

(** What [attach] does, by whether the listener is in the array. *)
Lemma attach_spec (o : IObserver.t) (w : World) :
  (existsb (ScheduleManager.sameObserver o) (observers w) = true ->
   fst (ScheduleManager.attach o w) = Ok false /\
   observers (after (ScheduleManager.attach o) w) = observers w) /\
  (existsb (ScheduleManager.sameObserver o) (observers w) = false ->
   fst (ScheduleManager.attach o w) = Ok true /\
   observers (after (ScheduleManager.attach o) w) = observers w ++ [o]).
Proof.
  unfold ScheduleManager.attach, after, bind, reads, writes, ret, Logger. simpl.
  destruct (existsb (ScheduleManager.sameObserver o) (observers w)); simpl;
    split; intros H; try discriminate H; split; reflexivity.
Qed.

(** What [detach] does, by whether the listener is in the array. *)
Lemma detach_spec (o : IObserver.t) (w : World) :
  (existsb (ScheduleManager.sameObserver o) (observers w) = true ->
   fst (ScheduleManager.detach o w) = Ok true /\
   observers (after (ScheduleManager.detach o) w)
   = ScheduleManager.spliceFirst o (observers w)) /\
  (existsb (ScheduleManager.sameObserver o) (observers w) = false ->
   fst (ScheduleManager.detach o w) = Ok false /\
   observers (after (ScheduleManager.detach o) w) = observers w).
Proof.
  unfold ScheduleManager.detach, after, bind, reads, writes, ret, Logger. simpl.
  destruct (existsb (ScheduleManager.sameObserver o) (observers w)); simpl;
    split; intros H; try discriminate H; split; reflexivity.
Qed.

Lemma spliceFirst_identities (o : IObserver.t) (l : list IObserver.t) (n : nat) :
  In n (map IObserver.identity (ScheduleManager.spliceFirst o l)) ->
  In n (map IObserver.identity l).
Proof.
  induction l as [|x l IH]; simpl; [tauto|].
  destruct (ScheduleManager.sameObserver x o); simpl; [tauto|].
  intros [H|H]; [left; exact H | right; apply IH; exact H].
Qed.

Lemma spliceFirst_NoDup (o : IObserver.t) (l : list IObserver.t) :
  NoDup (map IObserver.identity l) ->
  NoDup (map IObserver.identity (ScheduleManager.spliceFirst o l)) /\
  ~ In (IObserver.identity o) (map IObserver.identity (ScheduleManager.spliceFirst o l)).
Proof.
  induction l as [|x l IH]; simpl; intros D; [split; [constructor | tauto]|].
  inversion D as [|? ? N D']; subst.
  destruct (ScheduleManager.sameObserver x o) eqn:S; unfold ScheduleManager.sameObserver in S.
  - apply Nat.eqb_eq in S. split; [exact D'|]. rewrite <- S. exact N.
  - apply Nat.eqb_neq in S. rename S into Ne.
    destruct (IH D') as [I1 I2]. simpl. split.
    + constructor; [|exact I1]. intros H. apply N. eapply spliceFirst_identities; eauto.
    + intros [H|H]; [apply Ne; exact H | apply I2; exact H].
Qed.

Lemma spliceFirst_last (o : IObserver.t) (l : list IObserver.t) :
  existsb (ScheduleManager.sameObserver o) l = false ->
  ScheduleManager.spliceFirst o (l ++ [o]) = l.
Proof.
  induction l as [|x l IH]; simpl; intros H.
  - unfold ScheduleManager.sameObserver. rewrite Nat.eqb_refl. reflexivity.
  - apply orb_false_iff in H as [H1 H2].
    unfold ScheduleManager.sameObserver in H1 |- *.
    rewrite Nat.eqb_sym, H1. rewrite IH by exact H2. reflexivity.
Qed.

(** The listeners of a manager are attached once each. *)
Lemma reachable_observers (allowed : Operation -> Prop) (h : Host) (w : World) :
  reachable allowed h w -> NoDup (map IObserver.identity (observers w)).
Proof.
  induction 1 as [|op w _ _ IH|event data w _ IH|o w _ IH|o w _ IH].
  - constructor.
  - rewrite perform_observers. exact IH.
  - destruct (notify_spec event data w) as (w' & E & _ & _ & Ho & _).
    unfold after. rewrite E. simpl. rewrite Ho. exact IH.
  - destruct (attach_spec o w) as [Y N].
    destruct (existsb (ScheduleManager.sameObserver o) (observers w)) eqn:A.
    + rewrite (proj2 (Y eq_refl)). exact IH.
    + rewrite (proj2 (N eq_refl)). rewrite map_app. simpl.
      apply NoDup_app_remove_r with (l' := []). rewrite app_nil_r.
      apply (Permutation_NoDup (l := IObserver.identity o :: map IObserver.identity (observers w))).
      * apply Permutation_cons_append.
      * constructor; [|exact IH].
        intros I. apply attached_iff in I. congruence.
  - destruct (detach_spec o w) as [Y N].
    destruct (existsb (ScheduleManager.sameObserver o) (observers w)) eqn:A.
    + rewrite (proj2 (Y eq_refl)). apply spliceFirst_NoDup. exact IH.
    + rewrite (proj2 (N eq_refl)). exact IH.
Qed.

(** A call of [notify] calls the listeners of the array only. *)
Lemma notify_avoids (n : nat) (event : string) (data : IEventData.t) (w : World) :
  ~ In n (map IObserver.identity (observers w)) ->
  Forall (fun d => receiver d <> n)
         (skipn (List.length (delivered w))
                (delivered (after (ScheduleManager.notify event data) w))).
Proof.
  intros N.
  destruct (notify_spec event data w) as (w' & E & _ & _ & _ & _ & _ & Hd).
  unfold after. rewrite E. simpl. rewrite Hd.
  rewrite skipn_app, skipn_all, Nat.sub_diag. simpl.
  eapply Forall_impl; [|apply dispatched_receivers].
  intros d I Ed. apply N. rewrite <- Ed. exact I.
Qed.

Lemma avoids_quiet (n : nat) {A : Type} (m : M A) :
  (forall w, observers (after m w) = observers w /\ delivered (after m w) = delivered w) ->
  avoids n m.
Proof.
  intros Q w _. destruct (Q w) as [Ho Hd]. split; [exact Ho|].
  exists []. rewrite app_nil_r. split; [exact Hd | constructor].
Qed.

Lemma avoids_bind (n : nat) {A B : Type} (m : M A) (k : A -> M B) :
  avoids n m -> (forall a, avoids n (k a)) -> avoids n (bind m k).
Proof.
  intros Hm Hk w N. destruct (Hm w N) as (Ho & sent & Hd & F).
  unfold after, bind in *. destruct (m w) as [[a|e] w1]; simpl in *.
  - assert (~ In n (map IObserver.identity (observers w1))) as N1 by (rewrite Ho; exact N).
    destruct (Hk a w1 N1) as (Ho2 & sent2 & Hd2 & F2). unfold after in Ho2, Hd2.
    split; [congruence|]. exists (sent ++ sent2).
    rewrite Hd2, Hd, app_assoc. split; [reflexivity | apply Forall_app; split; assumption].
  - split; [exact Ho|]. exists sent. split; assumption.
Qed.

Lemma avoids_tryCatch (n : nat) {A : Type} (m : M A) (handler : Error -> M A) :
  avoids n m -> (forall e, avoids n (handler e)) -> avoids n (tryCatch m handler).
Proof.
  intros Hm Hk w N. destruct (Hm w N) as (Ho & sent & Hd & F).
  unfold after, tryCatch in *. destruct (m w) as [[a|e] w1]; simpl in *.
  - split; [exact Ho|]. exists sent. split; assumption.
  - assert (~ In n (map IObserver.identity (observers w1))) as N1 by (rewrite Ho; exact N).
    destruct (Hk e w1 N1) as (Ho2 & sent2 & Hd2 & F2). unfold after in Ho2, Hd2.
    split; [congruence|]. exists (sent ++ sent2).
    rewrite Hd2, Hd, app_assoc. split; [reflexivity | apply Forall_app; split; assumption].
Qed.

Lemma avoids_notify (n : nat) (event : string) (data : IEventData.t) :
  avoids n (ScheduleManager.notify event data).
Proof.
  intros w N. pose proof (notify_avoids n event data w N) as F.
  destruct (notify_spec event data w) as (w' & E & _ & _ & Ho & _ & _ & Hd).
  unfold after in *. rewrite E in *. simpl in *. split; [exact Ho|].
  eexists. split; [exact Hd|].
  rewrite Hd, skipn_app, skipn_all, Nat.sub_diag in F. exact F.
Qed.

Lemma avoids_forEach (n : nat) {A : Type} (xs : list A) (body : A -> M unit) :
  (forall x, avoids n (body x)) -> avoids n (forEach xs body).
Proof.
  intros H. induction xs as [|x xs IH]; simpl.
  - apply avoids_quiet. intros w. split; reflexivity.
  - apply avoids_bind; [apply H | intros _; exact IH].
Qed.

Ltac avoids_tac :=
  repeat first
    [ apply avoids_notify
    | apply avoids_bind; [|intros ?]
    | apply avoids_tryCatch; [|intros ?]
    | apply avoids_forEach; intros ?
    | match goal with
      | |- avoids _ (match ?x with _ => _ end) => destruct x
      | |- avoids _ (if ?x then _ else _) => destruct x
      end
    | apply avoids_quiet; intros ?; split; reflexivity ].

(** An operation on the schedule calls the listeners of the array only. *)
Lemma perform_avoids (n : nat) (op : Operation) (w : World) :
  ~ In n (map IObserver.identity (observers w)) ->
  Forall (fun d => receiver d <> n)
         (skipn (List.length (delivered w)) (delivered (after (perform op) w))).
Proof.
  intros N.
  assert (avoids n (perform op)) as A.
  { destruct op; unfold perform.
    - unfold ScheduleManager.addTask, ScheduleManager.checkForConflict. avoids_tac.
    - unfold ScheduleManager.removeTask, ScheduleManager.getTaskByDescription. avoids_tac.
    - unfold ScheduleManager.updateTask. avoids_tac.
    - unfold ScheduleManager.markTaskCompleted, ScheduleManager.getTaskByDescription.
      avoids_tac.
    - unfold ScheduleManager.clearAllTasks. avoids_tac.
    - unfold ScheduleManager.importFromJSON, ScheduleManager.importItem. avoids_tac. }
  destruct (A w N) as (_ & sent & Hd & F).
  rewrite Hd, skipn_app, skipn_all, Nat.sub_diag. exact F.
Qed.

(** ** Listeners that attach and detach during a dispatch *)

Lemma dispatched_once (event : string) (data : IEventData.t) (l : list IObserver.t) :
  NoDup (map IObserver.identity l) ->
  forall history, NoDup (map receiver (dispatched l history event data)).
Proof.
  induction l as [|o l IH]; intros D history; simpl; [constructor|].
  inversion D as [|? ? N D']; subst.
  rewrite map_app. unfold handed at 1.
  destruct (invites o history event); simpl; [|apply IH; exact D'].
  constructor; [|apply IH; exact D'].
  intros I. apply N.
  pose proof (dispatched_receivers event data l
                (history ++ handed o history event data)) as F.
  rewrite Forall_forall in F.
  apply in_map_iff in I as (d & Ed & Id). rewrite <- Ed. apply F. exact Id.
Qed.

(** With listeners that leave the array alone the body of the loop is the
    one of [ScheduleManager.notify]. *)
Lemma Live_notifyOne_still (calls : Live.Behaviour) (event : string) (data : IEventData.t)
  (o : IObserver.t) (w : World) :
  (forall observer e, calls observer e = []) ->
  Live.notifyOne calls event data o w = ScheduleManager.notifyOne event data o w.
Proof.
  intros Still. unfold Live.notifyOne, ScheduleManager.notifyOne, Live.callUpdate.
  rewrite Still. simpl forEach. unfold tryCatch, bind, ret.
  destruct (ScheduleManager.declines o event w) as [[[|]|e] w1]; reflexivity.
Qed.

Lemma Live_loop_still (calls : Live.Behaviour) (event : string) (data : IEventData.t) :
  (forall observer e, calls observer e = []) ->
  forall (rest : list IObserver.t) (steps : nat) (ahead : list IObserver.t) (w : World),
    observers w = ahead ++ rest ->
    (List.length rest <= steps)%nat ->
    Live.loop steps calls event data (List.length ahead) w
    = (Ok true, snd (forEach rest (ScheduleManager.notifyOne event data) w)).
Proof.
  intros Still. induction rest as [|o rest IH]; intros steps ahead w Ho L.
  - assert (nth_error (observers w) (List.length ahead) = None) as E.
    { apply nth_error_None. rewrite Ho, app_nil_r. lia. }
    destruct steps; simpl; unfold bind, reads; rewrite E; reflexivity.
  - assert (nth_error (observers w) (List.length ahead) = Some o) as E.
    { rewrite Ho, nth_error_app2, Nat.sub_diag by lia. reflexivity. }
    destruct steps as [|steps]; [simpl in L; lia|].
    simpl. unfold bind at 1, reads at 1. rewrite E.
    unfold bind at 1. rewrite (Live_notifyOne_still calls event data o w Still).
    unfold bind.
    destruct (notifyOne_spec event data o w) as (w1 & E1 & _ & _ & Ho1 & _).
    rewrite E1.
    replace (S (List.length ahead)) with (List.length (ahead ++ [o]))
      by (rewrite length_app; simpl; lia).
    apply IH; [|simpl in L; lia].
    rewrite Ho1, Ho, <- app_assoc. reflexivity.
Qed.

(** [ScheduleManager.notify] is the loop over the array the manager holds,
    when no listener attaches or detaches during the dispatch. *)
Lemma Live_notify_still (calls : Live.Behaviour) (steps : nat) (event : string)
  (data : IEventData.t) (w : World) :
  (forall observer e, calls observer e = []) ->
  (List.length (observers w) <= steps)%nat ->
  Live.notify steps calls event data w
  = (Ok true, after (ScheduleManager.notify event data) w).
Proof.
  intros Still L.
  unfold Live.notify, ScheduleManager.notify, after, bind, Logger, writes, reads.
  cbv beta iota.
  match goal with
  | |- Live.loop _ _ _ _ _ ?w0 = _ =>
      pose proof (Live_loop_still calls event data Still (observers w) steps [] w0
                    eq_refl L) as H
  end.
  change (List.length (@nil IObserver.t)) with 0%nat in H.
  rewrite H. reflexivity.
Qed.

Lemma excludes_quiet (n : nat) {A : Type} (m : M A) :
  (forall w, observers (after m w) = observers w /\ delivered (after m w) = delivered w) ->
  excludes n m.
Proof.
  intros Q w N. destruct (Q w) as [Ho Hd]. split; [rewrite Ho; exact N|].
  exists []. rewrite app_nil_r. split; [exact Hd | constructor].
Qed.

Lemma excludes_bind (n : nat) {A B : Type} (m : M A) (k : A -> M B) :
  excludes n m -> (forall a, excludes n (k a)) -> excludes n (bind m k).
Proof.
  intros Hm Hk w N. destruct (Hm w N) as (N1 & sent & Hd & F).
  unfold after, bind in *. destruct (m w) as [[a|e] w1]; simpl in *.
  - destruct (Hk a w1 N1) as (N2 & sent2 & Hd2 & F2). unfold after in N2, Hd2.
    split; [exact N2|]. exists (sent ++ sent2).
    rewrite Hd2, Hd, app_assoc. split; [reflexivity | apply Forall_app; split; assumption].
  - split; [exact N1|]. exists sent. split; assumption.
Qed.

Lemma excludes_tryCatch (n : nat) {A : Type} (m : M A) (handler : Error -> M A) :
  excludes n m -> (forall e, excludes n (handler e)) -> excludes n (tryCatch m handler).
Proof.
  intros Hm Hk w N. destruct (Hm w N) as (N1 & sent & Hd & F).
  unfold after, tryCatch in *. destruct (m w) as [[a|e] w1]; simpl in *.
  - split; [exact N1|]. exists sent. split; assumption.
  - destruct (Hk e w1 N1) as (N2 & sent2 & Hd2 & F2). unfold after in N2, Hd2.
    split; [exact N2|]. exists (sent ++ sent2).
    rewrite Hd2, Hd, app_assoc. split; [reflexivity | apply Forall_app; split; assumption].
Qed.

Lemma excludes_call (n : nat) (c : Live.Call) :
  (forall attached, c = Live.Attach attached -> IObserver.identity attached <> n) ->
  excludes n (Live.call c).
Proof.
  intros Ok w N. destruct c as [o|o]; unfold Live.call.
  - assert (observers (after (ScheduleManager.attach o ;; ret tt) w)
            = observers (after (ScheduleManager.attach o) w) /\
            delivered (after (ScheduleManager.attach o ;; ret tt) w) = delivered w) as [Eo Ed].
    { unfold ScheduleManager.attach, after, bind, reads, writes, ret, Logger. simpl.
      destruct (existsb (ScheduleManager.sameObserver o) (observers w)); split; reflexivity. }
    rewrite Eo, Ed. split; [|exists []; rewrite app_nil_r; split; [reflexivity | constructor]].
    destruct (attach_spec o w) as [Y No].
    destruct (existsb (ScheduleManager.sameObserver o) (observers w)) eqn:A.
    + rewrite (proj2 (Y eq_refl)). exact N.
    + rewrite (proj2 (No eq_refl)), map_app, in_app_iff. simpl.
      intros [I|[I|[]]]; [exact (N I) | exact (Ok o eq_refl I)].
  - assert (observers (after (ScheduleManager.detach o ;; ret tt) w)
            = observers (after (ScheduleManager.detach o) w) /\
            delivered (after (ScheduleManager.detach o ;; ret tt) w) = delivered w) as [Eo Ed].
    { unfold ScheduleManager.detach, after, bind, reads, writes, ret, Logger. simpl.
      destruct (existsb (ScheduleManager.sameObserver o) (observers w)); split; reflexivity. }
    rewrite Eo, Ed. split; [|exists []; rewrite app_nil_r; split; [reflexivity | constructor]].
    destruct (detach_spec o w) as [Y No].
    destruct (existsb (ScheduleManager.sameObserver o) (observers w)) eqn:A.
    + rewrite (proj2 (Y eq_refl)). intros I. apply N.
      eapply spliceFirst_identities; exact I.
    + rewrite (proj2 (No eq_refl)). exact N.
Qed.

Lemma excludes_calls (n : nat) (l : list Live.Call) :
  (forall attached, In (Live.Attach attached) l -> IObserver.identity attached <> n) ->
  excludes n (forEach l Live.call).
Proof.
  induction l as [|c l IH]; intros Ok; simpl.
  - apply excludes_quiet. intros w. split; reflexivity.
  - apply excludes_bind.
    + apply excludes_call. intros attached ->. apply Ok. left. reflexivity.
    + intros _. apply IH. intros attached I. apply Ok. right. exact I.
Qed.

Lemma excludes_notifyOne (n : nat) (calls : Live.Behaviour) (event : string)
  (data : IEventData.t) (o : IObserver.t) :
  neverAttaches n calls -> IObserver.identity o <> n ->
  excludes n (Live.notifyOne calls event data o).
Proof.
  intros Never Ne. unfold Live.notifyOne.
  apply excludes_tryCatch.
  - apply excludes_bind.
    + apply excludes_quiet. intros w. unfold ScheduleManager.declines, after.
      destruct (IObserver.isInterestedIn o); split; reflexivity.
    + intros [|]; [apply excludes_quiet; intros w; split; reflexivity|].
      unfold Live.callUpdate. apply excludes_bind.
      * apply excludes_calls. intros attached I. exact (Never o attached event I).
      * intros _ w N. unfold ScheduleManager.callUpdate, after. simpl.
        split; [exact N|]. eexists. split; [reflexivity|].
        constructor; [exact Ne | constructor].
  - intros e. apply excludes_quiet. intros w. split; reflexivity.
Qed.

(** A dispatch in which no listener attaches a certain listener does not
    call it, when it is not in the array at the start. *)
Lemma excludes_loop (n : nat) (calls : Live.Behaviour) (event : string)
  (data : IEventData.t) :
  neverAttaches n calls ->
  forall (steps index : nat), excludes n (Live.loop steps calls event data index).
Proof.
  intros Never.
  assert (forall w, ~ In n (map IObserver.identity (observers w)) ->
            forall index o, nth_error (observers w) index = Some o ->
                            IObserver.identity o <> n) as Other.
  { intros w N index o E Same. apply N. rewrite <- Same.
    apply in_map. eapply nth_error_In. exact E. }
  assert (forall (b : bool) w, ~ In n (map IObserver.identity (observers w)) ->
            ~ In n (map IObserver.identity (observers (after (ret b) w))) /\
            exists sent, delivered (after (ret b) w) = delivered w ++ sent /\
                         Forall (fun d => receiver d <> n) sent) as Done.
  { intros b w N. split; [exact N|]. exists []. rewrite app_nil_r.
    split; [reflexivity | constructor]. }
  induction steps as [|steps IH]; intros index w N.
  - assert (Live.loop 0 calls event data index w
            = match nth_error (observers w) index with
              | Some _ => (Ok false, w)
              | None => (Ok true, w)
              end) as Eq
      by (simpl; unfold bind, reads; destruct (nth_error (observers w) index); reflexivity).
    unfold after. rewrite Eq.
    destruct (nth_error (observers w) index); [apply (Done false w N) | apply (Done true w N)].
  - assert (Live.loop (S steps) calls event data index w
            = match nth_error (observers w) index with
              | Some o => (Live.notifyOne calls event data o ;;
                           Live.loop steps calls event data (S index)) w
              | None => (Ok true, w)
              end) as Eq
      by (simpl; unfold bind at 1, reads at 1;
          destruct (nth_error (observers w) index); reflexivity).
    unfold after. rewrite Eq.
    destruct (nth_error (observers w) index) as [o|] eqn:E; [|apply (Done true w N)].
    apply (excludes_bind n (Live.notifyOne calls event data o)
             (fun _ => Live.loop steps calls event data (S index))); [| |exact N].
    + apply excludes_notifyOne; [exact Never | exact (Other w N index o E)].
    + intros _. apply IH.
Qed.

Lemma excludes_notify (n : nat) (calls : Live.Behaviour) (steps : nat) (event : string)
  (data : IEventData.t) :
  neverAttaches n calls -> excludes n (Live.notify steps calls event data).
Proof.
  intros Never. unfold Live.notify.
  apply excludes_bind; [apply excludes_quiet; intros w; split; reflexivity|]. intros _.
  apply excludes_bind; [apply excludes_quiet; intros w; split; reflexivity|]. intros current.
  apply excludes_bind; [apply excludes_quiet; intros w; split; reflexivity|]. intros _.
  apply excludes_loop. exact Never.
Qed.

Lemma deliveredSince_excludes (n : nat) {A : Type} (m : M A) (w : World) :
  excludes n m ->
  ~ In n (map IObserver.identity (observers w)) ->
  Forall (fun d => receiver d <> n) (deliveredSince m w) /\
  ~ In n (map IObserver.identity (observers (after m w))).
Proof.
  intros X N. destruct (X w N) as (N' & sent & Hd & F).
  unfold deliveredSince. rewrite Hd, skipn_app, skipn_all, Nat.sub_diag.
  split; [exact F | exact N'].
Qed.

(** X24. In every state a manager reaches from its creation through the
    operations on the schedule, [notify], [attach] and [detach], each
    listener is in the array of listeners at most once. When no listener
    calls [attach] or [detach] from inside [update] during the dispatch, a
    call of [notify], the loop over the array the manager holds, returns
    and hands the event to each listener at most once. (A listener that
    detaches and attaches itself in its [update] can be called twice:
    [listeners_that_rejoin_are_called_again].) *)
Theorem listeners_are_attached_once :
  forall (h : Host) (w : World),
    reachable anyOperation h w ->
    NoDup (map IObserver.identity (observers w)) /\
    forall (calls : Live.Behaviour) (steps : nat) (event : string) (data : IEventData.t),
      (forall observer e, calls observer e = []) ->
      (List.length (observers w) <= steps)%nat ->
      fst (Live.notify steps calls event data w) = Ok true /\
      NoDup (map receiver (deliveredSince (Live.notify steps calls event data) w)).
Proof.
  intros h w R. pose proof (reachable_observers _ _ _ R) as D.
  split; [exact D|]. intros calls steps event data Still L.
  unfold deliveredSince, after. rewrite (Live_notify_still calls steps event data w Still L).
  split; [reflexivity|]. simpl snd.
  destruct (notify_spec event data w) as (w' & E & _ & _ & _ & _ & _ & Hd).
  unfold after. rewrite E. simpl. rewrite Hd.
  rewrite skipn_app, skipn_all, Nat.sub_diag. simpl.
  apply dispatched_once. exact D.
Qed.

Lemma watched_reachable (allowed : Operation -> Prop) (h : Host) :
  (forall task, allowed (AddTask task)) -> reachable allowed h (Demo.watched h).
Proof.
  intros Y. unfold Demo.watched.
  apply reachable_perform; [apply Y|]. apply reachable_perform; [apply Y|].
  apply reachable_attach. apply reachable_attach. apply reachable_create.
Qed.

Lemma listeners_are_attached_once_witness :
  NoDup (map IObserver.identity (observers (Demo.watched Demo.host0))) /\
  forall (calls : Live.Behaviour) (steps : nat) (event : string) (data : IEventData.t),
    (forall observer e, calls observer e = []) ->
    (List.length (observers (Demo.watched Demo.host0)) <= steps)%nat ->
    fst (Live.notify steps calls event data (Demo.watched Demo.host0)) = Ok true /\
    NoDup (map receiver
             (deliveredSince (Live.notify steps calls event data) (Demo.watched Demo.host0))).
Proof.
  apply (listeners_are_attached_once Demo.host0 (Demo.watched Demo.host0)).
  apply watched_reachable. intros task. exact I.
Defined.

(** A listener that calls [detach] and [attach] of itself in its [update]
    goes to the end of the array: the loop reaches it again, and the
    listener that took its place is not called. *)
Example listeners_that_rejoin_are_called_again :
  map IObserver.identity (observers (Demo.listening Demo.host0)) = [1; 2]%nat /\
  forall extra : nat,
    fst (Live.notify (3 + extra) Demo.rejoining ScheduleEvent.TASK_ADDED Demo.ping
           (Demo.listening Demo.host0)) = Ok true /\
    map receiver
        (deliveredSince (Live.notify (3 + extra) Demo.rejoining ScheduleEvent.TASK_ADDED
                           Demo.ping)
           (Demo.listening Demo.host0))
    = [1; 1]%nat.
Proof. split; [reflexivity|]. intros extra. split; reflexivity. Qed.

Lemma attach_published (o : IObserver.t) (w : World) :
  published (after (ScheduleManager.attach o) w) = published w.
Proof.
  unfold ScheduleManager.attach, after, bind, reads, writes, ret, Logger. simpl.
  destruct (existsb (ScheduleManager.sameObserver o) (observers w)); reflexivity.
Qed.

Lemma detach_published (o : IObserver.t) (w : World) :
  published (after (ScheduleManager.detach o) w) = published w.
Proof.
  unfold ScheduleManager.detach, after, bind, reads, writes, ret, Logger. simpl.
  destruct (existsb (ScheduleManager.sameObserver o) (observers w)); reflexivity.
Qed.

(** X25. [attach] and [detach]. A listener that is not attached is attached
    at the end of the array, and [attach] returns true; attaching it again
    returns false and changes nothing. [detach] of it then returns true and
    gives back the array there was before; detaching it again returns
    false and changes nothing. *)
Theorem attach_then_detach_restores_the_listeners :
  forall (w : World) (o : IObserver.t),
    ~ In (IObserver.identity o) (map IObserver.identity (observers w)) ->
    exists w1 w2 w3 w4 : World,
      ScheduleManager.attach o w = (Ok true, w1) /\
      observers w1 = observers w ++ [o] /\
      ScheduleManager.attach o w1 = (Ok false, w2) /\
      observers w2 = observers w1 /\
      ScheduleManager.detach o w2 = (Ok true, w3) /\
      observers w3 = observers w /\
      ScheduleManager.detach o w3 = (Ok false, w4) /\
      observers w4 = observers w /\
      tasks w4 = tasks w /\ published w4 = published w.
Proof.
  intros w o N.
  assert (existsb (ScheduleManager.sameObserver o) (observers w) = false) as A.
  { destruct (existsb (ScheduleManager.sameObserver o) (observers w)) eqn:E; [|reflexivity].
    exfalso. apply N. apply attached_iff. exact E. }
  assert (existsb (ScheduleManager.sameObserver o) (observers w ++ [o]) = true) as A'.
  { rewrite existsb_app. simpl. unfold ScheduleManager.sameObserver at 2.
    rewrite Nat.eqb_refl. rewrite orb_true_r. reflexivity. }
  set (w1 := after (ScheduleManager.attach o) w).
  set (w2 := after (ScheduleManager.attach o) w1).
  set (w3 := after (ScheduleManager.detach o) w2).
  set (w4 := after (ScheduleManager.detach o) w3).
  destruct (proj2 (attach_spec o w) A) as [R1 O1]. fold w1 in O1.
  rewrite <- O1 in A'.
  destruct (proj1 (attach_spec o w1) A') as [R2 O2]. fold w2 in O2.
  rewrite <- O2 in A'.
  destruct (proj1 (detach_spec o w2) A') as [R3 O3]. fold w3 in O3.
  rewrite O2, O1, (spliceFirst_last o _ A) in O3.
  rewrite <- O3 in A.
  destruct (proj2 (detach_spec o w3) A) as [R4 O4]. fold w4 in O4.
  exists w1, w2, w3, w4.
  split; [apply run_eq; exact R1|]. split; [exact O1|].
  split; [apply run_eq; exact R2|]. split; [exact O2|].
  split; [apply run_eq; exact R3|]. split; [exact O3|].
  split; [apply run_eq; exact R4|]. split; [congruence|].
  unfold w4, w3, w2, w1. split.
  - rewrite (proj2 (detach_worlds o _)), (proj2 (detach_worlds o _)),
            (proj2 (attach_worlds o _)), (proj2 (attach_worlds o _)). reflexivity.
  - rewrite !detach_published, !attach_published. reflexivity.
Qed.

Lemma attach_then_detach_restores_the_listeners_witness :
  exists w1 w2 w3 w4 : World,
    ScheduleManager.attach Demo.quiet (ScheduleManager.create Demo.host0) = (Ok true, w1) /\
    observers w1 = observers (ScheduleManager.create Demo.host0) ++ [Demo.quiet] /\
    ScheduleManager.attach Demo.quiet w1 = (Ok false, w2) /\
    observers w2 = observers w1 /\
    ScheduleManager.detach Demo.quiet w2 = (Ok true, w3) /\
    observers w3 = observers (ScheduleManager.create Demo.host0) /\
    ScheduleManager.detach Demo.quiet w3 = (Ok false, w4) /\
    observers w4 = observers (ScheduleManager.create Demo.host0) /\
    tasks w4 = tasks (ScheduleManager.create Demo.host0) /\
    published w4 = published (ScheduleManager.create Demo.host0).
Proof.
  apply (attach_then_detach_restores_the_listeners (ScheduleManager.create Demo.host0)
           Demo.quiet).
  simpl. tauto.
Defined.

(** X26. [detach] takes the listener out of the array: in a state the
    manager reaches through the operations on the schedule, [notify],
    [attach] and [detach], after [detach] of a listener no listener of its
    identity is attached. A call of [notify] from there does not call it,
    and does not have it attached at its end, when no listener attaches it
    during the dispatch, whatever else the listeners attach and detach; an
    operation on the schedule does not call it either, its dispatch being
    the one of listeners that leave the array alone. After [detachAll] the
    count of the listeners is zero and [notify] calls nobody. (A listener
    that another listener attaches during the dispatch is called:
    [attached_during_the_dispatch_is_called].) *)
Theorem detached_listeners_are_not_called :
  forall (h : Host) (w : World) (o : IObserver.t),
    reachable anyOperation h w ->
    ~ In (IObserver.identity o)
         (map IObserver.identity (observers (after (ScheduleManager.detach o) w))) /\
    (forall (calls : Live.Behaviour) (steps : nat) (event : string) (data : IEventData.t),
       neverAttaches (IObserver.identity o) calls ->
       Forall (fun d => receiver d <> IObserver.identity o)
              (deliveredSince (Live.notify steps calls event data)
                 (after (ScheduleManager.detach o) w)) /\
       ~ In (IObserver.identity o)
            (map IObserver.identity
               (observers (after (Live.notify steps calls event data)
                             (after (ScheduleManager.detach o) w))))) /\
    (forall op : Operation,
       Forall (fun d => receiver d <> IObserver.identity o)
              (deliveredSince (perform op) (after (ScheduleManager.detach o) w))) /\
    fst (ScheduleManager.getObserverCount (after ScheduleManager.detachAll w)) = Ok 0%nat /\
    (forall (calls : Live.Behaviour) (steps : nat) (event : string) (data : IEventData.t),
       fst (Live.notify steps calls event data (after ScheduleManager.detachAll w)) = Ok true /\
       deliveredSince (Live.notify steps calls event data) (after ScheduleManager.detachAll w)
       = []).
Proof.
  intros h w o R.
  assert (~ In (IObserver.identity o)
            (map IObserver.identity (observers (after (ScheduleManager.detach o) w)))) as N.
  { pose proof (reachable_observers _ _ _ R) as D.
    destruct (detach_spec o w) as [Y No].
    destruct (existsb (ScheduleManager.sameObserver o) (observers w)) eqn:A.
    - rewrite (proj2 (Y eq_refl)). apply spliceFirst_NoDup. exact D.
    - rewrite (proj2 (No eq_refl)). intros I. apply attached_iff in I. congruence. }
  split; [exact N|]. split; [|split; [|split]].
  - intros calls steps event data Never.
    apply deliveredSince_excludes; [apply excludes_notify; exact Never | exact N].
  - intros op. apply (perform_avoids _ _ _ N).
  - reflexivity.
  - intros calls steps event data.
    unfold deliveredSince, Live.notify, after, ScheduleManager.detachAll, bind, writes,
      reads, Logger. simpl.
    destruct steps; simpl; unfold bind, reads, ret; simpl;
      rewrite skipn_all; split; reflexivity.
Qed.

Lemma detached_listeners_are_not_called_witness :
  ~ In (IObserver.identity Demo.faulty)
       (map IObserver.identity
          (observers (after (ScheduleManager.detach Demo.faulty) (Demo.watched Demo.host0)))) /\
  (forall (calls : Live.Behaviour) (steps : nat) (event : string) (data : IEventData.t),
     neverAttaches (IObserver.identity Demo.faulty) calls ->
     Forall (fun d => receiver d <> IObserver.identity Demo.faulty)
            (deliveredSince (Live.notify steps calls event data)
               (after (ScheduleManager.detach Demo.faulty) (Demo.watched Demo.host0))) /\
     ~ In (IObserver.identity Demo.faulty)
          (map IObserver.identity
             (observers (after (Live.notify steps calls event data)
                           (after (ScheduleManager.detach Demo.faulty)
                              (Demo.watched Demo.host0)))))) /\
  (forall op : Operation,
     Forall (fun d => receiver d <> IObserver.identity Demo.faulty)
            (deliveredSince (perform op)
               (after (ScheduleManager.detach Demo.faulty) (Demo.watched Demo.host0)))) /\
  fst (ScheduleManager.getObserverCount
         (after ScheduleManager.detachAll (Demo.watched Demo.host0))) = Ok 0%nat /\
  (forall (calls : Live.Behaviour) (steps : nat) (event : string) (data : IEventData.t),
     fst (Live.notify steps calls event data
            (after ScheduleManager.detachAll (Demo.watched Demo.host0))) = Ok true /\
     deliveredSince (Live.notify steps calls event data)
       (after ScheduleManager.detachAll (Demo.watched Demo.host0))
     = []).
Proof.
  apply (detached_listeners_are_not_called Demo.host0 (Demo.watched Demo.host0) Demo.faulty).
  apply watched_reachable. intros task. exact I.
Defined.

(** [faulty] is detached, and [quiet] attaches it in its [update]: the loop
    comes to it in the same dispatch. *)
Example attached_during_the_dispatch_is_called :
  map IObserver.identity
      (observers (after (ScheduleManager.detach Demo.faulty) (Demo.listening Demo.host0)))
  = [2]%nat /\
  forall extra : nat,
    map receiver
        (deliveredSince (Live.notify (3 + extra) Demo.inviting ScheduleEvent.TASK_ADDED
                           Demo.ping)
           (after (ScheduleManager.detach Demo.faulty) (Demo.listening Demo.host0)))
    = [2; 1]%nat.
Proof. split; [reflexivity|]. intros extra. reflexivity. Qed.

(** ** The invariants of the schedule *)

Lemma reachable_any (allowed : Operation -> Prop) (h : Host) (w : World) :
  reachable allowed h w -> reachable anyOperation h w.
Proof.
  induction 1.
  - apply reachable_create.
  - apply reachable_perform; [exact I | assumption].
  - apply reachable_notify. assumption.
  - apply reachable_attach. assumption.
  - apply reachable_detach. assumption.
Qed.

(** X27. In every state a manager reaches from its creation through
    [addTask], [removeTask], [updateTask], [markTaskCompleted],
    [clearAllTasks], [importFromJSON], [notify], [attach] and [detach], the
    map holds each task under its own identifier, no identifier twice, every
    stored task passes [validateTask], so that it lasts at least a minute,
    and every stored task is found by its identifier. *)
Theorem stored_tasks_are_valid_and_keyed_by_id :
  forall (h : Host) (w : World),
    reachable anyOperation h w ->
    host w = h /\
    NoDup (JSMap.keys (tasks w)) /\
    (forall k t, In (k, t) (tasks w) -> id t = k) /\
    (forall t, In t (JSMap.values (tasks w)) ->
               ValidationService.validateTask t = Ok tt /\
               JSMap.get (id t) (tasks w) = Some t /\
               0 <= startMinute t < endMinute t /\ endMinute t <= 1439).
Proof.
  intros h w R. destruct (reachable_sound _ _ _ R) as (Hh & K & A).
  split; [exact Hh|]. split; [apply K|]. split; [apply K|].
  intros t I. split; [apply A; exact I|]. split; [apply keyed_get; assumption|].
  destruct (valid_minutes t (A t I)) as (_ & _ & B & L & U). lia.
Qed.

Lemma afterImport_reachable : reachable anyOperation Demo.host0 Demo.afterImport.
Proof. apply reachable_perform; [exact I | apply reachable_create]. Qed.

Lemma stored_tasks_are_valid_and_keyed_by_id_witness :
  host Demo.afterImport = Demo.host0 /\
  NoDup (JSMap.keys (tasks Demo.afterImport)) /\
  (forall k t, In (k, t) (tasks Demo.afterImport) -> id t = k) /\
  (forall t, In t (JSMap.values (tasks Demo.afterImport)) ->
             ValidationService.validateTask t = Ok tt /\
             JSMap.get (id t) (tasks Demo.afterImport) = Some t /\
             0 <= startMinute t < endMinute t /\ endMinute t <= 1439).
Proof.
  apply (stored_tasks_are_valid_and_keyed_by_id Demo.host0 Demo.afterImport).
  exact afterImport_reachable.
Defined.

(** X28. In every state a manager reaches from its creation through
    [addTask], [removeTask], [updateTask], [markTaskCompleted],
    [clearAllTasks], [notify], [attach] and [detach], without
    [importFromJSON], no two stored tasks of different identifiers overlap:
    one of them ends at the minute the other starts, or before. *)
Theorem stored_tasks_do_not_overlap_without_import :
  forall (h : Host) (w : World),
    reachable notImport h w ->
    forall a b : Task,
      In a (JSMap.values (tasks w)) -> In b (JSMap.values (tasks w)) -> id a <> id b ->
      overlapOf a b = Ok false /\
      (endMinute a <= startMinute b \/ endMinute b <= startMinute a).
Proof.
  intros h w R a b Ia Ib N.
  pose proof (reachable_nonOverlapping h w R a b Ia Ib N) as O.
  destruct (reachable_sound _ _ _ (reachable_any _ _ _ R)) as (_ & _ & A).
  split; [exact O|].
  destruct (valid_minutes a (A a Ia)) as (Sa & Ea & _).
  destruct (valid_minutes b (A b Ib)) as (Sb & Eb & _).
  unfold overlapOf, TimeUtils.doTimeRangesOverlap in O.
  rewrite Sa, Ea, Sb, Eb in O. simpl in O. injection O as O.
  apply andb_false_iff in O as [O|O]; apply Z.ltb_ge in O; lia.
Qed.

Lemma stored_tasks_do_not_overlap_without_import_witness :
  overlapOf Demo.exercise Demo.briefing = Ok false /\
  (endMinute Demo.exercise <= startMinute Demo.briefing \/
   endMinute Demo.briefing <= startMinute Demo.exercise).
Proof.
  assert (JSMap.values (tasks (Demo.watched Demo.host0)) = [Demo.exercise; Demo.briefing])
    as Vs by (vm_compute; reflexivity).
  apply (stored_tasks_do_not_overlap_without_import Demo.host0 (Demo.watched Demo.host0)).
  - apply watched_reachable. intros task. exact I.
  - rewrite Vs. left. reflexivity.
  - rewrite Vs. right. left. reflexivity.
  - discriminate.
Defined.

(** ** models/TaskPriority.ts and patterns/factory/TaskFactory.ts *)

Lemma lowerChar_white (c : ascii) : isWhiteSpace (lowerChar c) = isWhiteSpace c.
Proof. destruct c as [[] [] [] [] [] [] [] []]; reflexivity. Qed.

Lemma toLowerCase_app (a b : string) :
  toLowerCase (a +++ b) = toLowerCase a +++ toLowerCase b.
Proof. induction a as [|c a IH]; simpl; [reflexivity | rewrite IH; reflexivity]. Qed.

Lemma toLowerCase_blank (s : string) : blank (toLowerCase s) = blank s.
Proof.
  unfold blank. induction s as [|c s IH]; simpl; [reflexivity|].
  rewrite lowerChar_white, IH. reflexivity.
Qed.

Lemma blank_app (a b : string) : blank (a +++ b) = blank a && blank b.
Proof.
  unfold blank. induction a as [|c a IH]; simpl; [reflexivity|].
  rewrite IH. apply andb_assoc.
Qed.

Lemma trimStart_app_blank (pre x : string) :
  blank pre = true -> trimStart (pre +++ x) = trimStart x.
Proof.
  unfold blank. induction pre as [|c pre IH]; simpl; [reflexivity|].
  intros H. apply andb_true_iff in H as [W B]. rewrite W. apply IH. exact B.
Qed.

Lemma trimStart_app_visible (x y : string) :
  blank x = false -> trimStart (x +++ y) = trimStart x +++ y.
Proof.
  unfold blank. induction x as [|c x IH]; simpl; [discriminate|].
  destruct (isWhiteSpace c); simpl; [exact IH | reflexivity].
Qed.

Lemma trimEnd_blank (s : string) : blank s = true -> trimEnd s = EmptyString.
Proof.
  unfold blank. induction s as [|c s IH]; simpl; [reflexivity|].
  intros H. apply andb_true_iff in H as [W B]. rewrite (IH B), W. reflexivity.
Qed.

Lemma trimEnd_app_blank (x post : string) :
  blank post = true -> trimEnd (x +++ post) = trimEnd x.
Proof.
  intros B. induction x as [|c x IH]; simpl.
  - apply trimEnd_blank. exact B.
  - rewrite IH. reflexivity.
Qed.

(** White space around a string does not change what [trim] leaves. *)
Lemma trim_padded (pre x post : string) :
  blank pre = true -> blank post = true -> trim (pre +++ x +++ post) = trim x.
Proof.
  intros Bpre Bpost. unfold trim. rewrite (trimStart_app_blank pre _ Bpre).
  destruct (blank x) eqn:Bx.
  - assert (blank (x +++ post) = true) as B by (rewrite blank_app, Bx, Bpost; reflexivity).
    apply trimStart_blank in B. rewrite B.
    apply trimStart_blank in Bx. rewrite Bx. reflexivity.
  - rewrite (trimStart_app_visible x post Bx). apply trimEnd_app_blank. exact Bpost.
Qed.

(** X29. [parseTaskPriority] reads the three names whatever the letter case
    and the white space around them: it returns the priority whose name,
    in lower case, is what is left of the string once put in lower case and
    trimmed, and throws an Error that quotes the string when there is none.
    It reads back the text of every priority, and [parsePriority] of the
    factory returns or throws the same. *)
Theorem parseTaskPriority_reads_the_names :
  (forall p : TaskPriority, parseTaskPriority (priorityValue p) = Ok p) /\
  (forall (s : string) (p : TaskPriority),
     parseTaskPriority s = Ok p <-> trim (toLowerCase s) = toLowerCase (priorityValue p)) /\
  (forall (pre s post : string),
     blank pre = true -> blank post = true ->
     forall p, parseTaskPriority s = Ok p -> parseTaskPriority (pre +++ s +++ post) = Ok p) /\
  (forall (s s' : string),
     toLowerCase s = toLowerCase s' ->
     forall p, parseTaskPriority s = Ok p -> parseTaskPriority s' = Ok p) /\
  (forall (s : string) (e : Error),
     parseTaskPriority s = Throw e ->
     e = PlainError ("Invalid priority: " +++ quoted s
                     +++ ". Valid options are: Low, Medium, High")) /\
  (forall (s : string) (w : World), fst (TaskFactory.parsePriority s w) = parseTaskPriority s).
Proof.
  assert (forall (s : string) (p : TaskPriority),
            parseTaskPriority s = Ok p <->
            trim (toLowerCase s) = toLowerCase (priorityValue p)) as Iff.
  { intros s p. unfold parseTaskPriority.
    destruct (String.eqb_spec (trim (toLowerCase s)) "low") as [E|N1].
    { rewrite E. destruct p; split; intros H; try discriminate H; reflexivity. }
    destruct (String.eqb_spec (trim (toLowerCase s)) "medium") as [E|N2].
    { rewrite E. destruct p; split; intros H; try discriminate H; reflexivity. }
    destruct (String.eqb_spec (trim (toLowerCase s)) "high") as [E|N3].
    { rewrite E. destruct p; split; intros H; try discriminate H; reflexivity. }
    split; [discriminate|].
    destruct p; intros H; exfalso; [apply N1 | apply N2 | apply N3]; exact H. }
  split; [intros []; reflexivity|]. split; [exact Iff|]. split; [|split; [|split]].
  - intros pre s post Bpre Bpost p H. apply Iff. apply Iff in H.
    rewrite !toLowerCase_app. rewrite trim_padded; [exact H | |];
      rewrite toLowerCase_blank; assumption.
  - intros s s' E p H. apply Iff. apply Iff in H. rewrite <- E. exact H.
  - intros s e. unfold parseTaskPriority.
    destruct (String.eqb (trim (toLowerCase s)) "low"); [discriminate|].
    destruct (String.eqb (trim (toLowerCase s)) "medium"); [discriminate|].
    destruct (String.eqb (trim (toLowerCase s)) "high"); [discriminate|].
    intros H. injection H as <-. reflexivity.
  - intros s w. unfold TaskFactory.parsePriority, getAllPriorities. cbn [find priorityValue].
    destruct (String.eqb_spec "Low" s) as [<-|_]; [reflexivity|].
    destruct (String.eqb_spec "Medium" s) as [<-|_]; [reflexivity|].
    destruct (String.eqb_spec "High" s) as [<-|_]; [reflexivity|].
    unfold tryCatch, lift, bind, throw, Logger, writes.
    destruct (parseTaskPriority s); reflexivity.
Qed.

Example parseTaskPriority_examples :
  parseTaskPriority "  MEDIUM " = Ok MEDIUM /\
  parseTaskPriority "high" = Ok HIGH /\
  thrown (parseTaskPriority "urgent") = Some "Error" /\
  thrown (parseTaskPriority "") = Some "Error".
Proof. repeat split; reflexivity. Qed.

Lemma trimEnd_first (c : ascii) (rest : string) :
  isWhiteSpace c = false -> exists rest', trimEnd (String c rest) = String c rest'.
Proof.
  intros W. simpl. destruct (trimEnd rest); [rewrite W|]; eexists; reflexivity.
Qed.

(** What [trim] leaves of a description with a visible character has one. *)
Lemma trim_visible (s : string) : blank s = false -> blank (trim s) = false.
Proof.
  intros B. unfold trim.
  destruct (trimStart s) as [|c rest] eqn:E.
  - apply trimStart_blank in E. congruence.
  - pose proof (trimStart_head s c rest E) as W.
    destruct (trimEnd_first c rest W) as (rest' & ->).
    unfold blank. simpl. rewrite W. reflexivity.
Qed.

Lemma validateDescription_blank (d : string) :
  ValidationService.validateDescription d = Ok tt <-> blank d = false.
Proof.
  unfold ValidationService.validateDescription. rewrite description_test.
  destruct (blank d); split; congruence.
Qed.

(** [validateInputs]: when it returns, and what it throws. *)
Lemma validateInputs_cases (d s e : string) :
  (TaskFactory.validateInputs d s e = Ok tt <->
   ValidationService.validateDescription d = Ok tt /\
   TimeUtils.validateTimeFormat s = Ok tt /\
   TimeUtils.validateTimeFormat e = Ok tt /\
   TimeUtils.validateTimeRange s e = Ok tt) /\
  (forall err, TaskFactory.validateInputs d s e = Throw err ->
     Err.name err = "InvalidTaskDescriptionError" \/
     Err.name err = "InvalidTimeFormatError" \/
     Err.name err = "InvalidTimeRangeError").
Proof.
  unfold TaskFactory.validateInputs.
  destruct (ValidationService.validateDescription d) as [[]|e1]; simpl.
  2:{ split; [split; [discriminate | intros [H _]; discriminate H]|].
      intros err H. injection H as <-. left. reflexivity. }
  destruct (TimeUtils.validateTimeFormat s) as [[]|e2]; simpl.
  2:{ split; [split; [discriminate | intros (_ & H & _); discriminate H]|].
      intros err H. injection H as <-. right. left. reflexivity. }
  destruct (TimeUtils.validateTimeFormat e) as [[]|e3]; simpl.
  2:{ split; [split; [discriminate | intros (_ & _ & H & _); discriminate H]|].
      intros err H. injection H as <-. right. left. reflexivity. }
  destruct (TimeUtils.validateTimeRange s e) as [[]|e4]; simpl.
  - split; [tauto | discriminate].
  - split; [split; [discriminate | intros (_ & _ & _ & H); discriminate H]|].
    intros err H. injection H as <-. right. right. reflexivity.
Qed.

(** The task [createTaskWithId] builds from inputs that pass
    [validateInputs] passes [validateTask]. *)
Lemma made_task_is_valid (i d s e : string) (p : TaskPriority) (created : Date) :
  TaskFactory.validateInputs d s e = Ok tt ->
  ValidationService.validateTask (mkTask i (trim d) s e p false created None) = Ok tt.
Proof.
  intros V. apply validateInputs_cases in V as (Vd & Vs & Ve & Vr).
  unfold ValidationService.validateTask. cbn [description startTime endTime].
  rewrite description_test, (trim_visible d) by (apply validateDescription_blank; exact Vd).
  rewrite Vs, Ve. exact Vr.
Qed.

(** What [createTaskWithId] does, by the outcome of [validateInputs] and of
    [parseTaskPriority]. *)
Lemma createTaskWithId_outcome (i d s e p : string) (w : World) :
  (forall err, TaskFactory.validateInputs d s e = Throw err ->
     TaskFactory.createTaskWithId i d s e p w = (Throw err, w)) /\
  (forall err, TaskFactory.validateInputs d s e = Ok tt ->
     parseTaskPriority p = Throw err ->
     exists w', TaskFactory.createTaskWithId i d s e p w = (Throw err, w') /\
                tasks w' = tasks w /\ ticks w' = ticks w) /\
  (forall pr, TaskFactory.validateInputs d s e = Ok tt ->
     parseTaskPriority p = Ok pr ->
     exists w', TaskFactory.createTaskWithId i d s e p w
                = (Ok (mkTask i (trim d) s e pr false (DateOf (now (host w) (ticks w))) None),
                   w') /\
                tasks w' = tasks w /\ ticks w' = S (ticks w)).
Proof.
  split; [|split].
  - intros err V. unfold TaskFactory.createTaskWithId, bind, lift. rewrite V. reflexivity.
  - intros err V P.
    unfold TaskFactory.createTaskWithId, bind, lift. rewrite V.
    unfold TaskFactory.parsePriority, getAllPriorities. cbn [find priorityValue].
    destruct (String.eqb_spec "Low" p) as [<-|_]; [discriminate P|].
    destruct (String.eqb_spec "Medium" p) as [<-|_]; [discriminate P|].
    destruct (String.eqb_spec "High" p) as [<-|_]; [discriminate P|].
    unfold tryCatch, lift, bind, throw, Logger, writes. rewrite P.
    eexists. split; [reflexivity|]. split; reflexivity.
  - intros pr V P.
    pose proof (made_task_is_valid i d s e pr (DateOf (now (host w) (ticks w))) V) as Vt.
    apply validateTask_validate in Vt as (Vt & _).
    apply validateInputs_cases in V as V'. destruct V' as (Vd & Vs & Ve & Vr).
    assert (TaskFactory.parsePriority p w = (Ok pr, w)) as Pp.
    { unfold TaskFactory.parsePriority, getAllPriorities. cbn [find priorityValue].
      destruct (String.eqb_spec "Low" p) as [<-|_];
        [injection P as <-; reflexivity|].
      destruct (String.eqb_spec "Medium" p) as [<-|_];
        [injection P as <-; reflexivity|].
      destruct (String.eqb_spec "High" p) as [<-|_];
        [injection P as <-; reflexivity|].
      unfold tryCatch, lift. rewrite P. reflexivity. }
    unfold TaskFactory.createTaskWithId, bind, lift. rewrite V, Pp.
    rewrite (formatTime_valid s Vs), (formatTime_valid e Ve).
    unfold newDate. cbv zeta. rewrite Vt. simpl.
    eexists. split; [reflexivity|]. split; reflexivity.
Qed.

(** X30. [createTaskWithId] of the factory throws the error of the first
    input that fails, in the order description, start time, end time, range,
    priority, and returns when none fails. A description of white space only
    gives InvalidTaskDescriptionError, whatever the other inputs; then a
    start time, then an end time that is not of the format gives the
    InvalidTimeFormatError of [validateTimeFormat]; then a start that is not
    before the end gives InvalidTimeRangeError; then a priority that
    [parseTaskPriority] does not read gives its Error. In each of these the
    schedule is as before. Otherwise the call returns the task of the given
    identifier, the trimmed description, the two times and the priority
    read, not completed, created at the reading of the clock. Whatever task
    it returns passes the [validateTask] of the manager and has no error by
    [Task.validate]: the check after the construction never fails. *)
Theorem createTaskWithId_makes_a_task_the_manager_accepts :
  forall (id' description' startTime' endTime' priority' : string) (w : World),
    (blank description' = true ->
     TaskFactory.createTaskWithId id' description' startTime' endTime' priority' w
     = (Throw (InvalidTaskDescriptionError "Task description cannot be empty."), w)) /\
    (blank description' = false ->
     forall e : Error,
       TimeUtils.validateTimeFormat startTime' = Throw e ->
       Err.name e = "InvalidTimeFormatError" /\
       TaskFactory.createTaskWithId id' description' startTime' endTime' priority' w
       = (Throw e, w)) /\
    (blank description' = false ->
     TimeUtils.validateTimeFormat startTime' = Ok tt ->
     forall e : Error,
       TimeUtils.validateTimeFormat endTime' = Throw e ->
       Err.name e = "InvalidTimeFormatError" /\
       TaskFactory.createTaskWithId id' description' startTime' endTime' priority' w
       = (Throw e, w)) /\
    (blank description' = false ->
     TimeUtils.validateTimeFormat startTime' = Ok tt ->
     TimeUtils.validateTimeFormat endTime' = Ok tt ->
     minutesOf endTime' <= minutesOf startTime' ->
     TaskFactory.createTaskWithId id' description' startTime' endTime' priority' w
     = (Throw (InvalidTimeRangeError
                 ("Invalid time range: Start time (" +++ startTime'
                  +++ ") must be strictly before end time (" +++ endTime' +++ ").")), w)) /\
    (blank description' = false ->
     TimeUtils.validateTimeFormat startTime' = Ok tt ->
     TimeUtils.validateTimeFormat endTime' = Ok tt ->
     minutesOf startTime' < minutesOf endTime' ->
     (forall e : Error,
        parseTaskPriority priority' = Throw e ->
        Err.name e = "Error" /\
        exists w',
          TaskFactory.createTaskWithId id' description' startTime' endTime' priority' w
          = (Throw e, w') /\
          tasks w' = tasks w) /\
     (forall p : TaskPriority,
        parseTaskPriority priority' = Ok p ->
        exists w',
          TaskFactory.createTaskWithId id' description' startTime' endTime' priority' w
          = (Ok (mkTask id' (trim description') startTime' endTime' p false
                        (DateOf (now (host w) (ticks w))) None), w') /\
          tasks w' = tasks w)) /\
    (forall (task : Task) (w' : World),
       TaskFactory.createTaskWithId id' description' startTime' endTime' priority' w
       = (Ok task, w') ->
       ValidationService.validateTask task = Ok tt /\ validate task = [] /\
       id task = id' /\ dated task /\ tasks w' = tasks w).
Proof.
  intros i d s e p w.
  destruct (createTaskWithId_outcome i d s e p w) as (O1 & O2 & O3).
  assert (forall x err, TimeUtils.validateTimeFormat x = Throw err ->
            Err.name err = "InvalidTimeFormatError" /\
            InvalidTimeFormatError (Err.message err) = err) as Fmt.
  { intros x err. unfold TimeUtils.validateTimeFormat.
    destruct (negb (TimeUtils.TIME_REGEX_test x)); [|discriminate].
    intros [= <-]. split; reflexivity. }
  assert (blank d = false -> ValidationService.validateDescription d = Ok tt) as Vd
    by apply validateDescription_blank.
  assert (forall ms me, TimeUtils.timeToMinutes s = Ok ms -> TimeUtils.timeToMinutes e = Ok me ->
            minutesOf s = ms /\ minutesOf e = me) as Min.
  { intros ms me Es Ee. unfold minutesOf. rewrite Es, Ee. split; reflexivity. }
  assert (forall pr, ValidationService.validateDescription d = Ok tt ->
            TimeUtils.validateTimeFormat s = Ok tt -> TimeUtils.validateTimeFormat e = Ok tt ->
            minutesOf s < minutesOf e -> pr = tt ->
            TaskFactory.validateInputs d s e = Ok pr) as Pass.
  { intros pr D Vs Ve L ->. apply validateInputs_cases.
    split; [exact D|]. split; [exact Vs|]. split; [exact Ve|].
    destruct (validateTimeRange_wants_order s e Vs Ve) as (ms & me & Es & Ee & R & _).
    destruct (Min ms me Es Ee) as (Ms & Me). rewrite Ms, Me in L. apply R. exact L. }
  split; [|split; [|split; [|split; [|split]]]].
  - intros B. apply O1. unfold TaskFactory.validateInputs.
    assert (ValidationService.validateDescription d
            = Throw (InvalidTaskDescriptionError "Task description cannot be empty.")) as ->.
    { unfold ValidationService.validateDescription. rewrite description_test, B. reflexivity. }
    reflexivity.
  - intros B err Vs. destruct (Fmt _ _ Vs) as (N & Same). split; [exact N|].
    apply O1. unfold TaskFactory.validateInputs. rewrite (Vd B), Vs. simpl.
    rewrite Same. reflexivity.
  - intros B Vs err Ve. destruct (Fmt _ _ Ve) as (N & Same). split; [exact N|].
    apply O1. unfold TaskFactory.validateInputs. rewrite (Vd B), Vs, Ve. simpl.
    rewrite Same. reflexivity.
  - intros B Vs Ve L. apply O1.
    unfold TaskFactory.validateInputs. rewrite (Vd B), Vs, Ve. simpl.
    destruct (validateTimeRange_wants_order s e Vs Ve) as (ms & me & Es & Ee & _ & _).
    destruct (Min ms me Es Ee) as (Ms & Me). rewrite Ms, Me in L.
    unfold TimeUtils.validateTimeRange. rewrite Es, Ee. simpl res_bind.
    destruct (Z.geb_spec ms me) as [G|G]; [reflexivity | lia].
  - intros B Vs Ve L. pose proof (Pass tt (Vd B) Vs Ve L eq_refl) as V. split.
    + intros err P. split.
      * unfold parseTaskPriority in P.
        destruct (String.eqb (trim (toLowerCase p)) "low"); [discriminate|].
        destruct (String.eqb (trim (toLowerCase p)) "medium"); [discriminate|].
        destruct (String.eqb (trim (toLowerCase p)) "high"); [discriminate|].
        injection P as <-. reflexivity.
      * destruct (O2 err V P) as (w' & E & T & _). exists w'. split; assumption.
    + intros pr P. destruct (O3 pr V P) as (w' & E & T & _). exists w'. split; assumption.
  - intros task w' E.
    destruct (TaskFactory.validateInputs d s e) as [[]|err] eqn:V.
    2:{ rewrite (O1 err eq_refl) in E. discriminate E. }
    destruct (parseTaskPriority p) as [pr|err] eqn:P.
    2:{ destruct (O2 err eq_refl eq_refl) as (w1 & E1 & _). rewrite E1 in E. discriminate E. }
    destruct (O3 pr eq_refl eq_refl) as (w1 & E1 & T & _).
    rewrite E1 in E. injection E as <- <-.
    pose proof (made_task_is_valid i d s e pr (DateOf (now (host w) (ticks w))) V) as Vt.
    split; [exact Vt|]. split; [apply (validateTask_validate _ Vt)|].
    split; [reflexivity|]. split; [split; discriminate | exact T].
Qed.

Example createTaskWithId_examples :
  fst (TaskFactory.createTaskWithId "T-1" "  Lunch " "12:00" "13:00" "medium"
         (ScheduleManager.create Demo.host0))
  = Ok (mkTask "T-1" "Lunch" "12:00" "13:00" MEDIUM false (DateOf 1700000000000) None) /\
  thrown (fst (TaskFactory.createTaskWithId "T-1" " " "12:00" "1pm" "soon"
                 (ScheduleManager.create Demo.host0)))
  = Some "InvalidTaskDescriptionError" /\
  thrown (fst (TaskFactory.createTaskWithId "T-1" "Lunch" "12:00" "1pm" "soon"
                 (ScheduleManager.create Demo.host0)))
  = Some "InvalidTimeFormatError" /\
  thrown (fst (TaskFactory.createTaskWithId "T-1" "Lunch" "13:00" "12:00" "soon"
                 (ScheduleManager.create Demo.host0)))
  = Some "InvalidTimeRangeError" /\
  thrown (fst (TaskFactory.createTaskWithId "T-1" "Lunch" "12:00" "13:00" "soon"
                 (ScheduleManager.create Demo.host0)))
  = Some "Error".
Proof. repeat split; vm_compute; reflexivity. Qed.
